(** * JARVIS calendar module: a shallow embedding and its properties

    The development follows [src/modules/calendar_module.py].  The Python
    values it manipulates ([datetime.date], [datetime.datetime],
    [datetime.timedelta]) are modelled after the reference implementation
    of the [datetime] module: proleptic Gregorian ordinals, normalised
    time deltas, tuple comparison, [isoformat] and [fromisoformat].

    Conventions.
    - Python [int] is [Z]; [//] and [%] with a positive divisor are
      [Z.div] and [Z.modulo] (both floor).
    - Python [str] is [string]; the model covers ASCII text.
    - A call that can raise returns a [result]; the exception classes that
      occur are listed in [exn].
    - Reads of the clock, of the random source and the outcome of a file
      write are explicit arguments.
    - An event is a typed record: its fields hold values of the annotated
      types, and its timestamps are naive.  What Python does with values
      of other types, with keyword arguments that name an attribute which
      is no field, and with text outside ASCII is outside the model; the
      statements that depend on it say so in their hypotheses. *)

From Stdlib Require Import ZArith List String Ascii Bool Lia.
From Stdlib Require Import Sorted Permutation DecimalString DecimalN.
Import ListNotations.

Open Scope string_scope.
Open Scope list_scope.
Open Scope Z_scope.

(** ** Exceptions *)

Inductive exn : Type :=
| ValueError
| OverflowError
| KeyError
| TypeError.

Inductive result (A : Type) : Type :=
| Ok (a : A)
| Raise (e : exn).

Arguments Ok {A} a.
Arguments Raise {A} e.

Definition bind {A B : Type} (m : result A) (k : A -> result B) : result B :=
  match m with
  | Ok a => k a
  | Raise e => Raise e
  end.

Notation "x <- m ;; k" := (bind m (fun x => k))
  (at level 61, m at next level, right associativity).

Definition is_ok {A : Type} (m : result A) : bool :=
  match m with Ok _ => true | Raise _ => false end.

(** ** The [datetime] library *)

Module PyDatetime.

Definition MINYEAR : Z := 1.
Definition MAXYEAR : Z := 9999.
Definition MAXORDINAL : Z := 3652059.

(** [l[i]] for a non-negative index; the tables below are only read at
    indices 1..12. *)
Definition getitem (l : list Z) (i : Z) : Z := nth (Z.to_nat i) l 0.

Definition DAYS_IN_MONTH : list Z :=
  [-1; 31; 28; 31; 30; 31; 30; 31; 31; 30; 31; 30; 31].

(** The running sum the library builds at import time. *)
Fixpoint running_sum (dbm : Z) (l : list Z) : list Z :=
  match l with
  | [] => []
  | dim :: l' => dbm :: running_sum (dbm + dim) l'
  end.

Definition DAYS_BEFORE_MONTH : list Z :=
  -1 :: running_sum 0 (tl DAYS_IN_MONTH).

Definition is_leap (year : Z) : bool :=
  (year mod 4 =? 0) && (negb (year mod 100 =? 0) || (year mod 400 =? 0)).

Definition days_before_year (year : Z) : Z :=
  let y := year - 1 in
  y * 365 + y / 4 - y / 100 + y / 400.

Definition days_in_month (year month : Z) : Z :=
  if (month =? 2) && is_leap year then 29 else getitem DAYS_IN_MONTH month.

Definition b2z (b : bool) : Z := if b then 1 else 0.

Definition days_before_month (year month : Z) : Z :=
  getitem DAYS_BEFORE_MONTH month + b2z ((2 <? month) && is_leap year).

Definition ymd2ord (year month day : Z) : Z :=
  days_before_year year + days_before_month year month + day.

Definition DI400Y : Z := Eval cbv in days_before_year 401.
Definition DI100Y : Z := Eval cbv in days_before_year 101.
Definition DI4Y : Z := Eval cbv in days_before_year 5.

Definition ord2ymd (n : Z) : Z * Z * Z :=
  let n := n - 1 in
  let n400 := n / DI400Y in
  let n := n mod DI400Y in
  let year := n400 * 400 + 1 in
  let n100 := n / DI100Y in
  let n := n mod DI100Y in
  let n4 := n / DI4Y in
  let n := n mod DI4Y in
  let n1 := n / 365 in
  let n := n mod 365 in
  let year := year + (n100 * 100 + n4 * 4 + n1) in
  if (n1 =? 4) || (n100 =? 4) then (year - 1, 12, 31)
  else
    let leapyear := (n1 =? 3) && (negb (n4 =? 24) || (n100 =? 3)) in
    let month := Z.shiftr (n + 50) 5 in
    let preceding :=
      getitem DAYS_BEFORE_MONTH month + b2z ((2 <? month) && leapyear) in
    if n <? preceding then
      let month := month - 1 in
      let preceding :=
        preceding
        - (getitem DAYS_IN_MONTH month + b2z ((month =? 2) && leapyear)) in
      (year, month, n - preceding + 1)
    else (year, month, n - preceding + 1).

(** *** Classes [date], [time], [datetime], [timedelta] *)

Record date : Type := mkdate { year : Z; month : Z; day : Z }.

Record time : Type :=
  mktime { hour : Z; minute : Z; second : Z; microsecond : Z }.

(** A naive [datetime] (no [tzinfo]); [date_of] is the method [date()]
    and [combine] the class method of that name. *)
Record datetime : Type := combine { date_of : date; time_of : time }.

Record timedelta : Type :=
  mkdelta { days : Z; seconds : Z; microseconds : Z }.

Definition check_date_fields (y m d : Z) : bool :=
  (MINYEAR <=? y) && (y <=? MAXYEAR)
  && (1 <=? m) && (m <=? 12)
  && (1 <=? d) && (d <=? days_in_month y m).

Definition check_time_fields (hh mm ss us : Z) : bool :=
  (0 <=? hh) && (hh <=? 23) && (0 <=? mm) && (mm <=? 59)
  && (0 <=? ss) && (ss <=? 59) && (0 <=? us) && (us <=? 999999).

(** The constructors [date(y, m, d)], [time(h, m, s, us)] and
    [datetime(y, m, d, h, m, s, us)]. *)
Definition new_date (y m d : Z) : result date :=
  if check_date_fields y m d then Ok (mkdate y m d) else Raise ValueError.

Definition new_time (hh mm ss us : Z) : result time :=
  if check_time_fields hh mm ss us then Ok (mktime hh mm ss us)
  else Raise ValueError.

Definition new_datetime (y m d hh mm ss us : Z) : result datetime :=
  dd <- new_date y m d ;;
  tt <- new_time hh mm ss us ;;
  Ok (combine dd tt).

(** Objects only exist with fields that passed the constructor's checks. *)
Definition valid_date (d : date) : Prop :=
  check_date_fields (year d) (month d) (day d) = true.

Definition valid_time (t : time) : Prop :=
  check_time_fields (hour t) (minute t) (second t) (microsecond t) = true.

Definition valid_datetime (dt : datetime) : Prop :=
  valid_date (date_of dt) /\ valid_time (time_of dt).

Definition toordinal (d : date) : Z := ymd2ord (year d) (month d) (day d).

Definition fromordinal (n : Z) : date :=
  let '(y, m, d) := ord2ymd n in mkdate y m d.

Definition weekday (d : date) : Z := (toordinal d + 6) mod 7.

(** [timedelta(days, seconds, microseconds)] on integers: the carrying
    steps of the constructor, then the range check on days. *)
Definition new_timedelta (days0 seconds0 microseconds0 : Z)
  : result timedelta :=
  let d := days0 in
  let d := d + seconds0 / 86400 in
  let s := seconds0 mod 86400 in
  let seconds1 := microseconds0 / 1000000 in
  let microseconds1 := microseconds0 mod 1000000 in
  let d := d + seconds1 / 86400 in
  let s := s + seconds1 mod 86400 in
  let s := s + microseconds1 / 1000000 in
  let us := microseconds1 mod 1000000 in
  let d := d + s / 86400 in
  let s := s mod 86400 in
  if 999999999 <? Z.abs d then Raise OverflowError
  else Ok (mkdelta d s us).

(** [timedelta(days=n)] and [timedelta(minutes=n)]. *)
Definition timedelta_days (n : Z) : result timedelta := new_timedelta n 0 0.
Definition timedelta_minutes (n : Z) : result timedelta :=
  new_timedelta 0 (0 + (n * 60 + 0 * 3600)) 0.

Definition delta_add (a b : timedelta) : result timedelta :=
  new_timedelta (days a + days b) (seconds a + seconds b)
                (microseconds a + microseconds b).

Definition delta_neg (a : timedelta) : result timedelta :=
  new_timedelta (- days a) (- seconds a) (- microseconds a).

(** [date + timedelta] and [date - timedelta]. *)
Definition date_add (d : date) (td : timedelta) : result date :=
  let o := toordinal d + days td in
  if (0 <? o) && (o <=? MAXORDINAL) then Ok (fromordinal o)
  else Raise OverflowError.

Definition date_sub (d : date) (td : timedelta) : result date :=
  nd <- new_timedelta (- days td) 0 0 ;;
  date_add d nd.

(** [datetime + timedelta], [datetime - timedelta] and
    [datetime - datetime]. *)
Definition datetime_add (dt : datetime) (td : timedelta) : result datetime :=
  let t := time_of dt in
  delta <- new_timedelta (toordinal (date_of dt))
                         (second t + (minute t * 60 + hour t * 3600))
                         (microsecond t) ;;
  delta <- delta_add delta td ;;
  let hh := seconds delta / 3600 in
  let rem := seconds delta mod 3600 in
  let mm := rem / 60 in
  let ss := rem mod 60 in
  if (0 <? days delta) && (days delta <=? MAXORDINAL) then
    tt <- new_time hh mm ss (microseconds delta) ;;
    Ok (combine (fromordinal (days delta)) tt)
  else Raise OverflowError.

Definition datetime_sub_delta (dt : datetime) (td : timedelta)
  : result datetime :=
  nd <- delta_neg td ;;
  datetime_add dt nd.

Definition datetime_sub (a b : datetime) : result timedelta :=
  let days1 := toordinal (date_of a) in
  let days2 := toordinal (date_of b) in
  let ta := time_of a in
  let tb := time_of b in
  let secs1 := second ta + minute ta * 60 + hour ta * 3600 in
  let secs2 := second tb + minute tb * 60 + hour tb * 3600 in
  new_timedelta (days1 - days2) (secs1 - secs2)
                (microsecond ta - microsecond tb).

(** *** Comparison: tuples of fields, compared lexicographically *)

Fixpoint tuple_cmp (x y : list Z) : comparison :=
  match x, y with
  | [], [] => Eq
  | [], _ :: _ => Lt
  | _ :: _, [] => Gt
  | a :: x', b :: y' =>
      match a ?= b with
      | Eq => tuple_cmp x' y'
      | c => c
      end
  end.

Definition date_tuple (d : date) : list Z := [year d; month d; day d].

Definition datetime_tuple (dt : datetime) : list Z :=
  let d := date_of dt in
  let t := time_of dt in
  [year d; month d; day d; hour t; minute t; second t; microsecond t].

Definition date_cmp (a b : date) : comparison :=
  tuple_cmp (date_tuple a) (date_tuple b).

Definition datetime_cmp (a b : datetime) : comparison :=
  tuple_cmp (datetime_tuple a) (datetime_tuple b).

Definition is_lt (c : comparison) : bool :=
  match c with Lt => true | _ => false end.
Definition is_gt (c : comparison) : bool :=
  match c with Gt => true | _ => false end.

(** [a < b], [a > b], [a <= b] and [a == b] on [datetime]. *)
Definition lt (a b : datetime) : bool := is_lt (datetime_cmp a b).
Definition gt (a b : datetime) : bool := is_gt (datetime_cmp a b).
Definition le (a b : datetime) : bool := negb (is_gt (datetime_cmp a b)).

Definition date_eqb (a b : date) : bool :=
  (year a =? year b) && (month a =? month b) && (day a =? day b).

(** The builtin [max(a, b)]: the first argument unless the second is
    greater. *)
Definition max (a b : datetime) : datetime := if gt b a then b else a.

(** [a <= b] on [date]. *)
Definition date_le (a b : date) : bool := negb (is_gt (date_cmp a b)).

End PyDatetime.

(** ** Strings and dynamically typed values *)

Module PyStr.

(** [bool(s)]: a string is true when it is not empty. *)
Definition truthy (s : string) : bool :=
  match s with EmptyString => false | String _ _ => true end.

(** [s[:n]] *)
Definition slice_to (n : nat) (s : string) : string := substring 0 n s.

(** [s[i:j]] for [i <= j] *)
Definition slice (i j : nat) (s : string) : string := substring i (j - i) s.

(** [s[i:]] *)
Definition slice_from (i : nat) (s : string) : string :=
  substring i (String.length s - i) s.

Definition lower_char (c : ascii) : ascii :=
  let n := nat_of_ascii c in
  if (Nat.leb 65 n && Nat.leb n 90)%bool then ascii_of_nat (n + 32) else c.

(** [s.lower()] on ASCII text: the letters [A] to [Z] are folded and
    every other character is left as it is.  [str.lower] also folds the
    letters outside ASCII; what is said of [lower] is said of ASCII text
    (see [is_ascii]). *)
Fixpoint lower (s : string) : string :=
  match s with
  | EmptyString => EmptyString
  | String c s' => String (lower_char c) (lower s')
  end.

(** Every character of the string is an ASCII character. *)
Fixpoint is_ascii (s : string) : bool :=
  match s with
  | EmptyString => true
  | String c s' => Nat.ltb (nat_of_ascii c) 128 && is_ascii s'
  end.

(** [q in s]: [q] occurs in [s] as a contiguous substring. *)
Fixpoint contains (q s : string) : bool :=
  prefix q s
  || match s with
     | EmptyString => false
     | String _ s' => contains q s'
     end.

Definition digit_of_char (c : ascii) : option Z :=
  let n := Z.of_nat (nat_of_ascii c) in
  if (48 <=? n) && (n <=? 57) then Some (n - 48) else None.

Definition char_of_digit (d : Z) : ascii := ascii_of_nat (Z.to_nat (48 + d)).

Fixpoint int_acc (acc : Z) (s : string) : option Z :=
  match s with
  | EmptyString => Some acc
  | String c s' =>
      match digit_of_char c with
      | Some d => int_acc (acc * 10 + d) s'
      | None => None
      end
  end.

(** [int(s)] on a string of decimal digits.  (Python also accepts a sign,
    surrounding blanks and underscores; [isoformat] never produces them.) *)
Definition int (s : string) : result Z :=
  match s with
  | EmptyString => Raise ValueError
  | _ => match int_acc 0 s with
         | Some n => Ok n
         | None => Raise ValueError
         end
  end.

(** The [w] low decimal digits of [n], most significant first. *)
Fixpoint fixed_digits (w : nat) (n : Z) : string :=
  match w with
  | O => EmptyString
  | S w' =>
      (fixed_digits w' (n / 10) ++ String (char_of_digit (n mod 10)) "")%string
  end.

(** ["%0wd" % n] for [0 <= n]: zero padded to [w] digits, longer when the
    number needs more. *)
Definition format_0d (w : nat) (n : Z) : string :=
  if n <? 10 ^ Z.of_nat w then fixed_digits w n
  else NilZero.string_of_uint (N.to_uint (Z.to_N n)).

End PyStr.

Module PyIso.
Import PyDatetime PyStr.

Definition format_time (hh mm ss us : Z) : string :=
  let base :=
    (format_0d 2 hh ++ ":" ++ format_0d 2 mm ++ ":" ++ format_0d 2 ss)%string in
  if us =? 0 then base else (base ++ "." ++ format_0d 6 us)%string.

(** [datetime.isoformat()] of a naive datetime. *)
Definition isoformat (dt : datetime) : string :=
  let d := date_of dt in
  let t := time_of dt in
  (format_0d 4 (year d) ++ "-" ++ format_0d 2 (month d) ++ "-"
   ++ format_0d 2 (day d) ++ "T"
   ++ format_time (hour t) (minute t) (second t) (microsecond t))%string.

Definition expect_char (c : ascii) (s : string) (i : nat) : result unit :=
  match get i s with
  | Some c' => if Ascii.eqb c' c then Ok tt else Raise ValueError
  | None => Raise ValueError
  end.

Definition parse_isoformat_date (dstr : string) : result (Z * Z * Z) :=
  y <- int (slice 0 4 dstr) ;;
  _ <- expect_char "-" dstr 4 ;;
  m <- int (slice 5 7 dstr) ;;
  _ <- expect_char "-" dstr 7 ;;
  d <- int (slice 8 10 dstr) ;;
  Ok (y, m, d).

(** The loop of [_parse_hh_mm_ss_ff] over the three components; [pos] is
    the read position, [comps] the components read so far (in reverse). *)
Fixpoint parse_hh_mm_ss (tstr : string) (comp : nat) (todo : nat) (pos : nat)
  (comps : list Z) : result (list Z * nat) :=
  match todo with
  | O => Ok (comps, pos)
  | S todo' =>
      if Nat.ltb (String.length tstr - pos) 2 then Raise ValueError
      else
        v <- int (slice pos (pos + 2) tstr) ;;
        let pos := (pos + 2)%nat in
        let next_char := slice pos (pos + 1) tstr in
        if negb (truthy next_char) || Nat.leb 2 comp then Ok (v :: comps, pos)
        else if negb (String.eqb next_char ":") then Raise ValueError
        else parse_hh_mm_ss tstr (S comp) todo' (pos + 1)%nat (v :: comps)
  end.

Definition parse_hh_mm_ss_ff (tstr : string) : result (Z * Z * Z * Z) :=
  r <- parse_hh_mm_ss tstr 0 3 0 [] ;;
  let '(comps, pos) := r in
  let '(hh, mm, ss) :=
    match rev comps with
    | [h] => (h, 0, 0)
    | [h; m] => (h, m, 0)
    | [h; m; s] => (h, m, s)
    | _ => (0, 0, 0)
    end in
  if Nat.ltb pos (String.length tstr) then
    _ <- expect_char "." tstr pos ;;
    let pos := (pos + 1)%nat in
    let len_remainder := (String.length tstr - pos)%nat in
    if Nat.eqb len_remainder 3 then
      f <- int (slice_from pos tstr) ;; Ok (hh, mm, ss, f * 1000)
    else if Nat.eqb len_remainder 6 then
      f <- int (slice_from pos tstr) ;; Ok (hh, mm, ss, f)
    else Raise ValueError
  else Ok (hh, mm, ss, 0).

(** [datetime.fromisoformat(s)] on the grammar
    [YYYY-MM-DD[*HH[:MM[:SS[.fff[fff]]]]]], which holds everything that
    [isoformat] writes for a naive datetime.  Python reads more than this
    grammar: a UTC offset (the result is an aware datetime, which the
    record does not represent) and, from version 3.11 on, other ISO 8601
    forms.  The model stops with [ValueError] on those, so on a string
    that [isoformat] does not write the result of the model is no evidence
    of what Python does. *)
Definition fromisoformat (date_string : string) : result datetime :=
  let dstr := slice 0 10 date_string in
  let tstr := slice_from 11 date_string in
  ymd <- parse_isoformat_date dstr ;;
  let '(y, m, d) := ymd in
  if truthy tstr then
    hmsf <- parse_hh_mm_ss_ff tstr ;;
    let '(hh, mm, ss, us) := hmsf in
    new_datetime y m d hh mm ss us
  else new_datetime y m d 0 0 0 0.

(** [date.isoformat()] *)
Definition date_isoformat (d : date) : string :=
  (format_0d 4 (year d) ++ "-" ++ format_0d 2 (month d) ++ "-"
   ++ format_0d 2 (day d))%string.

(** [dt.strftime('%H:%M')] *)
Definition strftime_HM (dt : datetime) : string :=
  (format_0d 2 (hour (time_of dt)) ++ ":"
   ++ format_0d 2 (minute (time_of dt)))%string.

End PyIso.

(** ** [calendar_module.py] *)

Module Calendar.
Import PyDatetime PyStr PyIso.

(** Values held by a dictionary ([Dict[str, Any]]): what [asdict] puts
    there and what [json.load] returns. *)
Inductive pyval : Type :=
| PNone
| PBool (b : bool)
| PInt (n : Z)
| PStr (s : string)
| PList (l : list string)
| PDatetime (dt : datetime).

(** A [dict] with string keys, in insertion order. *)
Definition dict : Type := list (string * pyval).

Fixpoint dict_get (k : string) (d : dict) : option pyval :=
  match d with
  | [] => None
  | (k', v) :: d' => if String.eqb k' k then Some v else dict_get k d'
  end.

(** [d[k] = v]: replaces the value of an existing key, else appends. *)
Fixpoint dict_set (k : string) (v : pyval) (d : dict) : dict :=
  match d with
  | [] => [(k, v)]
  | (k', v') :: d' =>
      if String.eqb k' k then (k', v) :: d' else (k', v') :: dict_set k v d'
  end.

(** [d[k]] *)
Definition dict_item (k : string) (d : dict) : result pyval :=
  match dict_get k d with
  | Some v => Ok v
  | None => Raise KeyError
  end.

(** *** class CalendarEvent *)

Record CalendarEvent : Type := mkEvent {
  id : string;
  title : string;
  description : string;
  start_time : datetime;
  end_time : datetime;
  location : string;
  attendees : list string;
  reminder_minutes : Z;
  is_all_day : bool;
  recurrence : string;
  created_at : datetime
}.

(** The generated [__init__] followed by [__post_init__]: [attendees] and
    [created_at] may be [None]; [now] is the value [datetime.now()] would
    return. *)
Definition new_event (now : datetime) (id0 title0 description0 : string)
  (start_time0 end_time0 : datetime) (location0 : string)
  (attendees0 : option (list string)) (reminder_minutes0 : Z)
  (is_all_day0 : bool) (recurrence0 : string) (created_at0 : option datetime)
  : CalendarEvent :=
  mkEvent id0 title0 description0 start_time0 end_time0 location0
    (match attendees0 with None => [] | Some l => l end)
    reminder_minutes0 is_all_day0 recurrence0
    (match created_at0 with None => now | Some c => c end).

Definition asdict (e : CalendarEvent) : dict :=
  [ ("id", PStr (id e));
    ("title", PStr (title e));
    ("description", PStr (description e));
    ("start_time", PDatetime (start_time e));
    ("end_time", PDatetime (end_time e));
    ("location", PStr (location e));
    ("attendees", PList (attendees e));
    ("reminder_minutes", PInt (reminder_minutes e));
    ("is_all_day", PBool (is_all_day e));
    ("recurrence", PStr (recurrence e));
    ("created_at", PDatetime (created_at e)) ].

Definition to_dict (e : CalendarEvent) : dict :=
  let data := asdict e in
  let data := dict_set "start_time" (PStr (isoformat (start_time e))) data in
  let data := dict_set "end_time" (PStr (isoformat (end_time e))) data in
  let data := dict_set "created_at" (PStr (isoformat (created_at e))) data in
  data.

(** [datetime.fromisoformat(v)]: a [TypeError] unless [v] is a string. *)
Definition fromisoformat_val (v : pyval) : result datetime :=
  match v with
  | PStr s => fromisoformat s
  | _ => Raise TypeError
  end.

Definition field_names : list string :=
  [ "id"; "title"; "description"; "start_time"; "end_time"; "location";
    "attendees"; "reminder_minutes"; "is_all_day"; "recurrence";
    "created_at" ].

Definition is_field (k : string) : bool :=
  existsb (String.eqb k) field_names.

(** Reading the keyword arguments of [cls( **data )].  Python stores a value
    of any type in the new object; the record is typed, and a value of
    another type than the field's stops the model with [TypeError], where
    Python goes on with an object that is no record of this type.  What is
    said of a failure of [construct] is therefore said of a missing or an
    unknown key only, where Python raises [TypeError] as well. *)
Definition as_str (v : pyval) : result string :=
  match v with PStr s => Ok s | _ => Raise TypeError end.
Definition as_int (v : pyval) : result Z :=
  match v with PInt n => Ok n | _ => Raise TypeError end.
Definition as_bool (v : pyval) : result bool :=
  match v with PBool b => Ok b | _ => Raise TypeError end.
Definition as_datetime (v : pyval) : result datetime :=
  match v with PDatetime d => Ok d | _ => Raise TypeError end.
Definition as_opt_list (v : pyval) : result (option (list string)) :=
  match v with
  | PList l => Ok (Some l)
  | PNone => Ok None
  | _ => Raise TypeError
  end.
Definition as_opt_datetime (v : pyval) : result (option datetime) :=
  match v with
  | PDatetime d => Ok (Some d)
  | PNone => Ok None
  | _ => Raise TypeError
  end.

(** A required keyword argument: [TypeError] when missing. *)
Definition required {A : Type} (rd : pyval -> result A) (k : string)
  (data : dict) : result A :=
  match dict_get k data with
  | Some v => rd v
  | None => Raise TypeError
  end.

(** A keyword argument with a default. *)
Definition optional {A : Type} (rd : pyval -> result A) (k : string)
  (dflt : A) (data : dict) : result A :=
  match dict_get k data with
  | Some v => rd v
  | None => Ok dflt
  end.

(** [cls( **data )] *)
Definition construct (now : datetime) (data : dict) : result CalendarEvent :=
  if negb (forallb (fun kv => is_field (fst kv)) data) then Raise TypeError
  else
    i <- required as_str "id" data ;;
    t <- required as_str "title" data ;;
    d <- required as_str "description" data ;;
    st <- required as_datetime "start_time" data ;;
    en <- required as_datetime "end_time" data ;;
    loc <- optional as_str "location" "" data ;;
    att <- optional as_opt_list "attendees" None data ;;
    rem <- optional as_int "reminder_minutes" 15 data ;;
    allday <- optional as_bool "is_all_day" false data ;;
    rec <- optional as_str "recurrence" "none" data ;;
    cr <- optional as_opt_datetime "created_at" None data ;;
    Ok (new_event now i t d st en loc att rem allday rec cr).

Definition from_dict (now : datetime) (data : dict) : result CalendarEvent :=
  v <- dict_item "start_time" data ;;
  st <- fromisoformat_val v ;;
  let data := dict_set "start_time" (PDatetime st) data in
  v <- dict_item "end_time" data ;;
  en <- fromisoformat_val v ;;
  let data := dict_set "end_time" (PDatetime en) data in
  v <- dict_item "created_at" data ;;
  cr <- fromisoformat_val v ;;
  let data := dict_set "created_at" (PDatetime cr) data in
  construct now data.

(** *** class CalendarModule *)

(** The backing file: missing, holding the JSON array written by a
    completed [json.dump], or holding something [json.load] rejects (for
    instance what an interrupted write left behind). *)
Inductive file : Type :=
| NoFile
| Json (data : list dict)
| Garbage.

(** What happens when [_save_events] opens and writes the file. *)
Inductive write_outcome : Type :=
| WriteOk
| OpenFails     (* [open] raises: the file is left as it was *)
| DumpFails.    (* [json.dump] raises after the file was truncated *)

Inductive log_record : Type :=
| LogLoaded (n : nat)
| LogNoFile
| LogLoadError
| LogSaved (n : nat)
| LogSaveError
| LogCreated (title0 : string) (event_id : string)
| LogUpdated (event_id : string)
| LogDeleted (title0 : string) (event_id : string).

Record state : Type := mkState {
  events : list CalendarEvent;   (* [self.events] *)
  disk : file;                   (* the content of [self.data_file] *)
  log : list log_record          (* what [self.logger] received *)
}.

Definition add_log (r : log_record) (st : state) : state :=
  mkState (events st) (disk st) (log st ++ [r]).

(** [[f(x) for x in l]] where [f] may raise. *)
Fixpoint map_result {A B : Type} (f : A -> result B) (l : list A)
  : result (list B) :=
  match l with
  | [] => Ok []
  | x :: l' => y <- f x ;; ys <- map_result f l' ;; Ok (y :: ys)
  end.

Definition _load_events (now : datetime) (st : state) : state :=
  match disk st with
  | Json events_data =>
      match map_result (from_dict now) events_data with
      | Ok evs =>
          mkState evs (disk st) (log st ++ [LogLoaded (List.length evs)])
      | Raise _ => mkState [] (disk st) (log st ++ [LogLoadError])
      end
  | NoFile => mkState [] (disk st) (log st ++ [LogNoFile])
  | Garbage => mkState [] (disk st) (log st ++ [LogLoadError])
  end.

Definition _save_events (io : write_outcome) (st : state) : state :=
  let events_data := map to_dict (events st) in
  match io with
  | WriteOk =>
      mkState (events st) (Json events_data)
              (log st ++ [LogSaved (List.length (events st))])
  | OpenFails => mkState (events st) (disk st) (log st ++ [LogSaveError])
  | DumpFails => mkState (events st) Garbage (log st ++ [LogSaveError])
  end.

(** [str(uuid.uuid4())[:8]]; [uuid4] is the string form of the random
    UUID drawn by the call. *)
Definition _generate_event_id (uuid4 : string) : string := slice_to 8 uuid4.

Definition create_event (uuid4 : string) (now : datetime) (io : write_outcome)
  (st : state) (title0 : string) (start_time0 end_time0 : datetime)
  (description0 location0 : string) (attendees0 : option (list string))
  (reminder_minutes0 : Z) (is_all_day0 : bool) (recurrence0 : string)
  : string * state :=
  let event_id := _generate_event_id uuid4 in
  let event :=
    new_event now event_id title0 description0 start_time0 end_time0
      location0
      (* attendees or [] *)
      (Some (match attendees0 with
             | Some (a :: l) => a :: l
             | _ => []
             end))
      reminder_minutes0 is_all_day0 recurrence0 None in
  let st := mkState (events st ++ [event]) (disk st) (log st) in
  let st := _save_events io st in
  let st := add_log (LogCreated title0 event_id) st in
  (event_id, st).

Fixpoint find_event (event_id : string) (l : list CalendarEvent)
  : option CalendarEvent :=
  match l with
  | [] => None
  | event :: l' =>
      if String.eqb (id event) event_id then Some event
      else find_event event_id l'
  end.

Definition get_event (st : state) (event_id : string)
  : option CalendarEvent :=
  find_event event_id (events st).

(** A keyword argument of [update_event]: one of the dataclass fields with
    a value of its type, or another name.  The record shows the fields of
    an event and nothing else, so [kw_other] stands for a name the event
    has no attribute for (see [may_have_attribute]). *)
Inductive kwarg : Type :=
| kw_id (v : string)
| kw_title (v : string)
| kw_description (v : string)
| kw_start_time (v : datetime)
| kw_end_time (v : datetime)
| kw_location (v : string)
| kw_attendees (v : list string)
| kw_reminder_minutes (v : Z)
| kw_is_all_day (v : bool)
| kw_recurrence (v : string)
| kw_created_at (v : datetime)
| kw_other (key : string).

(** The names for which [hasattr(event, key)] holds or may hold: the
    fields, the methods [to_dict] and [from_dict], and the names that
    start with an underscore ([__post_init__], what [dataclass] generates
    and what [object] provides, such as [__dict__] and [__class__]).  No
    other name is an attribute of a [CalendarEvent]. *)
Definition may_have_attribute (key : string) : bool :=
  is_field key || String.eqb key "to_dict" || String.eqb key "from_dict"
  || prefix "_" key.

(** A keyword argument this model covers: a field with a value of its
    type, or a name without attribute.  For a name that has an attribute
    which is no field, Python's [setattr] changes the object outside its
    fields (a shadowed [to_dict] makes every later save fail) or raises;
    the record cannot show that.  [self] and [event_id] are parameters of
    [update_event] and never reach [kwargs]. *)
Definition plain_kwarg (kw : kwarg) : bool :=
  match kw with
  | kw_other key =>
      negb (may_have_attribute key)
      && negb (String.eqb key "self") && negb (String.eqb key "event_id")
  | _ => true
  end.

(** [if hasattr(event, key): setattr(event, key, value)], for the keyword
    arguments of [plain_kwarg]: a name without attribute is skipped. *)
Definition setattr (event : CalendarEvent) (kw : kwarg) : CalendarEvent :=
  let '(mkEvent i t d st en loc att rem allday rec cr) := event in
  match kw with
  | kw_id v => mkEvent v t d st en loc att rem allday rec cr
  | kw_title v => mkEvent i v d st en loc att rem allday rec cr
  | kw_description v => mkEvent i t v st en loc att rem allday rec cr
  | kw_start_time v => mkEvent i t d v en loc att rem allday rec cr
  | kw_end_time v => mkEvent i t d st v loc att rem allday rec cr
  | kw_location v => mkEvent i t d st en v att rem allday rec cr
  | kw_attendees v => mkEvent i t d st en loc v rem allday rec cr
  | kw_reminder_minutes v => mkEvent i t d st en loc att v allday rec cr
  | kw_is_all_day v => mkEvent i t d st en loc att rem v rec cr
  | kw_recurrence v => mkEvent i t d st en loc att rem allday v cr
  | kw_created_at v => mkEvent i t d st en loc att rem allday rec v
  | kw_other _ => event
  end.

(** The object [get_event] returned lives in [self.events]: the loop of
    [setattr] changes the first event of that id in place. *)
Fixpoint update_first (event_id : string) (kwargs : list kwarg)
  (l : list CalendarEvent) : list CalendarEvent :=
  match l with
  | [] => []
  | event :: l' =>
      if String.eqb (id event) event_id
      then fold_left setattr kwargs event :: l'
      else event :: update_first event_id kwargs l'
  end.

Definition update_event (io : write_outcome) (st : state)
  (event_id : string) (kwargs : list kwarg) : bool * state :=
  match get_event st event_id with
  | None => (false, st)
  | Some _ =>
      let st :=
        mkState (update_first event_id kwargs (events st)) (disk st) (log st) in
      let st := _save_events io st in
      let st := add_log (LogUpdated event_id) st in
      (true, st)
  end.

(** [self.events.pop(i)] at the first index whose event has the id. *)
Fixpoint pop_first (event_id : string) (l : list CalendarEvent)
  : option (CalendarEvent * list CalendarEvent) :=
  match l with
  | [] => None
  | event :: l' =>
      if String.eqb (id event) event_id then Some (event, l')
      else
        match pop_first event_id l' with
        | Some (deleted, rest) => Some (deleted, event :: rest)
        | None => None
        end
  end.

Definition delete_event (io : write_outcome) (st : state)
  (event_id : string) : bool * state :=
  match pop_first event_id (events st) with
  | Some (deleted_event, rest) =>
      let st := mkState rest (disk st) (log st) in
      let st := _save_events io st in
      let st := add_log (LogDeleted (title deleted_event) event_id) st in
      (true, st)
  | None => (false, st)
  end.

(** *** Queries *)

(** [l.sort(key=lambda e: e.start_time)]: the stable sort, written as an
    insertion sort that only uses [<] on the keys. *)
Fixpoint insert_by_start (x : CalendarEvent) (l : list CalendarEvent)
  : list CalendarEvent :=
  match l with
  | [] => [x]
  | y :: l' =>
      if lt (start_time y) (start_time x) then y :: insert_by_start x l'
      else x :: y :: l'
  end.

Definition sort_by_start (l : list CalendarEvent) : list CalendarEvent :=
  fold_right insert_by_start [] l.

Definition get_events_for_date (evs : list CalendarEvent) (target_date : date)
  : list CalendarEvent :=
  let events :=
    filter (fun event => date_eqb (date_of (start_time event)) target_date)
           evs in
  sort_by_start events.

Definition get_events_for_month (evs : list CalendarEvent) (year0 month0 : Z)
  : list CalendarEvent :=
  let events :=
    filter (fun event =>
              (year (date_of (start_time event)) =? year0)
              && (month (date_of (start_time event)) =? month0))
           evs in
  sort_by_start events.

(** [for event in self.events: ...] where the body may raise and appends
    to a list when [keep] holds. *)
Fixpoint filter_result {A : Type} (keep : A -> result bool) (l : list A)
  : result (list A) :=
  match l with
  | [] => Ok []
  | x :: l' =>
      b <- keep x ;;
      rest <- filter_result keep l' ;;
      Ok (if b then x :: rest else rest)
  end.

Definition reminder_due (now : datetime) (event : CalendarEvent)
  : result bool :=
  td <- timedelta_minutes (reminder_minutes event) ;;
  reminder_time <- datetime_sub_delta (start_time event) td ;;
  (* reminder_time <= now <= reminder_time + timedelta(minutes=1) *)
  if le reminder_time now then
    one <- timedelta_minutes 1 ;;
    upper <- datetime_add reminder_time one ;;
    Ok (le now upper)
  else Ok false.

Definition get_events_needing_reminders (now : datetime)
  (evs : list CalendarEvent) : result (list CalendarEvent) :=
  filter_result (reminder_due now) evs.

Definition search_events (evs : list CalendarEvent) (query : string)
  : list CalendarEvent :=
  let query := lower query in
  let matching_events :=
    filter (fun event =>
              contains query (lower (title event))
              || contains query (lower (description event))
              || contains query (lower (location event)))
           evs in
  sort_by_start matching_events.

(** A free slot: the dictionary [{'start': ..., 'end': ...}]. *)
Record slot : Type := mkSlot { slot_start : datetime; slot_end : datetime }.

(** [datetime.min.time().replace(hour=h)] *)
Definition at_hour (h : Z) : time := mktime h 0 0 0.

(** One round of the loop over the day's events: the list of slots and
    [current_time] before and after. *)
Definition free_slot_step (duration_minutes : Z)
  (acc : list slot * datetime) (event : CalendarEvent)
  : result (list slot * datetime) :=
  let '(free_slots, current_time) := acc in
  free_slots <-
    (if gt (start_time event) current_time then
       td <- datetime_sub (start_time event) current_time ;;
       let slot_duration := seconds td / 60 in
       if duration_minutes <=? slot_duration
       then Ok (free_slots ++ [mkSlot current_time (start_time event)])
       else Ok free_slots
     else Ok free_slots) ;;
  Ok (free_slots, max current_time (end_time event)).

Fixpoint free_slot_loop (duration_minutes : Z) (acc : list slot * datetime)
  (events0 : list CalendarEvent) : result (list slot * datetime) :=
  match events0 with
  | [] => Ok acc
  | event :: rest =>
      acc <- free_slot_step duration_minutes acc event ;;
      free_slot_loop duration_minutes acc rest
  end.

Definition get_free_time_slots (evs : list CalendarEvent) (target_date : date)
  (duration_minutes : Z) : result (list slot) :=
  let events0 := get_events_for_date evs target_date in
  let work_start := combine target_date (at_hour 9) in
  let work_end := combine target_date (at_hour 18) in
  let events0 := sort_by_start events0 in
  acc <- free_slot_loop duration_minutes ([], work_start) events0 ;;
  let '(free_slots, current_time) := acc in
  if lt current_time work_end then
    td <- datetime_sub work_end current_time ;;
    let slot_duration := seconds td / 60 in
    if duration_minutes <=? slot_duration
    then Ok (free_slots ++ [mkSlot current_time work_end])
    else Ok free_slots
  else Ok free_slots.

(** [exclude_event_id] is [None] or a string; [None] and the empty string
    are both false in the test [if exclude_event_id and ...]. *)
Definition get_event_conflicts (evs : list CalendarEvent)
  (start_time0 end_time0 : datetime) (exclude_event_id : option string)
  : list CalendarEvent :=
  filter (fun event =>
            let excluded :=
              match exclude_event_id with
              | Some x => truthy x && String.eqb (id event) x
              | None => false
              end in
            if excluded then false
            else lt start_time0 (end_time event)
                 && gt end_time0 (start_time event))
         evs.

(** *** The month grid *)

Record cell : Type := mkCell {
  cell_day : Z;
  cell_date : date;
  is_current_month : bool;
  is_today : bool;
  cell_events : list CalendarEvent;
  has_events : bool
}.

Record matrix : Type := mkMatrix {
  calendar_matrix : list (list cell);
  matrix_year : Z;
  matrix_month : Z;
  month_name : string;
  events_count : nat;
  total_days_with_events : nat
}.

(** [calendar.month_name] in the default (English) locale. *)
Definition MONTH_NAMES : list string :=
  [ ""; "January"; "February"; "March"; "April"; "May"; "June"; "July";
    "August"; "September"; "October"; "November"; "December" ].

(** The dictionary [events_by_date]: keys in insertion order. *)
Definition by_date : Type := list (date * list CalendarEvent).

Fixpoint by_date_get (k : date) (d : by_date) : option (list CalendarEvent) :=
  match d with
  | [] => None
  | (k', v) :: d' => if date_eqb k' k then Some v else by_date_get k d'
  end.

(** [if k not in d: d[k] = []] then [d[k].append(event)] *)
Fixpoint by_date_append (k : date) (event : CalendarEvent) (d : by_date)
  : by_date :=
  match d with
  | [] => [(k, [event])]
  | (k', v) :: d' =>
      if date_eqb k' k then (k', v ++ [event]) :: d'
      else (k', v) :: by_date_append k event d'
  end.

Definition group_by_date (all_events : list CalendarEvent) : by_date :=
  fold_left
    (fun d event => by_date_append (date_of (start_time event)) event d)
    all_events [].

Definition make_cell (year0 month0 : Z) (today : date)
  (events_by_date : by_date) (current_date : date) : cell :=
  let is_current_month0 :=
    (month current_date =? month0) && (year current_date =? year0) in
  mkCell (day current_date) current_date is_current_month0
    (date_eqb current_date today)
    (match by_date_get current_date events_by_date with
     | Some l => l
     | None => []
     end)
    (match by_date_get current_date events_by_date with
     | Some _ => true
     | None => false
     end).

(** [for day_num in range(7)]: the cells of one week and the date after
    it. *)
Fixpoint week_loop (year0 month0 : Z) (today : date)
  (events_by_date : by_date) (day_nums : list nat) (week_data : list cell)
  (current_date : date) : result (list cell * date) :=
  match day_nums with
  | [] => Ok (week_data, current_date)
  | _ :: rest =>
      let week_data :=
        week_data
        ++ [make_cell year0 month0 today events_by_date current_date] in
      one <- timedelta_days 1 ;;
      current_date <- date_add current_date one ;;
      week_loop year0 month0 today events_by_date rest week_data current_date
  end.

(** [for week_num in range(6)] *)
Fixpoint month_loop (year0 month0 : Z) (today : date)
  (events_by_date : by_date) (week_nums : list nat)
  (calendar_data : list (list cell)) (current_date : date)
  : result (list (list cell) * date) :=
  match week_nums with
  | [] => Ok (calendar_data, current_date)
  | _ :: rest =>
      r <- week_loop year0 month0 today events_by_date (seq 0 7) []
             current_date ;;
      let '(week_data, current_date) := r in
      month_loop year0 month0 today events_by_date rest
        (calendar_data ++ [week_data]) current_date
  end.

(** [now] is the first reading of the clock (for the defaults of [year]
    and [month]), [today] the date of the second one. *)
Definition get_calendar_matrix (now : datetime) (today : date)
  (evs : list CalendarEvent) (year0 month0 : option Z) : result matrix :=
  let year0 :=
    match year0 with None => year (date_of now) | Some y => y end in
  let month0 :=
    match month0 with None => month (date_of now) | Some m => m end in
  first_day <- new_date year0 month0 1 ;;
  one <- timedelta_days 1 ;;
  last_day <-
    (if month0 =? 12 then
       d <- new_date (year0 + 1) 1 1 ;; date_sub d one
     else
       d <- new_date year0 (month0 + 1) 1 ;; date_sub d one) ;;
  let first_day_weekday := (weekday first_day + 1) mod 7 in
  back <- timedelta_days first_day_weekday ;;
  start_date <- date_sub first_day back ;;
  let current_events := get_events_for_month evs year0 month0 in
  let all_events := current_events in
  let all_events :=
    if negb (month start_date =? month0) || negb (year start_date =? year0)
    then
      all_events
      ++ get_events_for_month evs (year start_date) (month start_date)
    else all_events in
  let events_by_date := group_by_date all_events in
  r <- month_loop year0 month0 today events_by_date (seq 0 6) [] start_date ;;
  let '(calendar_data, _) := r in
  Ok (mkMatrix calendar_data year0 month0
        (nth (Z.to_nat month0) MONTH_NAMES "")
        (List.length current_events)
        (List.length
           (filter (fun kv => (year (fst kv) =? year0)
                              && (month (fst kv) =? month0))
                   events_by_date))).

(** *** The other queries *)

(** [today] is the value of [date.today()], read when [start_date] is
    [None]. *)
Definition get_events_for_week (today : date) (evs : list CalendarEvent)
  (start_date : option date) : result (list CalendarEvent) :=
  start_date <-
    (match start_date with
     | None =>
         back <- timedelta_days (weekday today) ;;
         date_sub today back
     | Some d => Ok d
     end) ;;
  six <- timedelta_days 6 ;;
  end_date <- date_add start_date six ;;
  let events :=
    filter (fun event =>
              let event_date := date_of (start_time event) in
              date_le start_date event_date && date_le event_date end_date)
           evs in
  Ok (sort_by_start events).

Definition get_upcoming_events (now : datetime) (evs : list CalendarEvent)
  (days0 : Z) : result (list CalendarEvent) :=
  td <- timedelta_days days0 ;;
  future_date <- datetime_add now td ;;
  let events :=
    filter (fun event =>
              le now (start_time event) && le (start_time event) future_date)
           evs in
  Ok (sort_by_start events).

(** An entry of [events_by_date] in the summary. *)
Record summary_entry : Type := mkEntry {
  entry_title : string;
  entry_start_time : string;
  entry_end_time : string;
  entry_location : string
}.

(** A dictionary from ISO dates to lists of entries, in insertion order. *)
Definition by_day : Type := list (string * list summary_entry).

Fixpoint by_day_append (k : string) (x : summary_entry) (d : by_day)
  : by_day :=
  match d with
  | [] => [(k, [x])]
  | (k', v) :: d' =>
      if String.eqb k' k then (k', v ++ [x]) :: d'
      else (k', v) :: by_day_append k x d'
  end.

Record summary : Type := mkSummary {
  total_events : nat;
  upcoming_events : nat;
  events_by_date : by_day;
  next_event : option string
}.

Definition summary_entry_of (event : CalendarEvent) : summary_entry :=
  mkEntry (title event) (strftime_HM (start_time event))
          (strftime_HM (end_time event)) (location event).

Definition get_calendar_summary (now : datetime) (evs : list CalendarEvent)
  (days0 : Z) : result summary :=
  upcoming <- get_upcoming_events now evs days0 ;;
  let events_by_date0 :=
    fold_left
      (fun d event =>
         by_day_append (date_isoformat (date_of (start_time event)))
                       (summary_entry_of event) d)
      upcoming [] in
  Ok (mkSummary (List.length evs) (List.length upcoming) events_by_date0
        (match upcoming with
         | first :: _ => Some (title first)
         | [] => None
         end)).

Record status : Type := mkStatus {
  status_total_events : nat;
  status_today_events : nat;
  status_upcoming_events : nat;
  status_next_event : option string;
  status_data_file : string
}.

(** [now] is the clock read by [get_status] itself, [now2] the one read
    inside [get_upcoming_events]; [data_file] is [self.data_file]. *)
Definition get_status (data_file : string) (now now2 : datetime)
  (evs : list CalendarEvent) : result status :=
  let today_events := get_events_for_date evs (date_of now) in
  upcoming <- get_upcoming_events now2 evs 7 ;;
  Ok (mkStatus (List.length evs) (List.length today_events)
        (List.length upcoming)
        (match upcoming with
         | first :: _ => Some (title first)
         | [] => None
         end)
        data_file).

End Calendar.

(** ** Definitions used to state and prove the properties *)

Module Timeline.
Import PyDatetime.

(** The check that [ord2ymd] returns the fields of a date whose ordinal is
    the argument. *)
Definition ord_ok (n : Z) : bool :=
  let '(y, m, d) := ord2ymd n in
  check_date_fields y m d && (ymd2ord y m d =? n).

Fixpoint all_from (f : Z -> bool) (lo : Z) (k : nat) : bool :=
  match k with
  | O => true
  | S k' => f lo && all_from f (lo + 1) k'
  end.

(** Seconds since midnight and microseconds since the start of day 0. *)
Definition time_secs (t : time) : Z :=
  hour t * 3600 + minute t * 60 + second t.

Definition to_us (dt : datetime) : Z :=
  (toordinal (date_of dt) * 86400 + time_secs (time_of dt)) * 1000000
  + microsecond (time_of dt).

Definition delta_us (td : timedelta) : Z :=
  (days td * 86400 + seconds td) * 1000000 + microseconds td.

(** The range of [to_us] over valid datetimes. *)
Definition MIN_US : Z := 86400 * 1000000.
Definition MAX_US : Z := (MAXORDINAL + 1) * 86400 * 1000000 - 1.

(** The datetime at a point of the time line. *)
Definition of_us (T : Z) : datetime :=
  let s := T / 1000000 mod 86400 in
  combine (fromordinal (T / 86400000000))
          (mktime (s / 3600) (s mod 3600 / 60) (s mod 3600 mod 60)
                  (T mod 1000000)).

End Timeline.

Module Fields.
Import PyDatetime Calendar Timeline.

(** The attributes of a [CalendarEvent]. *)
Inductive field : Type :=
| f_id | f_title | f_description | f_start_time | f_end_time | f_location
| f_attendees | f_reminder_minutes | f_is_all_day | f_recurrence
| f_created_at.

(** The value an event holds in a field ([getattr]). *)
Definition getattr (e : CalendarEvent) (f : field) : pyval :=
  match f with
  | f_id => PStr (id e)
  | f_title => PStr (title e)
  | f_description => PStr (description e)
  | f_start_time => PDatetime (start_time e)
  | f_end_time => PDatetime (end_time e)
  | f_location => PStr (location e)
  | f_attendees => PList (attendees e)
  | f_reminder_minutes => PInt (reminder_minutes e)
  | f_is_all_day => PBool (is_all_day e)
  | f_recurrence => PStr (recurrence e)
  | f_created_at => PDatetime (created_at e)
  end.

(** The field a keyword argument names, and the value it carries. *)
Definition kw_field (kw : kwarg) : option field :=
  match kw with
  | kw_id _ => Some f_id
  | kw_title _ => Some f_title
  | kw_description _ => Some f_description
  | kw_start_time _ => Some f_start_time
  | kw_end_time _ => Some f_end_time
  | kw_location _ => Some f_location
  | kw_attendees _ => Some f_attendees
  | kw_reminder_minutes _ => Some f_reminder_minutes
  | kw_is_all_day _ => Some f_is_all_day
  | kw_recurrence _ => Some f_recurrence
  | kw_created_at _ => Some f_created_at
  | kw_other _ => None
  end.

Definition kw_value (kw : kwarg) : pyval :=
  match kw with
  | kw_id v | kw_title v | kw_description v | kw_location v
  | kw_recurrence v => PStr v
  | kw_start_time v | kw_end_time v | kw_created_at v => PDatetime v
  | kw_attendees v => PList v
  | kw_reminder_minutes v => PInt v
  | kw_is_all_day v => PBool v
  | kw_other _ => PNone
  end.

(** Sample data for the examples. *)
Definition at_ (y m d hh mm : Z) : datetime :=
  combine (mkdate y m d) (mktime hh mm 0 0).

Definition empty_state : state := mkState [] NoFile [].

Definition sample_event (i : string) (s e : datetime) : CalendarEvent :=
  mkEvent i "Meeting" "" s e "" [] 15 false "none" (at_ 2024 3 1 8 0).

Definition witness_state : state :=
  mkState [sample_event "a1" (at_ 2024 3 4 10 0) (at_ 2024 3 4 11 0)]
          NoFile [].

(** All ids of a collection are distinct. *)
Definition unique_ids (l : list CalendarEvent) : Prop := NoDup (map id l).

(** The keyword of an argument, as written by the caller. *)
Definition kw_key (kw : kwarg) : string :=
  match kw with
  | kw_id _ => "id"
  | kw_title _ => "title"
  | kw_description _ => "description"
  | kw_start_time _ => "start_time"
  | kw_end_time _ => "end_time"
  | kw_location _ => "location"
  | kw_attendees _ => "attendees"
  | kw_reminder_minutes _ => "reminder_minutes"
  | kw_is_all_day _ => "is_all_day"
  | kw_recurrence _ => "recurrence"
  | kw_created_at _ => "created_at"
  | kw_other key => key
  end.

(** The keyword arguments of a call are all of the kinds the model
    covers: fields with values of their types, and names the event has no
    attribute for. *)
Definition plain_kwargs (kwargs : list kwarg) : Prop :=
  forallb plain_kwarg kwargs = true.

(** [attendees or []] *)
Definition or_empty (attendees0 : option (list string)) : list string :=
  match attendees0 with Some l => l | None => [] end.

(** An event is excluded from a conflict check by a non-empty
    [exclude_event_id] equal to its id. *)
Definition excluded (exclude_event_id : option string) (e : CalendarEvent)
  : Prop :=
  exists x, exclude_event_id = Some x /\ x <> "" /\ id e = x.

(** Ascending order of start times. *)
Definition start_le (a b : CalendarEvent) : Prop :=
  le (start_time a) (start_time b) = true.

(** The reminder time of an event on the time line, the one-minute window
    that ends at [now], and the condition that the reminder time and the
    minute after it are datetimes (years 1 to 9999). *)
Definition reminder_us (e : CalendarEvent) : Z :=
  to_us (start_time e) - reminder_minutes e * 60000000.

Definition in_window (now : datetime) (e : CalendarEvent) : Prop :=
  to_us now - 60000000 <= reminder_us e <= to_us now.

Definition in_windowb (now : datetime) (e : CalendarEvent) : bool :=
  (to_us now - 60000000 <=? reminder_us e) && (reminder_us e <=? to_us now).

Definition representable (e : CalendarEvent) : Prop :=
  MIN_US <= reminder_us e /\ reminder_us e + 60000000 <= MAX_US.

(** The free-slot walk in the words of the specification, on the time
    line.  A gap from [a] to [b] exists when [a] is before [b]; it is long
    enough when it lasts at least [min_duration_minutes] minutes. *)
Definition gap_long_enough (min_duration_minutes : Z) (a b : datetime)
  : bool :=
  (to_us a <? to_us b)
  && (min_duration_minutes * 60000000 <=? to_us b - to_us a).

(** [max(cursor, event.end)] on the time line. *)
Definition later (cursor e_end : datetime) : datetime :=
  if to_us cursor <? to_us e_end then e_end else cursor.

(** For each event: emit the gap before it if long enough, then advance
    the cursor; returns the emitted slots and the final cursor. *)
Fixpoint walk (min_duration_minutes : Z) (cursor : datetime)
  (day_events : list CalendarEvent) : list slot * datetime :=
  match day_events with
  | [] => ([], cursor)
  | e :: rest =>
      let emitted :=
        if gap_long_enough min_duration_minutes cursor (start_time e)
        then [mkSlot cursor (start_time e)] else [] in
      let '(slots, final) :=
        walk min_duration_minutes (later cursor (end_time e)) rest in
      (emitted ++ slots, final)
  end.

(** The slots of the walk over a list of events: what the walk emits,
    then the gap from the last cursor to 18:00 when long enough. *)
Definition slots_of_walk (day_events : list CalendarEvent) (target_date : date)
  (min_duration_minutes : Z) : list slot :=
  let work_start := combine target_date (mktime 9 0 0 0) in
  let work_end := combine target_date (mktime 18 0 0 0) in
  let '(slots, cursor) := walk min_duration_minutes work_start day_events in
  slots
  ++ (if gap_long_enough min_duration_minutes cursor work_end
      then [mkSlot cursor work_end] else []).

(** Ascending order of start times on the time line. *)
Definition starts_ascending (l : list CalendarEvent) : Prop :=
  StronglySorted
    (fun a b => to_us (start_time a) <= to_us (start_time b)) l.

Definition free_slots_spec (evs : list CalendarEvent) (target_date : date)
  (min_duration_minutes : Z) : list slot :=
  let work_start := combine target_date (mktime 9 0 0 0) in
  let work_end := combine target_date (mktime 18 0 0 0) in
  let day_events :=
    sort_by_start
      (filter (fun e => date_eqb (date_of (start_time e)) target_date) evs) in
  let '(slots, cursor) := walk min_duration_minutes work_start day_events in
  slots
  ++ (if gap_long_enough min_duration_minutes cursor work_end
      then [mkSlot cursor work_end] else []).

(** The events of a collection are objects: their start and end times
    passed the checks of the [datetime] constructor. *)
Definition valid_events (evs : list CalendarEvent) : Prop :=
  forall e, In e evs ->
    valid_datetime (start_time e) /\ valid_datetime (end_time e).

(** The start of a day on the time line. *)
Definition day_start (d : date) : Z := toordinal d * 86400000000.

(** The three timestamps of an event are datetime objects. *)
Definition wf_event (e : CalendarEvent) : Prop :=
  valid_datetime (start_time e) /\ valid_datetime (end_time e)
  /\ valid_datetime (created_at e).

(** The cells of [n] consecutive days from ordinal [o], and [w] weeks of
    such cells. *)
Definition cells_from (year0 month0 : Z) (today : date)
  (events_by_date : by_date) (o : Z) (n : nat) : list cell :=
  map (fun k => make_cell year0 month0 today events_by_date
                  (fromordinal (o + Z.of_nat k)))
      (seq 0 n).

Fixpoint weeks_from (year0 month0 : Z) (today : date)
  (events_by_date : by_date) (o : Z) (w : nat) : list (list cell) :=
  match w with
  | O => []
  | S w' =>
      cells_from year0 month0 today events_by_date o 7
      :: weeks_from year0 month0 today events_by_date (o + 7) w'
  end.

(** Every list of the dictionary holds events of the collection that
    start on the date of its key. *)
Definition grouped (evs : list CalendarEvent) (d : by_date) : Prop :=
  forall k v, In (k, v) d ->
    forall e, In e v -> In e evs /\ date_of (start_time e) = k.

(** The value of an optional argument. *)
Definition or_default (o : option Z) (dflt : Z) : Z :=
  match o with None => dflt | Some v => v end.

End Fields.

Module MoreDefs.
Import PyDatetime PyStr PyIso Calendar Timeline Fields.

(** The ordinal of the first day of the week [get_events_for_week] looks
    at: the given start date, or the day [weekday] days before today. *)
Definition week_start (today : date) (start_date : option date) : Z :=
  match start_date with
  | None => toordinal today - weekday today
  | Some d => toordinal d
  end.

(** The end of the look-ahead window of [get_upcoming_events] on the time
    line. *)
Definition horizon_us (now : datetime) (days0 : Z) : Z :=
  to_us now + days0 * 86400000000.

(** [q] occurs in [s]: some text before, [q], some text after. *)
Definition occurs_in (q s : string) : Prop :=
  exists a b, s = (a ++ q ++ b)%string.

(** The test of [search_events] on one event. *)
Definition matches (query : string) (e : CalendarEvent) : Prop :=
  occurs_in (lower query) (lower (title e))
  \/ occurs_in (lower query) (lower (description e))
  \/ occurs_in (lower query) (lower (location e)).

(** The length of a slot in microseconds. *)
Definition slot_us (s : slot) : Z :=
  to_us (slot_end s) - to_us (slot_start s).

(** Two intervals of the time line overlap (the test of
    [get_event_conflicts]). *)
Definition overlaps (s e : datetime) (event : CalendarEvent) : bool :=
  lt s (end_time event) && gt e (start_time event).

(** [get_events_for_month] with its optional arguments: the year and the
    month of [now] stand in for the ones that are not given. *)
Definition get_events_for_month_opt (now : datetime)
  (evs : list CalendarEvent) (year0 month0 : option Z)
  : list CalendarEvent :=
  let year0 :=
    match year0 with None => year (date_of now) | Some y => y end in
  let month0 :=
    match month0 with None => month (date_of now) | Some m => m end in
  get_events_for_month evs year0 month0.

(** The events [get_calendar_matrix] groups by date: those of the month
    asked for, then those of the month of the grid's first day when that
    is another month. *)
Definition grid_events (evs : list CalendarEvent) (year0 month0 : Z)
  (start_date : date) : list CalendarEvent :=
  if negb (month start_date =? month0) || negb (year start_date =? year0)
  then get_events_for_month evs year0 month0
       ++ get_events_for_month evs (year start_date) (month start_date)
  else get_events_for_month evs year0 month0.

(** The ordinal of the first day of a month, and of the first day of its
    grid: the Sunday on or before it. *)
Definition month_first (year0 month0 : Z) : Z :=
  toordinal (mkdate year0 month0 1).

Definition grid_first (year0 month0 : Z) : Z :=
  month_first year0 month0 - (weekday (mkdate year0 month0 1) + 1) mod 7.

(** The events that start on a date, in stored order. *)
Definition on_date (d : date) (l : list CalendarEvent)
  : list CalendarEvent :=
  filter (fun e => date_eqb (date_of (start_time e)) d) l.

(** [d.get(k, [])] on the dictionaries of the grid and of the summary. *)
Definition by_date_get_default (k : date) (d : by_date)
  : list CalendarEvent :=
  match by_date_get k d with Some v => v | None => [] end.

Fixpoint by_day_get (k : string) (d : by_day) : option (list summary_entry) :=
  match d with
  | [] => None
  | (k', v) :: d' => if String.eqb k' k then Some v else by_day_get k d'
  end.

Definition by_day_get_default (k : string) (d : by_day)
  : list summary_entry :=
  match by_day_get k d with Some v => v | None => [] end.

(** The events of a list whose start date prints as [k]. *)
Definition on_day (k : string) (l : list CalendarEvent)
  : list CalendarEvent :=
  filter (fun e => String.eqb (date_isoformat (date_of (start_time e))) k) l.

(** The look-ahead window of [get_upcoming_events] on the time line. *)
Definition in_horizon (now : datetime) (days0 : Z) (e : CalendarEvent)
  : bool :=
  (to_us now <=? to_us (start_time e))
  && (to_us (start_time e) <=? horizon_us now days0).

(** A record of the file that [from_dict] cannot read, whatever else it
    holds: one of the three timestamps is missing or is no string
    ([KeyError], [TypeError] of [fromisoformat]), one of the fields without
    default is missing, or a key is no field ([TypeError] of the
    constructor). *)
Definition unreadable (data : dict) : Prop :=
  (exists k, In k ["start_time"; "end_time"; "created_at"]
             /\ forall s, dict_get k data <> Some (PStr s))
  \/ (exists k, In k ["id"; "title"; "description"]
                /\ dict_get k data = None)
  \/ (exists k v, In (k, v) data /\ is_field k = false).

(** All the text of an event that [search_events] looks at is ASCII. *)
Definition ascii_event (e : CalendarEvent) : bool :=
  is_ascii (title e) && is_ascii (description e) && is_ascii (location e).

End MoreDefs.

(** * Properties *)

(** ** Ordinals *)

Module OrdinalFacts.
Import PyDatetime Timeline.

Ltac zdiv := Z.to_euclidean_division_equations; lia.

Lemma is_leap_period y k : is_leap (y + 400 * k) = is_leap y.
Proof.
  unfold is_leap.
  replace ((y + 400 * k) mod 4) with (y mod 4) by zdiv.
  replace ((y + 400 * k) mod 100) with (y mod 100) by zdiv.
  replace ((y + 400 * k) mod 400) with (y mod 400) by zdiv.
  reflexivity.
Qed.

Lemma days_before_year_period y k :
  days_before_year (y + 400 * k) = days_before_year y + DI400Y * k.
Proof. unfold days_before_year, DI400Y. zdiv. Qed.

Lemma days_before_year_succ y :
  days_before_year (y + 1) = days_before_year y + 365 + b2z (is_leap y).
Proof.
  unfold days_before_year, is_leap, b2z.
  destruct (y mod 4 =? 0) eqn:E4; destruct (y mod 100 =? 0) eqn:E100;
    destruct (y mod 400 =? 0) eqn:E400; simpl;
    rewrite ?Z.eqb_eq, ?Z.eqb_neq in *; zdiv.
Qed.

Lemma days_before_year_mono y1 y2 :
  y1 <= y2 -> days_before_year y1 <= days_before_year y2.
Proof. unfold days_before_year. intros. zdiv. Qed.

Lemma ymd2ord_period y m d k :
  ymd2ord (y + 400 * k) m d = ymd2ord y m d + DI400Y * k.
Proof.
  unfold ymd2ord, days_before_month.
  rewrite is_leap_period, days_before_year_period. ring.
Qed.

Lemma check_date_fields_period y m d k :
  MINYEAR <= y + 400 * k <= MAXYEAR ->
  check_date_fields y m d = true ->
  check_date_fields (y + 400 * k) m d = true.
Proof.
  unfold check_date_fields, days_in_month. rewrite is_leap_period.
  intros Hy H.
  rewrite !andb_true_iff in *. rewrite !Z.leb_le in *.
  intuition lia.
Qed.

Lemma ord2ymd_period n k :
  ord2ymd (n + DI400Y * k) =
  let '(y, m, d) := ord2ymd n in (y + 400 * k, m, d).
Proof.
  unfold ord2ymd.
  replace (n + DI400Y * k - 1) with (n - 1 + k * DI400Y) by ring.
  rewrite Z.div_add, Z.mod_add by (unfold DI400Y; lia).
  cbv zeta.
  set (r := (n - 1) mod DI400Y).
  destruct ((r mod DI100Y mod DI4Y / 365 =? 4) || (r / DI100Y =? 4)).
  - f_equal. f_equal. ring.
  - destruct (_ <? _); f_equal; f_equal; ring.
Qed.

Lemma all_from_spec f k : forall lo,
  all_from f lo k = true ->
  forall n, lo <= n < lo + Z.of_nat k -> f n = true.
Proof.
  induction k as [|k IH]; intros lo H n Hn.
  - simpl in Hn. lia.
  - simpl in H. apply andb_true_iff in H. destruct H as [H0 H1].
    destruct (Z.eq_dec n lo) as [->|Hne]; [exact H0|].
    apply (IH (lo + 1)); [exact H1|]. lia.
Qed.

(** One full cycle of 400 years, checked by evaluation. *)
Lemma ord_ok_cycle : all_from ord_ok 1 (Z.to_nat DI400Y) = true.
Proof. vm_compute. reflexivity. Qed.

Lemma ord_ok_first_cycle n : 1 <= n <= DI400Y -> ord_ok n = true.
Proof.
  intros Hn. apply (all_from_spec ord_ok (Z.to_nat DI400Y) 1 ord_ok_cycle).
  rewrite Z2Nat.id by (unfold DI400Y; lia). lia.
Qed.

Lemma ymd2ord_lower y m d :
  1 <= m <= 12 -> 1 <= d ->
  days_before_year y < ymd2ord y m d.
Proof.
  intros Hm Hd. unfold ymd2ord, days_before_month.
  assert (0 <= getitem DAYS_BEFORE_MONTH m).
  { assert (Hc : m = 1 \/ m = 2 \/ m = 3 \/ m = 4 \/ m = 5 \/ m = 6 \/ m = 7
                 \/ m = 8 \/ m = 9 \/ m = 10 \/ m = 11 \/ m = 12) by lia.
    repeat (destruct Hc as [->|Hc]; [vm_compute; discriminate|]).
    subst. vm_compute. discriminate. }
  assert (0 <= b2z ((2 <? m) && is_leap y)) by (destruct (_ && _); simpl; lia).
  lia.
Qed.

Lemma check_date_fields_inv y m d :
  check_date_fields y m d = true ->
  MINYEAR <= y <= MAXYEAR /\ 1 <= m <= 12 /\ 1 <= d <= days_in_month y m.
Proof.
  unfold check_date_fields. rewrite !andb_true_iff, !Z.leb_le. tauto.
Qed.

Lemma check_date_fields_intro y m d :
  MINYEAR <= y <= MAXYEAR -> 1 <= m <= 12 -> 1 <= d <= days_in_month y m ->
  check_date_fields y m d = true.
Proof.
  unfold check_date_fields. rewrite !andb_true_iff, !Z.leb_le. tauto.
Qed.

(** [fromordinal] yields a date, and [toordinal] is its left inverse, on
    the whole range of ordinals. *)
Lemma ord2ymd_ok n :
  1 <= n <= MAXORDINAL -> ord_ok n = true.
Proof.
  intros Hn.
  set (k := (n - 1) / DI400Y).
  set (r := (n - 1) mod DI400Y + 1).
  assert (Hr : 1 <= r <= DI400Y) by (unfold r, DI400Y; zdiv).
  assert (Hnr : n = r + DI400Y * k) by (unfold r, k, DI400Y; zdiv).
  assert (Hk : 0 <= k) by (unfold k, DI400Y; zdiv).
  pose proof (ord_ok_first_cycle r Hr) as Hc.
  unfold ord_ok in *. rewrite Hnr, ord2ymd_period.
  destruct (ord2ymd r) as [[y m] d].
  apply andb_true_iff in Hc. destruct Hc as [Hv He].
  apply Z.eqb_eq in He.
  rewrite ymd2ord_period, He, Z.eqb_refl, andb_true_r.
  apply check_date_fields_period; [|exact Hv].
  apply check_date_fields_inv in Hv. destruct Hv as (Hy & Hm & Hd).
  unfold MINYEAR, MAXYEAR in *. split; [lia|].
  destruct (Z_le_gt_dec (y + 400 * k) 9999) as [|Hbig]; [assumption|exfalso].
  pose proof (ymd2ord_lower (y + 400 * k) m d Hm (proj1 Hd)) as Hlow.
  pose proof (days_before_year_mono 10000 (y + 400 * k) ltac:(lia)) as Hmono.
  rewrite ymd2ord_period, He in Hlow.
  change (days_before_year 10000) with 3652059 in Hmono.
  unfold MAXORDINAL in Hn. lia.
Qed.

Lemma fromordinal_valid n :
  1 <= n <= MAXORDINAL -> valid_date (fromordinal n).
Proof.
  intros Hn. pose proof (ord2ymd_ok n Hn) as H.
  unfold ord_ok, valid_date, fromordinal in *.
  destruct (ord2ymd n) as [[y m] d]. simpl.
  apply andb_true_iff in H. tauto.
Qed.

Lemma toordinal_fromordinal n :
  1 <= n <= MAXORDINAL -> toordinal (fromordinal n) = n.
Proof.
  intros Hn. pose proof (ord2ymd_ok n Hn) as H.
  unfold ord_ok, toordinal, fromordinal in *.
  destruct (ord2ymd n) as [[y m] d]. simpl.
  apply andb_true_iff in H. destruct H as [_ H]. now apply Z.eqb_eq in H.
Qed.

Ltac month_cases m :=
  let Hc := fresh "Hc" in
  assert (Hc : m = 1 \/ m = 2 \/ m = 3 \/ m = 4 \/ m = 5 \/ m = 6 \/ m = 7
               \/ m = 8 \/ m = 9 \/ m = 10 \/ m = 11 \/ m = 12) by lia;
  repeat (destruct Hc as [Hc|Hc]; [subst m|]); [..|subst m].

Ltac eval_tables :=
  repeat match goal with
    | |- context [getitem ?t ?m] =>
        let v := eval vm_compute in (getitem t m) in
        change (getitem t m) with v
    end.

Lemma month_span y m :
  1 <= m <= 12 ->
  0 <= days_before_month y m /\
  28 <= days_in_month y m /\
  days_before_month y m + days_in_month y m <= 365 + b2z (is_leap y) /\
  (m < 12 ->
   days_before_month y m + days_in_month y m = days_before_month y (m + 1)).
Proof.
  intros Hm. unfold days_before_month, days_in_month.
  month_cases m; eval_tables; destruct (is_leap y); cbn; repeat split; lia.
Qed.

Lemma days_before_month_mono y m1 m2 :
  1 <= m1 -> m1 < m2 -> m2 <= 12 ->
  days_before_month y m1 + days_in_month y m1 <= days_before_month y m2.
Proof.
  intros H1 H12 H2.
  replace m2 with (m1 + 1 + Z.of_nat (Z.to_nat (m2 - m1 - 1))) by lia.
  assert (Hb : m1 + 1 + Z.of_nat (Z.to_nat (m2 - m1 - 1)) <= 12) by lia.
  revert Hb. generalize (Z.to_nat (m2 - m1 - 1)) as k.
  induction k as [|k IH]; intros Hb.
  - replace (m1 + 1 + Z.of_nat 0) with (m1 + 1) by lia.
    destruct (month_span y m1 ltac:(lia)) as (_ & _ & _ & H). lia.
  - specialize (IH ltac:(lia)).
    destruct (month_span y (m1 + 1 + Z.of_nat k) ltac:(lia)) as (_ & ? & _ & H).
    replace (m1 + 1 + Z.of_nat (S k)) with (m1 + 1 + Z.of_nat k + 1) by lia.
    rewrite <- H by lia. lia.
Qed.

Lemma toordinal_range d :
  valid_date d -> 1 <= toordinal d <= MAXORDINAL.
Proof.
  unfold valid_date, toordinal. intros H.
  apply check_date_fields_inv in H. destruct H as (Hy & Hm & Hd).
  destruct (month_span (year d) (month d) Hm) as (H0 & _ & Hs & _).
  pose proof (days_before_year_mono 1 (year d)
                ltac:(unfold MINYEAR in *; lia)) as Hlo.
  pose proof (days_before_year_mono (year d + 1) 10000
                ltac:(unfold MAXYEAR in *; lia)) as Hhi.
  rewrite days_before_year_succ in Hhi.
  change (days_before_year 1) with 0 in Hlo.
  change (days_before_year 10000) with 3652059 in Hhi.
  unfold ymd2ord, MAXORDINAL. lia.
Qed.

Lemma ymd2ord_lt_year y1 m1 d1 y2 m2 d2 :
  1 <= m1 <= 12 -> d1 <= days_in_month y1 m1 ->
  1 <= m2 <= 12 -> 1 <= d2 ->
  y1 < y2 -> ymd2ord y1 m1 d1 < ymd2ord y2 m2 d2.
Proof.
  intros Hm1 Hd1 Hm2 Hd2 Hy.
  destruct (month_span y1 m1 Hm1) as (_ & _ & Hs & _).
  destruct (month_span y2 m2 Hm2) as (H0 & _ & _ & _).
  pose proof (days_before_year_mono (y1 + 1) y2 ltac:(lia)) as Hmono.
  rewrite days_before_year_succ in Hmono.
  unfold ymd2ord. lia.
Qed.

Lemma ymd2ord_lt_month y m1 d1 m2 d2 :
  1 <= m1 -> m2 <= 12 -> d1 <= days_in_month y m1 -> 1 <= d2 ->
  m1 < m2 -> ymd2ord y m1 d1 < ymd2ord y m2 d2.
Proof.
  intros Hm1 Hm2 Hd1 Hd2 Hm.
  pose proof (days_before_month_mono y m1 m2 Hm1 Hm Hm2).
  unfold ymd2ord. lia.
Qed.

(** On dates, the order of the field tuples is the order of the
    ordinals. *)
Lemma date_cmp_toordinal a b :
  valid_date a -> valid_date b ->
  date_cmp a b = (toordinal a ?= toordinal b).
Proof.
  unfold valid_date, date_cmp, date_tuple, toordinal. intros Ha Hb.
  apply check_date_fields_inv in Ha. destruct Ha as (Hya & Hma & Hda).
  apply check_date_fields_inv in Hb. destruct Hb as (Hyb & Hmb & Hdb).
  simpl.
  destruct (Z.compare_spec (year a) (year b)) as [Ey|Ly|Ly].
  - destruct (Z.compare_spec (month a) (month b)) as [Em|Lm|Lm].
    + rewrite Ey, Em. unfold ymd2ord.
      destruct (Z.compare_spec (day a) (day b)); symmetry;
        [apply Z.compare_eq_iff|apply Z.compare_lt_iff|apply Z.compare_gt_iff];
        lia.
    + symmetry. apply Z.compare_lt_iff. rewrite Ey.
      apply ymd2ord_lt_month; try lia. rewrite <- Ey. lia.
    + symmetry. apply Z.compare_gt_iff. rewrite Ey.
      apply ymd2ord_lt_month; lia.
  - symmetry. apply Z.compare_lt_iff. apply ymd2ord_lt_year; lia.
  - symmetry. apply Z.compare_gt_iff. apply ymd2ord_lt_year; lia.
Qed.

Lemma tuple3_eq (a b : date) :
  date_cmp a b = Eq -> a = b.
Proof.
  destruct a as [ya ma da], b as [yb mb db].
  unfold date_cmp, date_tuple. simpl.
  destruct (Z.compare_spec ya yb); try discriminate.
  destruct (Z.compare_spec ma mb); try discriminate.
  destruct (Z.compare_spec da db); try discriminate.
  intros _. congruence.
Qed.

Lemma toordinal_inj a b :
  valid_date a -> valid_date b -> toordinal a = toordinal b -> a = b.
Proof.
  intros Ha Hb E. apply tuple3_eq.
  rewrite (date_cmp_toordinal a b Ha Hb). now apply Z.compare_eq_iff.
Qed.

Lemma fromordinal_toordinal d :
  valid_date d -> fromordinal (toordinal d) = d.
Proof.
  intros Hd. pose proof (toordinal_range d Hd) as Hr.
  apply toordinal_inj; [now apply fromordinal_valid|exact Hd|].
  now apply toordinal_fromordinal.
Qed.

End OrdinalFacts.

Module OrderFacts.
Import PyDatetime Timeline OrdinalFacts.

(** ** Comparison of field tuples *)

Lemma tuple_cmp_refl x : tuple_cmp x x = Eq.
Proof. induction x as [|a x IH]; simpl; [|rewrite Z.compare_refl]; auto. Qed.

Lemma tuple_cmp_antisym x : forall y,
  tuple_cmp y x = CompOpp (tuple_cmp x y).
Proof.
  induction x as [|a x IH]; intros [|b y]; simpl; auto.
  rewrite (Z.compare_antisym a b).
  destruct (a ?= b); simpl; auto.
Qed.

Lemma tuple_cmp_eq x : forall y, tuple_cmp x y = Eq -> x = y.
Proof.
  induction x as [|a x IH]; intros [|b y]; simpl; try discriminate; auto.
  destruct (Z.compare_spec a b); try discriminate.
  intros Hxy. f_equal; auto.
Qed.

Lemma tuple_cmp_lt_trans x : forall y z,
  tuple_cmp x y = Lt -> tuple_cmp y z = Lt -> tuple_cmp x z = Lt.
Proof.
  induction x as [|a x IH]; intros [|b y] [|c z]; simpl;
    try discriminate; auto.
  destruct (Z.compare_spec a b) as [Eab|Lab|Gab]; try discriminate;
    destruct (Z.compare_spec b c) as [Ebc|Lbc|Gbc]; try discriminate;
    intros H1 H2.
  - subst. rewrite Z.compare_refl. eauto.
  - subst. now apply Z.compare_lt_iff in Lbc as ->.
  - subst. now apply Z.compare_lt_iff in Lab as ->.
  - assert (Lac : a < c) by lia. now apply Z.compare_lt_iff in Lac as ->.
Qed.

Lemma tuple_cmp_app x1 : forall x2 y1 y2,
  List.length x1 = List.length x2 ->
  tuple_cmp (x1 ++ y1) (x2 ++ y2) =
  match tuple_cmp x1 x2 with Eq => tuple_cmp y1 y2 | c => c end.
Proof.
  induction x1 as [|a x1 IH]; intros [|b x2] y1 y2 Hl; simpl in *;
    try discriminate; auto.
  destruct (a ?= b); auto.
Qed.

(** [>] is [<] with the arguments swapped, and [<=] is "not [>]". *)
Lemma gt_lt a b : gt a b = lt b a.
Proof.
  unfold gt, lt, datetime_cmp.
  rewrite (tuple_cmp_antisym (datetime_tuple a) (datetime_tuple b)).
  destruct (tuple_cmp _ _); reflexivity.
Qed.

Lemma le_not_lt a b : le a b = negb (lt b a).
Proof. unfold le. fold (gt a b). now rewrite gt_lt. Qed.

Lemma lt_irrefl a : lt a a = false.
Proof. unfold lt, datetime_cmp. now rewrite tuple_cmp_refl. Qed.

Lemma le_refl a : le a a = true.
Proof. rewrite le_not_lt, lt_irrefl. reflexivity. Qed.

Lemma lt_trans a b c : lt a b = true -> lt b c = true -> lt a c = true.
Proof.
  unfold lt, datetime_cmp. intros H1 H2.
  destruct (tuple_cmp (datetime_tuple a) (datetime_tuple b)) eqn:E1;
    try discriminate.
  destruct (tuple_cmp (datetime_tuple b) (datetime_tuple c)) eqn:E2;
    try discriminate.
  now rewrite (tuple_cmp_lt_trans _ _ _ E1 E2).
Qed.

Lemma lt_le a b : lt a b = true -> le a b = true.
Proof.
  unfold lt, le. destruct (datetime_cmp a b); simpl; congruence.
Qed.

Lemma le_total a b : le a b = false -> le b a = true.
Proof.
  rewrite !le_not_lt. intros H. apply negb_false_iff in H.
  apply negb_true_iff.
  destruct (lt a b) eqn:E; [|reflexivity].
  pose proof (lt_trans _ _ _ E H) as Hc. now rewrite lt_irrefl in Hc.
Qed.

Lemma datetime_tuple_inj a b : datetime_tuple a = datetime_tuple b -> a = b.
Proof.
  destruct a as [[ya ma da] [ha mia sa ua]], b as [[yb mb db] [hb mib sb ub]].
  unfold datetime_tuple. simpl. congruence.
Qed.

Lemma le_trans a b c : le a b = true -> le b c = true -> le a c = true.
Proof.
  rewrite !le_not_lt, !negb_true_iff. intros H1 H2.
  destruct (lt c a) eqn:E; [|reflexivity]. exfalso.
  (* c < a, not b < a, not c < b *)
  unfold lt, datetime_cmp in *.
  rewrite (tuple_cmp_antisym (datetime_tuple b) (datetime_tuple c)) in H2.
  destruct (tuple_cmp (datetime_tuple b) (datetime_tuple c)) eqn:Ebc;
    simpl in H2; try discriminate.
  - apply tuple_cmp_eq in Ebc. rewrite Ebc in H1. congruence.
  - destruct (tuple_cmp (datetime_tuple c) (datetime_tuple a)) eqn:Eca;
      try discriminate.
    rewrite (tuple_cmp_lt_trans _ _ _ Ebc Eca) in H1. discriminate.
Qed.

(** ** The time line *)

Lemma check_time_fields_inv hh mm ss us :
  check_time_fields hh mm ss us = true ->
  0 <= hh <= 23 /\ 0 <= mm <= 59 /\ 0 <= ss <= 59 /\ 0 <= us <= 999999.
Proof.
  unfold check_time_fields. rewrite !andb_true_iff, !Z.leb_le. tauto.
Qed.

Lemma check_time_fields_intro hh mm ss us :
  0 <= hh <= 23 -> 0 <= mm <= 59 -> 0 <= ss <= 59 -> 0 <= us <= 999999 ->
  check_time_fields hh mm ss us = true.
Proof.
  unfold check_time_fields. rewrite !andb_true_iff, !Z.leb_le. tauto.
Qed.

Lemma time_secs_range t :
  valid_time t -> 0 <= time_secs t < 86400 /\ 0 <= microsecond t < 1000000.
Proof.
  unfold valid_time, time_secs. intros H.
  apply check_time_fields_inv in H. lia.
Qed.

Lemma time_cmp_us ta tb :
  valid_time ta -> valid_time tb ->
  tuple_cmp [hour ta; minute ta; second ta; microsecond ta]
            [hour tb; minute tb; second tb; microsecond tb]
  = (time_secs ta * 1000000 + microsecond ta
     ?= time_secs tb * 1000000 + microsecond tb).
Proof.
  unfold valid_time, time_secs. intros Ha Hb.
  apply check_time_fields_inv in Ha. apply check_time_fields_inv in Hb.
  simpl.
  destruct (Z.compare_spec (hour ta) (hour tb));
    [destruct (Z.compare_spec (minute ta) (minute tb));
     [destruct (Z.compare_spec (second ta) (second tb));
      [destruct (Z.compare_spec (microsecond ta) (microsecond tb))|..]|..]|..];
    symmetry;
    first [apply Z.compare_eq_iff; lia | apply Z.compare_lt_iff; lia
          | apply Z.compare_gt_iff; lia].
Qed.

(** On datetimes, the order of the field tuples is the order on the time
    line. *)
Lemma datetime_cmp_us a b :
  valid_datetime a -> valid_datetime b ->
  datetime_cmp a b = (to_us a ?= to_us b).
Proof.
  intros [Hda Hta] [Hdb Htb].
  unfold datetime_cmp, datetime_tuple.
  change [year (date_of a); month (date_of a); day (date_of a);
          hour (time_of a); minute (time_of a); second (time_of a);
          microsecond (time_of a)]
    with (date_tuple (date_of a)
          ++ [hour (time_of a); minute (time_of a); second (time_of a);
              microsecond (time_of a)]).
  change [year (date_of b); month (date_of b); day (date_of b);
          hour (time_of b); minute (time_of b); second (time_of b);
          microsecond (time_of b)]
    with (date_tuple (date_of b)
          ++ [hour (time_of b); minute (time_of b); second (time_of b);
              microsecond (time_of b)]).
  rewrite tuple_cmp_app by reflexivity.
  fold (date_cmp (date_of a) (date_of b)).
  rewrite (date_cmp_toordinal _ _ Hda Hdb), (time_cmp_us _ _ Hta Htb).
  pose proof (time_secs_range _ Hta). pose proof (time_secs_range _ Htb).
  unfold to_us.
  destruct (Z.compare_spec (toordinal (date_of a)) (toordinal (date_of b)));
    [destruct (Z.compare_spec
                 (time_secs (time_of a) * 1000000 + microsecond (time_of a))
                 (time_secs (time_of b) * 1000000 + microsecond (time_of b)))
    |..];
    symmetry;
    first [apply Z.compare_eq_iff; lia | apply Z.compare_lt_iff; lia
          | apply Z.compare_gt_iff; lia].
Qed.

Lemma lt_us a b :
  valid_datetime a -> valid_datetime b ->
  lt a b = true <-> to_us a < to_us b.
Proof.
  intros Ha Hb. unfold lt. rewrite (datetime_cmp_us a b Ha Hb).
  destruct (Z.compare_spec (to_us a) (to_us b)); simpl; split;
    (lia || discriminate || reflexivity).
Qed.

Lemma le_us a b :
  valid_datetime a -> valid_datetime b ->
  le a b = true <-> to_us a <= to_us b.
Proof.
  intros Ha Hb. unfold le. rewrite (datetime_cmp_us a b Ha Hb).
  destruct (Z.compare_spec (to_us a) (to_us b)); simpl; split;
    (lia || discriminate || reflexivity).
Qed.

Lemma gt_us a b :
  valid_datetime a -> valid_datetime b ->
  gt a b = true <-> to_us b < to_us a.
Proof. intros Ha Hb. rewrite gt_lt. now apply lt_us. Qed.

Lemma to_us_inj a b :
  valid_datetime a -> valid_datetime b -> to_us a = to_us b -> a = b.
Proof.
  intros Ha Hb E. apply datetime_tuple_inj, tuple_cmp_eq.
  fold (datetime_cmp a b). rewrite (datetime_cmp_us a b Ha Hb).
  now apply Z.compare_eq_iff.
Qed.

Lemma to_us_range a :
  valid_datetime a -> MIN_US <= to_us a <= MAX_US.
Proof.
  intros [Hd Ht]. pose proof (toordinal_range _ Hd).
  pose proof (time_secs_range _ Ht).
  unfold to_us, MIN_US, MAX_US, MAXORDINAL in *. lia.
Qed.

End OrderFacts.

Module ArithFacts.
Import PyDatetime Timeline OrdinalFacts OrderFacts.

(** ** Arithmetic on datetimes *)

Lemma canon_us X :
  (X / 86400000000 * 86400 + X / 1000000 mod 86400) * 1000000
  + X mod 1000000 = X.
Proof. zdiv. Qed.

Lemma canon_ranges X :
  (0 <= X / 1000000 mod 86400 < 86400) /\ (0 <= X mod 1000000 < 1000000).
Proof. zdiv. Qed.

Lemma canon_hms s :
  0 <= s < 86400 ->
  0 <= s / 3600 <= 23 /\ 0 <= s mod 3600 / 60 <= 59
  /\ 0 <= s mod 3600 mod 60 <= 59
  /\ s / 3600 * 3600 + s mod 3600 / 60 * 60 + s mod 3600 mod 60 = s.
Proof. intros. zdiv. Qed.

(** The constructor of [timedelta] keeps the duration and normalises its
    three fields. *)
Lemma new_timedelta_canon d s u :
  let T := (d * 86400 + s) * 1000000 + u in
  new_timedelta d s u =
  if 999999999 <? Z.abs (T / 86400000000) then Raise OverflowError
  else Ok (mkdelta (T / 86400000000) (T / 1000000 mod 86400) (T mod 1000000)).
Proof.
  intros T. unfold new_timedelta. cbv zeta.
  assert (E1 : d + s / 86400 + u / 1000000 / 86400 +
          (s mod 86400 + u / 1000000 mod 86400 + u mod 1000000 / 1000000) /
          86400 = T / 86400000000) by (unfold T; zdiv).
  assert (E2 : (s mod 86400 + u / 1000000 mod 86400 + u mod 1000000 / 1000000)
               mod 86400 = T / 1000000 mod 86400) by (unfold T; zdiv).
  assert (E3 : u mod 1000000 mod 1000000 = T mod 1000000) by (unfold T; zdiv).
  rewrite E1, E2, E3. reflexivity.
Qed.

Lemma new_timedelta_us d s u td :
  new_timedelta d s u = Ok td ->
  delta_us td = (d * 86400 + s) * 1000000 + u
  /\ 0 <= seconds td < 86400 /\ 0 <= microseconds td < 1000000.
Proof.
  rewrite new_timedelta_canon. cbv zeta.
  destruct (_ <? _); [discriminate|]. intros [= <-].
  unfold delta_us. cbn [days seconds microseconds]. rewrite canon_us.
  pose proof (canon_ranges ((d * 86400 + s) * 1000000 + u)). tauto.
Qed.

Lemma in_range_days T :
  MIN_US <= T <= MAX_US <-> 0 < T / 86400000000 <= MAXORDINAL.
Proof. unfold MIN_US, MAX_US, MAXORDINAL. zdiv. Qed.

Lemma of_us_valid T :
  MIN_US <= T <= MAX_US -> valid_datetime (of_us T) /\ to_us (of_us T) = T.
Proof.
  intros HT. apply in_range_days in HT.
  assert (Ho : 1 <= T / 86400000000 <= MAXORDINAL) by lia.
  split.
  - split; unfold of_us; cbn [date_of time_of].
    + now apply fromordinal_valid.
    + unfold valid_time. cbn [hour minute second microsecond].
      destruct (canon_ranges T) as [Hs Hu].
      destruct (canon_hms _ Hs) as (? & ? & ? & _).
      apply check_time_fields_intro; lia.
  - unfold to_us, of_us, time_secs.
    cbn [date_of time_of hour minute second microsecond].
    rewrite (toordinal_fromordinal _ Ho).
    destruct (canon_ranges T) as [Hs Hu].
    destruct (canon_hms _ Hs) as (_ & _ & _ & ->).
    apply canon_us.
Qed.

Lemma to_us_split dt :
  valid_datetime dt ->
  to_us dt / 86400000000 = toordinal (date_of dt)
  /\ to_us dt / 1000000 mod 86400 = time_secs (time_of dt)
  /\ to_us dt mod 1000000 = microsecond (time_of dt).
Proof.
  intros [Hd Ht]. pose proof (time_secs_range _ Ht) as Hr.
  unfold to_us. revert Hr.
  generalize (toordinal (date_of dt)) (time_secs (time_of dt))
             (microsecond (time_of dt)).
  intros o s u Hr. zdiv.
Qed.

Lemma of_us_to_us dt : valid_datetime dt -> of_us (to_us dt) = dt.
Proof.
  intros H. pose proof (to_us_range dt H) as Hr.
  destruct (of_us_valid _ Hr) as [Hv He].
  now apply to_us_inj.
Qed.

(** [datetime + timedelta] moves along the time line and raises
    [OverflowError] exactly when the result leaves it. *)
Lemma datetime_add_canon dt td :
  valid_datetime dt ->
  datetime_add dt td =
  let T := to_us dt + delta_us td in
  if (MIN_US <=? T) && (T <=? MAX_US) then Ok (of_us T)
  else Raise OverflowError.
Proof.
  intros Hv. pose proof Hv as [Hd Ht].
  pose proof (toordinal_range _ Hd) as Ho.
  pose proof (time_secs_range _ Ht) as Hs.
  cbv zeta. unfold datetime_add.
  rewrite new_timedelta_canon. cbv zeta.
  replace ((toordinal (date_of dt) * 86400
            + (second (time_of dt)
               + (minute (time_of dt) * 60 + hour (time_of dt) * 3600)))
           * 1000000 + microsecond (time_of dt))
    with (to_us dt) by (unfold to_us, time_secs; ring).
  destruct (to_us_split dt Hv) as (E1 & E2 & E3). rewrite E1, E2, E3.
  replace (999999999 <? Z.abs (toordinal (date_of dt))) with false
    by (symmetry; apply Z.ltb_ge; unfold MAXORDINAL in Ho; lia).
  cbn [bind]. unfold delta_add. cbn [days seconds microseconds].
  rewrite new_timedelta_canon. cbv zeta.
  replace ((((toordinal (date_of dt) + days td) * 86400
             + (time_secs (time_of dt) + seconds td)) * 1000000
            + (microsecond (time_of dt) + microseconds td)))
    with (to_us dt + delta_us td) by (unfold to_us, delta_us; ring).
  set (T := to_us dt + delta_us td).
  destruct ((MIN_US <=? T) && (T <=? MAX_US)) eqn:Er.
  - apply andb_true_iff in Er. rewrite !Z.leb_le in Er.
    pose proof (proj1 (in_range_days T) Er) as Hdays.
    replace (999999999 <? Z.abs (T / 86400000000)) with false
      by (symmetry; apply Z.ltb_ge; unfold MAXORDINAL in Hdays; lia).
    cbn [bind days seconds microseconds].
    replace ((0 <? T / 86400000000) && (T / 86400000000 <=? MAXORDINAL))
      with true
      by (symmetry; apply andb_true_iff; rewrite Z.ltb_lt, Z.leb_le; lia).
    unfold new_time.
    destruct (canon_ranges T) as [HsT HuT].
    destruct (canon_hms _ HsT) as (? & ? & ? & _).
    rewrite check_time_fields_intro by lia.
    reflexivity.
  - destruct (999999999 <? Z.abs (T / 86400000000)); [reflexivity|].
    cbn [bind days seconds microseconds].
    destruct ((0 <? T / 86400000000) && (T / 86400000000 <=? MAXORDINAL))
      eqn:Ed; [|reflexivity].
    exfalso. apply andb_true_iff in Ed. rewrite Z.ltb_lt, Z.leb_le in Ed.
    apply in_range_days in Ed.
    apply andb_false_iff in Er. rewrite !Z.leb_gt in Er. lia.
Qed.

(** [datetime - timedelta] likewise. *)
Lemma datetime_sub_delta_canon dt td :
  valid_datetime dt ->
  datetime_sub_delta dt td =
  let T := to_us dt - delta_us td in
  if (MIN_US <=? T) && (T <=? MAX_US) then Ok (of_us T)
  else Raise OverflowError.
Proof.
  intros Hv. cbv zeta. unfold datetime_sub_delta, delta_neg.
  rewrite new_timedelta_canon. cbv zeta.
  replace ((- days td * 86400 + - seconds td) * 1000000 + - microseconds td)
    with (- delta_us td) by (unfold delta_us; ring).
  pose proof (to_us_range dt Hv) as Hr.
  destruct (999999999 <? Z.abs (- delta_us td / 86400000000)) eqn:Eo.
  - cbn [bind]. apply Z.ltb_lt in Eo.
    replace ((MIN_US <=? to_us dt - delta_us td)
             && (to_us dt - delta_us td <=? MAX_US)) with false; [reflexivity|].
    symmetry. apply andb_false_iff. rewrite !Z.leb_gt.
    revert Eo Hr. unfold MIN_US, MAX_US, MAXORDINAL.
    generalize (to_us dt) (delta_us td). intros x y. zdiv.
  - cbn [bind]. rewrite (datetime_add_canon dt _ Hv). cbv zeta.
    replace (delta_us
               {| days := - delta_us td / 86400000000;
                  seconds := - delta_us td / 1000000 mod 86400;
                  microseconds := - delta_us td mod 1000000 |})
      with (- delta_us td) by (symmetry; apply canon_us).
    replace (to_us dt + - delta_us td) with (to_us dt - delta_us td) by ring.
    reflexivity.
Qed.

Lemma timedelta_minutes_us n td :
  timedelta_minutes n = Ok td -> delta_us td = n * 60000000.
Proof.
  unfold timedelta_minutes. intros H.
  apply new_timedelta_us in H. lia.
Qed.

Lemma timedelta_minutes_ok n :
  Z.abs n <= 1000000000000 -> exists td, timedelta_minutes n = Ok td.
Proof.
  intros Hn. unfold timedelta_minutes. rewrite new_timedelta_canon.
  cbv zeta.
  replace (999999999 <? _) with false; [eauto|].
  symmetry. apply Z.ltb_ge. zdiv.
Qed.

(** [a - b] on datetimes never raises, and measures the distance on the
    time line. *)
Lemma datetime_sub_us a b :
  valid_datetime a -> valid_datetime b ->
  exists td, datetime_sub a b = Ok td
             /\ delta_us td = to_us a - to_us b
             /\ 0 <= seconds td < 86400 /\ 0 <= microseconds td < 1000000.
Proof.
  intros Ha Hb. unfold datetime_sub.
  destruct (new_timedelta
              (toordinal (date_of a) - toordinal (date_of b))
              (second (time_of a) + minute (time_of a) * 60
               + hour (time_of a) * 3600
               - (second (time_of b) + minute (time_of b) * 60
                  + hour (time_of b) * 3600))
              (microsecond (time_of a) - microsecond (time_of b)))
    as [td|e] eqn:E.
  - exists td. split; [reflexivity|].
    apply new_timedelta_us in E. destruct E as (E & Hs & Hu).
    split; [|tauto]. rewrite E. unfold to_us, time_secs. ring.
  - exfalso. rewrite new_timedelta_canon in E. cbv zeta in E.
    destruct (999999999 <? _) eqn:Eo; [|discriminate].
    apply Z.ltb_lt in Eo.
    pose proof (to_us_range a Ha) as Hra. pose proof (to_us_range b Hb) as Hrb.
    replace (((toordinal (date_of a) - toordinal (date_of b)) * 86400
             + (second (time_of a) + minute (time_of a) * 60
                + hour (time_of a) * 3600
                - (second (time_of b) + minute (time_of b) * 60
                   + hour (time_of b) * 3600))) * 1000000
            + (microsecond (time_of a) - microsecond (time_of b)))
      with (to_us a - to_us b) in Eo by (unfold to_us, time_secs; ring).
    revert Eo Hra Hrb. unfold MIN_US, MAX_US, MAXORDINAL.
    generalize (to_us a) (to_us b). intros x y. zdiv.
Qed.

End ArithFacts.

(** * The calendar module *)

Module RepositoryFacts.
Import PyDatetime PyStr PyIso Calendar Timeline Fields.
Import OrdinalFacts OrderFacts ArithFacts.

(** ** The repository: create, update, delete *)

Section Repository.

Variables (uuid4 : string) (now : datetime) (st : state).

Lemma save_events_keeps_events io s : events (_save_events io s) = events s.
Proof. destruct io; reflexivity. Qed.

Lemma find_event_split event_id l e :
  find_event event_id l = Some e ->
  exists pre post,
    l = pre ++ e :: post
    /\ id e = event_id
    /\ update_first event_id [] l = l
    /\ forall kwargs,
         update_first event_id kwargs l
         = pre ++ fold_left setattr kwargs e :: post.
Proof.
  induction l as [|x l IH]; simpl; [discriminate|].
  destruct (String.eqb (id x) event_id) eqn:E.
  - intros [= ->]. exists [], l. apply String.eqb_eq in E. auto.
  - intros H. destruct (IH H) as (pre & post & -> & Hid & H0 & Hk).
    exists (x :: pre), post. simpl. repeat split; auto.
    + now rewrite H0.
    + intros kwargs. now rewrite Hk.
Qed.

(** C1 (as the code has it): neither [create_event] nor [update_event]
    validates anything.  [create_event] always returns the generated id and
    appends the record built from its arguments ([attendees or []] for the
    attendees, the clock for [created_at]), whatever the title and the
    interval; [update_event] on a known id, with keywords that name fields
    or names without attribute, always returns [True] and stores the
    merged fields, whatever interval they yield. *)
Theorem create_update_accept_anything :
  (forall io title0 start_time0 end_time0 description0 location0 attendees0
          reminder_minutes0 is_all_day0 recurrence0,
      let r := create_event uuid4 now io st title0 start_time0 end_time0
                 description0 location0 attendees0 reminder_minutes0
                 is_all_day0 recurrence0 in
      fst r = _generate_event_id uuid4
      /\ events (snd r)
         = events st
           ++ [mkEvent (_generate_event_id uuid4) title0 description0
                 start_time0 end_time0 location0 (or_empty attendees0)
                 reminder_minutes0 is_all_day0 recurrence0 now])
  /\ (forall io event_id kwargs e,
        get_event st event_id = Some e ->
        plain_kwargs kwargs ->
        let r := update_event io st event_id kwargs in
        fst r = true
        /\ exists pre post,
             events st = pre ++ e :: post
             /\ events (snd r) = pre ++ fold_left setattr kwargs e :: post).
Proof.
  split.
  - intros. subst r. unfold create_event. cbn [fst snd].
    split; [reflexivity|].
    unfold add_log. cbn [events].
    rewrite save_events_keeps_events. cbn [events].
    do 2 f_equal. unfold new_event.
    now destruct attendees0 as [[|a l]|].
  - intros io event_id kwargs e He _ r. subst r.
    unfold update_event. rewrite He. cbn [fst snd].
    split; [reflexivity|].
    unfold get_event in He.
    destruct (find_event_split _ _ _ He) as (pre & post & E & _ & _ & Hk).
    exists pre, post. split; [exact E|].
    unfold add_log. cbn [events]. rewrite save_events_keeps_events.
    cbn [events]. apply Hk.
Qed.

End Repository.

(** An event with an empty title and an inverted interval is stored. *)
Lemma create_event_invalid_is_stored :
  let r := create_event "3f2b8c1e-5d4a-4b6f-9c0d-1a2b3c4d5e6f"
             (at_ 2024 3 1 8 0) WriteOk empty_state
             "" (at_ 2024 3 4 11 0) (at_ 2024 3 4 10 0)
             "" "" None 15 false "none" in
  fst r = "3f2b8c1e"
  /\ events (snd r) <> events empty_state
  /\ exists e, events (snd r) = [e]
               /\ title e = ""
               /\ lt (end_time e) (start_time e) = true.
Proof.
  cbv zeta. split; [reflexivity|]. split; [discriminate|].
  eexists. split; [reflexivity|]. split; reflexivity.
Qed.

Lemma create_update_accept_anything_witness :
  get_event witness_state "a1"
  = Some (sample_event "a1" (at_ 2024 3 4 10 0) (at_ 2024 3 4 11 0))
  /\ fst (update_event WriteOk witness_state "a1"
            [kw_end_time (at_ 2024 3 4 9 0)]) = true.
Proof.
  split; [reflexivity|].
  exact (proj1 (proj2 (create_update_accept_anything "" (at_ 2024 3 1 8 0)
                         witness_state)
                      WriteOk "a1" [kw_end_time (at_ 2024 3 4 9 0)] _
                      eq_refl eq_refl)).
Defined.

(** ** Persisting *)

Lemma save_events_log_failure io s :
  io <> WriteOk -> log (_save_events io s) = log s ++ [LogSaveError].
Proof. destruct io; [congruence|reflexivity|reflexivity]. Qed.



(** ** Identifiers *)

(** When the eight characters drawn are not yet an id of the store, the
    ids stay distinct. *)
Lemma create_event_fresh_id uuid4 now io st title0 start_time0 end_time0
  description0 location0 attendees0 reminder_minutes0 is_all_day0
  recurrence0 :
  unique_ids (events st) ->
  ~ In (_generate_event_id uuid4) (map id (events st)) ->
  unique_ids
    (events (snd (create_event uuid4 now io st title0 start_time0 end_time0
                    description0 location0 attendees0 reminder_minutes0
                    is_all_day0 recurrence0))).
Proof.
  unfold unique_ids, create_event, add_log. cbn [snd events].
  rewrite save_events_keeps_events. cbn [events].
  intros Hu Hn. rewrite map_app. cbn [map new_event id].
  apply NoDup_app_remove_l with (l := []). cbn [app].
  apply Permutation_NoDup
    with (l := _generate_event_id uuid4 :: map id (events st)).
  - apply Permutation_cons_append.
  - now constructor.
Qed.

(** C5: two calls of [create_event] whose random UUIDs agree on the first
    eight characters store two events with the same id. *)
Theorem create_event_can_repeat_an_id :
  let st1 := snd (create_event "3f2b8c1e-5d4a-4b6f-9c0d-1a2b3c4d5e6f"
                    (at_ 2024 3 1 8 0) WriteOk empty_state
                    "Standup" (at_ 2024 3 4 9 0) (at_ 2024 3 4 9 15)
                    "" "" None 15 false "none") in
  let r := create_event "3f2b8c1e-0000-4111-8222-333344445555"
             (at_ 2024 3 1 8 5) WriteOk st1
             "Review" (at_ 2024 3 5 14 0) (at_ 2024 3 5 15 0)
             "" "" None 15 false "none" in
  unique_ids (events st1)
  /\ In (fst r) (map id (events st1))
  /\ map id (events (snd r)) = ["3f2b8c1e"; "3f2b8c1e"]
  /\ ~ unique_ids (events (snd r)).
Proof.
  cbv zeta. split; [|split; [|split]].
  - unfold unique_ids. cbn. constructor; [intros []|constructor].
  - cbn. auto.
  - reflexivity.
  - unfold unique_ids. cbn. intros H.
    apply NoDup_cons_iff in H. destruct H as [H _]. apply H. cbn. auto.
Qed.

(** ** Updating *)

Lemma setattr_other e kw f :
  kw_field kw <> Some f -> getattr (setattr e kw) f = getattr e f.
Proof. destruct e, kw, f; cbn; congruence. Qed.

Lemma setattr_same e kw f :
  kw_field kw = Some f -> getattr (setattr e kw) f = kw_value kw.
Proof. destruct e, kw, f; cbn; congruence. Qed.

Lemma fold_setattr_frame kwargs : forall e f,
  (forall kw, In kw kwargs -> kw_field kw <> Some f) ->
  getattr (fold_left setattr kwargs e) f = getattr e f.
Proof.
  induction kwargs as [|k ks IH]; intros e f H; cbn; [reflexivity|].
  rewrite IH by (intros kw Hin; apply H; now right).
  apply setattr_other, H. now left.
Qed.

Lemma kw_field_key kw1 kw2 f :
  kw_field kw1 = Some f -> kw_field kw2 = Some f -> kw_key kw1 = kw_key kw2.
Proof. destruct kw1, kw2; cbn; congruence. Qed.

Lemma fold_setattr_supplied kwargs : forall e kw f,
  NoDup (map kw_key kwargs) ->
  In kw kwargs -> kw_field kw = Some f ->
  getattr (fold_left setattr kwargs e) f = kw_value kw.
Proof.
  induction kwargs as [|k ks IH]; intros e kw f Hnd Hin Hf; [destruct Hin|].
  cbn. cbn in Hnd. apply NoDup_cons_iff in Hnd. destruct Hnd as [Hk Hnd].
  destruct Hin as [->|Hin].
  - rewrite fold_setattr_frame; [now apply setattr_same|].
    intros kw' Hin' Hf'. apply Hk.
    rewrite (kw_field_key _ _ _ Hf Hf'). now apply in_map.
  - now apply IH.
Qed.

(** C6 (as the code has it): with keywords that name fields or names
    without attribute, [update_event] changes one event, the first of the
    given id, and leaves the others as they are.  In that event every
    field the caller supplies takes the supplied value, and every field
    the caller does not supply keeps its value.  [id] and [created_at] are
    fields like the others: they keep their values exactly when the caller
    does not supply them. *)
Theorem update_event_frame :
  forall io st event_id kwargs e,
    get_event st event_id = Some e ->
    NoDup (map kw_key kwargs) ->
    plain_kwargs kwargs ->
    exists pre post e',
      events st = pre ++ e :: post
      /\ events (snd (update_event io st event_id kwargs)) = pre ++ e' :: post
      /\ (forall f,
            (forall kw, In kw kwargs -> kw_field kw <> Some f) ->
            getattr e' f = getattr e f)
      /\ (forall kw f,
            In kw kwargs -> kw_field kw = Some f ->
            getattr e' f = kw_value kw).
Proof.
  intros io st event_id kwargs e He Hnd _.
  unfold update_event. rewrite He. unfold get_event in He.
  destruct (find_event_split _ _ _ He) as (pre & post & E & _ & _ & Hk).
  exists pre, post, (fold_left setattr kwargs e).
  split; [exact E|]. split.
  - unfold add_log. cbn [snd events]. rewrite save_events_keeps_events.
    cbn [events]. apply Hk.
  - split.
    + intros f Hf. now apply fold_setattr_frame.
    + intros kw f Hin Hf. now apply fold_setattr_supplied.
Qed.

Lemma update_event_frame_witness :
  get_event witness_state "a1"
  = Some (sample_event "a1" (at_ 2024 3 4 10 0) (at_ 2024 3 4 11 0))
  /\ NoDup (map kw_key [kw_title "Retro"; kw_location "Room 2"])
  /\ exists pre post e',
       events witness_state
       = pre ++ sample_event "a1" (at_ 2024 3 4 10 0) (at_ 2024 3 4 11 0)
                :: post
       /\ events (snd (update_event WriteOk witness_state "a1"
                         [kw_title "Retro"; kw_location "Room 2"]))
          = pre ++ e' :: post
       /\ getattr e' f_id = PStr "a1".
Proof.
  assert (Hnd : NoDup (map kw_key [kw_title "Retro"; kw_location "Room 2"])).
  { cbn. constructor; [|constructor; [|constructor]]; cbn;
      intuition discriminate. }
  split; [reflexivity|]. split; [exact Hnd|].
  destruct (update_event_frame WriteOk witness_state "a1"
              [kw_title "Retro"; kw_location "Room 2"] _ eq_refl Hnd
              eq_refl)
    as (pre & post & e' & E1 & E2 & Hframe & _).
  exists pre, post, e'. split; [exact E1|]. split; [exact E2|].
  rewrite (Hframe f_id); [reflexivity|].
  intros kw [<-|[<-|[]]]; discriminate.
Defined.

(** An update that names [id] and [created_at] changes both. *)
Lemma update_event_changes_id_and_created_at :
  let r := update_event WriteOk witness_state "a1"
             [kw_id "zz"; kw_created_at (at_ 2030 1 1 0 0)] in
  fst r = true
  /\ map id (events witness_state) = ["a1"]
  /\ map id (events (snd r)) = ["zz"]
  /\ map created_at (events witness_state) = [at_ 2024 3 1 8 0]
  /\ map created_at (events (snd r)) = [at_ 2030 1 1 0 0].
Proof. cbv zeta. repeat split; reflexivity. Qed.

End RepositoryFacts.

Module QueryFacts.
Import PyDatetime PyStr PyIso Calendar Timeline Fields.
Import OrdinalFacts OrderFacts ArithFacts.

(** ** Conflicts *)

Lemma truthy_spec s : truthy s = true <-> s <> "".
Proof. destruct s; cbn; split; congruence. Qed.

(** C2 (as the code has it): [get_event_conflicts] returns, in stored
    order, the events [e] with [e.start_time < end] and
    [e.end_time > start], except the events whose id is a non-empty
    [exclude_event_id] ([None] and the empty string exclude nothing).
    An event that only touches the queried interval at an endpoint is
    not returned.  With A = 10:00-11:00 and B = 11:00-12:00 stored, the
    query 10:30-11:30 returns A and B (B overlaps it from 11:00 to 11:30),
    the query 10:30-12:30 returns A and B, and the query 09:00-10:00, which
    only touches A, returns nothing. *)
Theorem get_event_conflicts_spec :
  (forall evs start_time0 end_time0 exclude_event_id e,
      In e (get_event_conflicts evs start_time0 end_time0 exclude_event_id)
      <-> In e evs
          /\ lt (start_time e) end_time0 = true
          /\ gt (end_time e) start_time0 = true
          /\ ~ excluded exclude_event_id e)
  /\ (forall evs start_time0 end_time0 exclude_event_id e,
        start_time e = end_time0 \/ end_time e = start_time0 ->
        ~ In e (get_event_conflicts evs start_time0 end_time0
                  exclude_event_id))
  /\ (let A := sample_event "A" (at_ 2024 3 4 10 0) (at_ 2024 3 4 11 0) in
      let B := sample_event "B" (at_ 2024 3 4 11 0) (at_ 2024 3 4 12 0) in
      get_event_conflicts [A; B] (at_ 2024 3 4 10 30) (at_ 2024 3 4 11 30)
        None = [A; B]
      /\ get_event_conflicts [A; B] (at_ 2024 3 4 10 30) (at_ 2024 3 4 12 30)
           None = [A; B]
      /\ get_event_conflicts [A; B] (at_ 2024 3 4 9 0) (at_ 2024 3 4 10 0)
           None = []
      /\ get_event_conflicts [A; B] (at_ 2024 3 4 10 30) (at_ 2024 3 4 12 30)
           (Some "A") = [B]).
Proof.
  assert (Hspec : forall evs start_time0 end_time0 exclude_event_id e,
      In e (get_event_conflicts evs start_time0 end_time0 exclude_event_id)
      <-> In e evs
          /\ lt (start_time e) end_time0 = true
          /\ gt (end_time e) start_time0 = true
          /\ ~ excluded exclude_event_id e).
  { intros evs s t ex e. unfold get_event_conflicts.
    rewrite filter_In. rewrite !gt_lt.
    split; intros [Hin H]; (split; [exact Hin|]).
    - destruct ex as [x|].
      + destruct (truthy x && String.eqb (id e) x) eqn:Ex; [discriminate|].
        apply andb_true_iff in H. destruct H as [H1 H2].
        repeat split; auto.
        intros (x' & [= <-] & Hne & Hid).
        apply andb_false_iff in Ex. destruct Ex as [Ex|Ex].
        * apply truthy_spec in Hne. congruence.
        * apply String.eqb_neq in Ex. congruence.
      + apply andb_true_iff in H. destruct H as [H1 H2].
        repeat split; auto. intros (x' & [=] & _).
    - destruct H as (H1 & H2 & Hex).
      assert (Hb : lt s (end_time e) && lt (start_time e) t = true)
        by (apply andb_true_iff; auto).
      destruct ex as [x|]; [|exact Hb].
      destruct (truthy x && String.eqb (id e) x) eqn:Ex; [|exact Hb].
      exfalso. apply Hex. exists x.
      apply andb_true_iff in Ex. destruct Ex as [Ex1 Ex2].
      apply truthy_spec in Ex1. apply String.eqb_eq in Ex2. auto. }
  split; [exact Hspec|]. split.
  - intros evs s t ex e Htouch Hin. apply Hspec in Hin.
    destruct Hin as (_ & H1 & H2 & _). rewrite gt_lt in H2.
    destruct Htouch as [E|E]; rewrite E in *;
      rewrite lt_irrefl in *; discriminate.
  - cbv zeta. repeat split; reflexivity.
Qed.

(** The first example of the specification does not hold: the query
    10:30-11:30 also returns B. *)
Lemma conflicts_example_returns_B :
  let A := sample_event "A" (at_ 2024 3 4 10 0) (at_ 2024 3 4 11 0) in
  let B := sample_event "B" (at_ 2024 3 4 11 0) (at_ 2024 3 4 12 0) in
  get_event_conflicts [A; B] (at_ 2024 3 4 10 30) (at_ 2024 3 4 11 30) None
  <> [A]
  /\ In B (get_event_conflicts [A; B] (at_ 2024 3 4 10 30)
             (at_ 2024 3 4 11 30) None).
Proof. cbv zeta. split; [discriminate|]. cbn. auto. Qed.

(** An empty [exclude_event_id] excludes nothing, not even an event whose
    id is the empty string. *)
Lemma conflicts_empty_exclude_id :
  let E := sample_event "" (at_ 2024 3 4 10 0) (at_ 2024 3 4 11 0) in
  get_event_conflicts [E] (at_ 2024 3 4 10 30) (at_ 2024 3 4 11 30) (Some "")
  = [E].
Proof. reflexivity. Qed.

Lemma get_event_conflicts_spec_witness :
  let A := sample_event "A" (at_ 2024 3 4 10 0) (at_ 2024 3 4 11 0) in
  let B := sample_event "B" (at_ 2024 3 4 11 0) (at_ 2024 3 4 12 0) in
  (start_time A = at_ 2024 3 4 10 0 \/ end_time A = at_ 2024 3 4 9 0)
  /\ ~ In A (get_event_conflicts [A; B] (at_ 2024 3 4 9 0)
               (at_ 2024 3 4 10 0) None).
Proof.
  cbv zeta. split; [left; reflexivity|].
  apply (proj1 (proj2 get_event_conflicts_spec)). left. reflexivity.
Defined.

(** ** Sorting by start time *)

Lemma insert_by_start_perm x l : Permutation (insert_by_start x l) (x :: l).
Proof.
  induction l as [|y l IH]; cbn; [reflexivity|].
  destruct (lt (start_time y) (start_time x)); [|reflexivity].
  rewrite IH. apply perm_swap.
Qed.

Lemma sort_by_start_perm l : Permutation (sort_by_start l) l.
Proof.
  induction l as [|x l IH]; cbn; [reflexivity|].
  rewrite insert_by_start_perm. now constructor.
Qed.

Lemma insert_by_start_hd y x l :
  start_le y x -> HdRel start_le y l -> HdRel start_le y (insert_by_start x l).
Proof.
  intros Hyx Hl. destruct l as [|z l]; cbn; [now constructor|].
  destruct (lt (start_time z) (start_time x)); constructor; auto.
  now inversion Hl.
Qed.

Lemma insert_by_start_sorted x l :
  Sorted start_le l -> Sorted start_le (insert_by_start x l).
Proof.
  induction l as [|y l IH]; intros Hs; cbn.
  - repeat constructor.
  - inversion Hs as [|? ? Hs' Hhd]; subst.
    destruct (lt (start_time y) (start_time x)) eqn:E.
    + constructor; [now apply IH|].
      apply insert_by_start_hd; [|exact Hhd].
      unfold start_le. now apply lt_le.
    + constructor; [exact Hs|]. constructor.
      unfold start_le. rewrite le_not_lt, E. reflexivity.
Qed.

Lemma sort_by_start_sorted l : Sorted start_le (sort_by_start l).
Proof.
  induction l as [|x l IH]; cbn; [constructor|].
  now apply insert_by_start_sorted.
Qed.

Lemma start_le_trans a b c : start_le a b -> start_le b c -> start_le a c.
Proof. unfold start_le. apply le_trans. Qed.

Lemma sort_by_start_strongly_sorted l :
  StronglySorted start_le (sort_by_start l).
Proof.
  apply Sorted_StronglySorted; [|apply sort_by_start_sorted].
  intros a b c. apply start_le_trans.
Qed.

(** Sorting a sorted list changes nothing: the sort is stable. *)
Lemma insert_by_start_sorted_id x l :
  HdRel start_le x l -> insert_by_start x l = x :: l.
Proof.
  intros H. destruct l as [|y l]; cbn; [reflexivity|].
  inversion H as [|? ? Hxy]; subst. unfold start_le in Hxy.
  rewrite le_not_lt in Hxy. apply negb_true_iff in Hxy. now rewrite Hxy.
Qed.

Lemma sort_by_start_sorted_id l :
  Sorted start_le l -> sort_by_start l = l.
Proof.
  induction l as [|x l IH]; intros Hs; [reflexivity|].
  change (sort_by_start (x :: l)) with (insert_by_start x (sort_by_start l)).
  inversion Hs; subst. rewrite IH by assumption.
  now apply insert_by_start_sorted_id.
Qed.

Lemma sort_by_start_idem l : sort_by_start (sort_by_start l) = sort_by_start l.
Proof. apply sort_by_start_sorted_id, sort_by_start_sorted. Qed.

(** ** Search *)

Lemma contains_empty s : contains "" s = true.
Proof. destruct s; reflexivity. Qed.

Lemma filter_all {A : Type} (f : A -> bool) l :
  (forall x, f x = true) -> filter f l = l.
Proof.
  intros H. induction l as [|x l IH]; cbn; [reflexivity|].
  now rewrite H, IH.
Qed.

(** C10: with the empty query, [search_events] returns every stored event,
    each as often as it is stored, in ascending order of [start_time]
    (events with equal start times in stored order: the result is the
    stable sort of the collection). *)
Theorem search_events_empty_query :
  forall evs,
    search_events evs "" = sort_by_start evs
    /\ Permutation (search_events evs "") evs
    /\ StronglySorted start_le (search_events evs "").
Proof.
  intros evs.
  assert (E : search_events evs "" = sort_by_start evs).
  { unfold search_events. cbn [lower]. f_equal.
    apply filter_all. intros e. now rewrite contains_empty. }
  rewrite E. split; [reflexivity|]. split.
  - apply sort_by_start_perm.
  - apply sort_by_start_strongly_sorted.
Qed.

(** ** Reminders *)

Lemma filter_result_ok {A : Type} (keep : A -> result bool) (f : A -> bool) l :
  (forall x, In x l -> keep x = Ok (f x)) ->
  filter_result keep l = Ok (filter f l).
Proof.
  induction l as [|x l IH]; intros H; cbn; [reflexivity|].
  rewrite (H x) by now left. cbn.
  rewrite IH by (intros y Hy; apply H; now right). reflexivity.
Qed.

Lemma one_minute : timedelta_minutes 1 = Ok (mkdelta 0 60 0).
Proof. reflexivity. Qed.

(** The test of one event, on the time line. *)
Lemma reminder_due_canon now e :
  valid_datetime now -> valid_datetime (start_time e) -> representable e ->
  reminder_due now e = Ok (in_windowb now e).
Proof.
  intros Hnow Hst [Hlo Hhi]. unfold reminder_due.
  pose proof (to_us_range _ Hst) as Hr.
  destruct (timedelta_minutes_ok (reminder_minutes e)) as [td Htd].
  { unfold reminder_us, MIN_US, MAX_US, MAXORDINAL in *. lia. }
  rewrite Htd. cbn [bind].
  rewrite (datetime_sub_delta_canon _ _ Hst). cbv zeta.
  rewrite (timedelta_minutes_us _ _ Htd). fold (reminder_us e).
  replace ((MIN_US <=? reminder_us e) && (reminder_us e <=? MAX_US)) with true
    by (symmetry; apply andb_true_iff; rewrite !Z.leb_le; lia).
  cbn [bind].
  destruct (of_us_valid (reminder_us e) ltac:(lia)) as [Hv Hus].
  unfold in_windowb.
  destruct (le (of_us (reminder_us e)) now) eqn:Ele.
  - apply (le_us _ _ Hv Hnow) in Ele. rewrite Hus in Ele.
    rewrite one_minute. cbn [bind].
    rewrite (datetime_add_canon _ _ Hv). cbv zeta. rewrite Hus.
    change (delta_us {| days := 0; seconds := 60; microseconds := 0 |})
      with 60000000.
    pose proof (to_us_range _ Hnow) as Hrn.
    replace ((MIN_US <=? reminder_us e + 60000000)
             && (reminder_us e + 60000000 <=? MAX_US)) with true
      by (symmetry; apply andb_true_iff; rewrite !Z.leb_le; lia).
    destruct (of_us_valid (reminder_us e + 60000000) ltac:(lia)) as [Hv' Hus'].
    cbn [bind]. f_equal.
    replace (reminder_us e <=? to_us now) with true
      by (symmetry; now apply Z.leb_le).
    rewrite andb_true_r.
    destruct (le now (of_us (reminder_us e + 60000000))) eqn:E2.
    + apply (le_us _ _ Hnow Hv') in E2. rewrite Hus' in E2.
      symmetry. apply Z.leb_le. lia.
    + symmetry. apply Z.leb_gt.
      destruct (Z_lt_le_dec (reminder_us e) (to_us now - 60000000))
        as [|Hc]; [assumption|exfalso].
      assert (Hle : le now (of_us (reminder_us e + 60000000)) = true)
        by (apply (le_us _ _ Hnow Hv'); rewrite Hus'; lia).
      congruence.
  - f_equal. symmetry. apply andb_false_iff. right. apply Z.leb_gt.
    destruct (Z_lt_le_dec (to_us now) (reminder_us e)) as [|Hc];
      [assumption|exfalso].
    assert (Hle : le (of_us (reminder_us e)) now = true)
      by (apply (le_us _ _ Hv Hnow); rewrite Hus; lia).
    congruence.
Qed.

Lemma in_windowb_spec now e : in_windowb now e = true <-> in_window now e.
Proof.
  unfold in_windowb, in_window. rewrite andb_true_iff, !Z.leb_le. tauto.
Qed.

Lemma new_timedelta_raise d s u e :
  new_timedelta d s u = Raise e -> e = OverflowError.
Proof.
  rewrite new_timedelta_canon. cbv zeta.
  destruct (_ <? _); [now intros [= <-]|discriminate].
Qed.

Lemma datetime_add_raise dt td e :
  valid_datetime dt -> datetime_add dt td = Raise e -> e = OverflowError.
Proof.
  intros Hv. rewrite (datetime_add_canon dt td Hv). cbv zeta.
  destruct (_ && _); [discriminate|now intros [= <-]].
Qed.

(** One test either answers or raises [OverflowError]; it raises when the
    reminder time is not on the time line. *)
Lemma reminder_due_total now e :
  valid_datetime (start_time e) ->
  (exists b, reminder_due now e = Ok b)
  \/ reminder_due now e = Raise OverflowError.
Proof.
  intros Hst. unfold reminder_due.
  destruct (timedelta_minutes (reminder_minutes e)) as [td|ex] eqn:Etd.
  - cbn [bind]. rewrite (datetime_sub_delta_canon _ _ Hst). cbv zeta.
    destruct ((MIN_US <=? to_us (start_time e) - delta_us td)
              && (to_us (start_time e) - delta_us td <=? MAX_US)) eqn:Er;
      [|now right].
    cbn [bind].
    destruct (le (of_us (to_us (start_time e) - delta_us td)) now);
      [|left; eauto].
    rewrite one_minute. cbn [bind].
    apply andb_true_iff in Er. rewrite !Z.leb_le in Er.
    destruct (of_us_valid _ Er) as [Hv _].
    destruct (datetime_add _ _) as [upper|ex] eqn:Ea; cbn [bind].
    + left. eauto.
    + right. now rewrite (datetime_add_raise _ _ _ Hv Ea).
  - right. cbn [bind]. unfold timedelta_minutes in Etd.
    now rewrite (new_timedelta_raise _ _ _ _ Etd).
Qed.

Lemma reminder_due_unrepresentable now e :
  valid_datetime (start_time e) ->
  reminder_us e < MIN_US \/ MAX_US < reminder_us e ->
  reminder_due now e = Raise OverflowError.
Proof.
  intros Hst Hout. unfold reminder_due.
  destruct (timedelta_minutes (reminder_minutes e)) as [td|ex] eqn:Etd.
  - cbn [bind]. rewrite (datetime_sub_delta_canon _ _ Hst). cbv zeta.
    rewrite (timedelta_minutes_us _ _ Etd). fold (reminder_us e).
    replace ((MIN_US <=? reminder_us e) && (reminder_us e <=? MAX_US))
      with false; [reflexivity|].
    symmetry. apply andb_false_iff. rewrite !Z.leb_gt. lia.
  - cbn [bind]. unfold timedelta_minutes in Etd.
    now rewrite (new_timedelta_raise _ _ _ _ Etd).
Qed.

Lemma filter_result_raise {A : Type} (keep : A -> result bool) ex l :
  (forall x, In x l -> (exists b, keep x = Ok b) \/ keep x = Raise ex) ->
  (exists x, In x l /\ keep x = Raise ex) ->
  filter_result keep l = Raise ex.
Proof.
  induction l as [|x l IH]; intros Hall (y & Hy & Hr); [destruct Hy|].
  cbn [filter_result].
  destruct (Hall x (or_introl eq_refl)) as [[b Hb]|Hx].
  - rewrite Hb. cbn [bind].
    rewrite IH; [reflexivity|intros z Hz; apply Hall; now right|].
    destruct Hy as [->|Hy]; [congruence|eauto].
  - now rewrite Hx.
Qed.

(** C9 (as the code has it): when, for every stored event, the reminder
    time [start_time - reminder_minutes] and the minute after it are
    datetimes (they lie in the years 1 to 9999),
    [get_events_needing_reminders] returns, in stored order, exactly the
    events whose reminder time lies in the one-minute window that ends at
    [now]: [now - 1 minute <= start_time - reminder_minutes <= now].
    When the reminder time of some stored event is no datetime, the call
    raises [OverflowError]. *)
Theorem get_events_needing_reminders_spec :
  forall now evs,
    valid_datetime now ->
    (forall e, In e evs -> valid_datetime (start_time e)) ->
    ((forall e, In e evs -> representable e) ->
     get_events_needing_reminders now evs = Ok (filter (in_windowb now) evs)
     /\ forall e,
          In e (filter (in_windowb now) evs) <-> In e evs /\ in_window now e)
    /\ ((exists e, In e evs
                   /\ (reminder_us e < MIN_US \/ MAX_US < reminder_us e)) ->
        get_events_needing_reminders now evs = Raise OverflowError).
Proof.
  intros now evs Hnow Hevs. split.
  - intros Hrep. split.
    + unfold get_events_needing_reminders. apply filter_result_ok.
      intros e He. apply reminder_due_canon; auto.
    + intros e. rewrite filter_In, in_windowb_spec. tauto.
  - intros (e & He & Hout). unfold get_events_needing_reminders.
    apply filter_result_raise.
    + intros x Hx. apply reminder_due_total. auto.
    + exists e. split; [exact He|].
      apply reminder_due_unrepresentable; auto.
Qed.

Lemma sample_event_valid_times :
  valid_datetime (at_ 2024 3 4 9 45)
  /\ (forall e,
        In e [sample_event "A" (at_ 2024 3 4 10 0) (at_ 2024 3 4 11 0);
              sample_event "B" (at_ 2024 3 4 11 0) (at_ 2024 3 4 12 0)] ->
        valid_datetime (start_time e))
  /\ (forall e,
        In e [sample_event "A" (at_ 2024 3 4 10 0) (at_ 2024 3 4 11 0);
              sample_event "B" (at_ 2024 3 4 11 0) (at_ 2024 3 4 12 0)] ->
        representable e).
Proof.
  split; [split; reflexivity|]. split.
  - intros e [<-|[<-|[]]]; split; reflexivity.
  - intros e [<-|[<-|[]]]; split; vm_compute; discriminate.
Qed.

Lemma get_events_needing_reminders_spec_witness :
  get_events_needing_reminders (at_ 2024 3 4 9 45)
    [sample_event "A" (at_ 2024 3 4 10 0) (at_ 2024 3 4 11 0);
     sample_event "B" (at_ 2024 3 4 11 0) (at_ 2024 3 4 12 0)]
  = Ok [sample_event "A" (at_ 2024 3 4 10 0) (at_ 2024 3 4 11 0)].
Proof.
  exact (proj1 (proj1 (get_events_needing_reminders_spec _ _
                         (proj1 sample_event_valid_times)
                         (proj1 (proj2 sample_event_valid_times)))
                      (proj2 (proj2 sample_event_valid_times)))).
Defined.

(** An event at the start of year 1 with the default reminder of 15
    minutes: its reminder time is no datetime, and the call raises
    instead of returning the event that is due. *)
Lemma reminders_raise_out_of_range :
  let now := at_ 2024 3 4 9 45 in
  let early := sample_event "E" (at_ 1 1 1 0 0) (at_ 1 1 1 1 0) in
  let due := sample_event "A" (at_ 2024 3 4 10 0) (at_ 2024 3 4 11 0) in
  in_window now due
  /\ get_events_needing_reminders now [early; due] = Raise OverflowError.
Proof.
  cbv zeta. split.
  - unfold in_window. vm_compute. split; discriminate.
  - vm_compute. reflexivity.
Qed.

(** ** Free slots *)

Lemma date_eqb_eq a b : date_eqb a b = true <-> a = b.
Proof.
  destruct a as [ya ma da], b as [yb mb db]. unfold date_eqb. cbn.
  rewrite !andb_true_iff, !Z.eqb_eq. split.
  - intros [[-> ->] ->]. reflexivity.
  - intros [= -> -> ->]. auto.
Qed.

Lemma date_eqb_refl a : date_eqb a a = true.
Proof. now apply date_eqb_eq. Qed.

(** [max] never returns something earlier than its first argument. *)
Lemma max_ge_left c e : le c (max c e) = true.
Proof.
  unfold max. destruct (gt e c) eqn:E.
  - rewrite gt_lt in E. now apply lt_le.
  - apply le_refl.
Qed.

Lemma max_later c e :
  valid_datetime c -> valid_datetime e -> max c e = later c e.
Proof.
  intros Hc He. unfold max, later.
  destruct (gt e c) eqn:E.
  - apply (gt_us _ _ He Hc) in E.
    now apply Z.ltb_lt in E as ->.
  - destruct (to_us c <? to_us e) eqn:E'; [|reflexivity].
    apply Z.ltb_lt in E'. apply (gt_us _ _ He Hc) in E'. congruence.
Qed.

Lemma later_valid c e :
  valid_datetime c -> valid_datetime e -> valid_datetime (later c e).
Proof. intros. unfold later. now destruct (_ <? _). Qed.

Lemma later_ge c e : to_us c <= to_us (later c e).
Proof.
  unfold later. destruct (to_us c <? to_us e) eqn:E; [|lia].
  apply Z.ltb_lt in E. lia.
Qed.

(** The test [slot_duration >= duration_minutes] of the code, for a gap
    shorter than a day, is the comparison of the gap with the minimum. *)
Lemma short_gap_minutes m td g :
  delta_us td = g -> 0 < g < 86400000000 ->
  0 <= seconds td < 86400 -> 0 <= microseconds td < 1000000 ->
  (m <=? seconds td / 60) = (m * 60000000 <=? g).
Proof.
  unfold delta_us. intros E Hg Hs Hu.
  assert (days td = 0) by nia.
  destruct (m <=? seconds td / 60) eqn:E1; symmetry;
    [apply Z.leb_le; apply Z.leb_le in E1
    |apply Z.leb_gt; apply Z.leb_gt in E1];
    revert E1; zdiv.
Qed.

Lemma gap_test m c s :
  valid_datetime c -> valid_datetime s ->
  to_us s - to_us c < 86400000000 ->
  (if gt s c then
     td <- datetime_sub s c ;;
     Ok (m <=? seconds td / 60)
   else Ok false)
  = Ok (gap_long_enough m c s).
Proof.
  intros Hc Hs Hshort. unfold gap_long_enough.
  destruct (gt s c) eqn:E.
  - apply (gt_us _ _ Hs Hc) in E.
    destruct (datetime_sub_us s c Hs Hc) as (td & -> & Hd & Hsec & Hus).
    cbn [bind]. f_equal.
    rewrite (short_gap_minutes m td _ Hd) by (try lia; assumption).
    apply Z.ltb_lt in E as ->. reflexivity.
  - f_equal. destruct (to_us c <? to_us s) eqn:E'; [|reflexivity].
    apply Z.ltb_lt in E'. apply (gt_us _ _ Hs Hc) in E'. congruence.
Qed.

Section Day.

Variable target_date : date.
Hypothesis target_valid : valid_date target_date.

Lemma combine_us hh :
  0 <= hh <= 23 ->
  valid_datetime (combine target_date (at_hour hh))
  /\ to_us (combine target_date (at_hour hh))
     = day_start target_date + hh * 3600000000.
Proof.
  intros Hh. split.
  - split; [exact target_valid|].
    unfold valid_time, at_hour. cbn. apply check_time_fields_intro; lia.
  - unfold to_us, time_secs, day_start. cbn. ring.
Qed.

Lemma on_date_us dt :
  valid_datetime dt -> date_of dt = target_date ->
  day_start target_date <= to_us dt < day_start target_date + 86400000000.
Proof.
  intros [Hd Ht] E. pose proof (time_secs_range _ Ht).
  unfold to_us, day_start. rewrite E. lia.
Qed.

(** The loop of the code on the events of the day computes the walk of
    the specification. *)
Lemma free_slot_loop_walk m : forall day_events slots cursor,
  valid_events day_events ->
  (forall e, In e day_events -> date_of (start_time e) = target_date) ->
  valid_datetime cursor ->
  day_start target_date + 32400000000 <= to_us cursor ->
  free_slot_loop m (slots, cursor) day_events
  = Ok (slots ++ fst (walk m cursor day_events),
        snd (walk m cursor day_events))
  /\ valid_datetime (snd (walk m cursor day_events))
  /\ day_start target_date + 32400000000
     <= to_us (snd (walk m cursor day_events)).
Proof.
  induction day_events as [|e rest IH]; intros slots cursor Hv Hon Hc Hlo.
  - cbn. rewrite app_nil_r. auto.
  - destruct (Hv e (or_introl eq_refl)) as [Hs He].
    pose proof (on_date_us _ Hs (Hon e (or_introl eq_refl))) as Hday.
    cbn [free_slot_loop free_slot_step walk].
    pose proof (gap_test m cursor (start_time e) Hc Hs ltac:(lia)) as Hgap.
    assert (Hstep :
      (if gt (start_time e) cursor then
         td <- datetime_sub (start_time e) cursor ;;
         (if m <=? seconds td / 60
          then Ok (slots ++ [mkSlot cursor (start_time e)])
          else Ok slots)
       else Ok slots)
      = Ok (slots ++ (if gap_long_enough m cursor (start_time e)
                      then [mkSlot cursor (start_time e)] else []))).
    { destruct (gt (start_time e) cursor).
      - destruct (datetime_sub (start_time e) cursor) as [td|ex];
          cbn [bind] in *; [|discriminate].
        injection Hgap as <-.
        destruct (m <=? seconds td / 60); [reflexivity|].
        now rewrite app_nil_r.
      - injection Hgap as <-. now rewrite app_nil_r. }
    rewrite Hstep. cbn [bind].
    rewrite (max_later _ _ Hc He).
    specialize (IH (slots ++ (if gap_long_enough m cursor (start_time e)
                              then [mkSlot cursor (start_time e)] else []))
                   (later cursor (end_time e))
                   (fun x Hx => Hv x (or_intror Hx))
                   (fun x Hx => Hon x (or_intror Hx))
                   (later_valid _ _ Hc He)
                   ltac:(pose proof (later_ge cursor (end_time e)); lia)).
    destruct IH as (IH1 & IH2 & IH3). rewrite IH1.
    destruct (walk m (later cursor (end_time e)) rest) as [ws wf].
    cbn [fst snd] in *. rewrite <- app_assoc. auto.
Qed.

Lemma free_slots_refine evs m :
  valid_events evs ->
  get_free_time_slots evs target_date m
  = Ok (free_slots_spec evs target_date m).
Proof.
  intros Hv. unfold get_free_time_slots, free_slots_spec, get_events_for_date.
  rewrite sort_by_start_idem.
  set (day_events :=
         sort_by_start
           (filter (fun e => date_eqb (date_of (start_time e)) target_date)
                   evs)).
  assert (Hin : forall e, In e day_events ->
                          In e evs /\ date_of (start_time e) = target_date).
  { intros e He. unfold day_events in He.
    apply (Permutation_in _ (sort_by_start_perm _)) in He.
    apply filter_In in He. now rewrite date_eqb_eq in He. }
  destruct (combine_us 9 ltac:(lia)) as [Hv9 Hu9].
  destruct (combine_us 18 ltac:(lia)) as [Hv18 Hu18].
  destruct (free_slot_loop_walk m day_events []
              (combine target_date (at_hour 9)))
    as (Hloop & Hcv & Hclo).
  - intros e He. apply Hv. now apply Hin.
  - intros e He. now apply Hin.
  - exact Hv9.
  - lia.
  - rewrite Hloop. cbn [bind app].
    change (mktime 9 0 0 0) with (at_hour 9).
    change (mktime 18 0 0 0) with (at_hour 18).
    destruct (walk m (combine target_date (at_hour 9)) day_events)
      as [slots cursor].
    cbn [fst snd] in *.
    pose proof (gap_test m cursor (combine target_date (at_hour 18))
                  Hcv Hv18 ltac:(lia)) as Hgap.
    rewrite gt_lt in Hgap.
    destruct (lt cursor (combine target_date (at_hour 18))).
    + destruct (datetime_sub (combine target_date (at_hour 18)) cursor)
        as [td|ex]; cbn [bind] in *; [|discriminate].
      injection Hgap as <-.
      destruct (m <=? seconds td / 60); [reflexivity|].
      now rewrite app_nil_r.
    + injection Hgap as <-. now rewrite app_nil_r.
Qed.

End Day.

(** Whatever the events and their order, the loop only appends slots and
    never moves [current_time] backward. *)
Lemma free_slot_loop_monotone m : forall events0 slots cursor slots' cursor',
  free_slot_loop m (slots, cursor) events0 = Ok (slots', cursor') ->
  le cursor cursor' = true /\ exists added, slots' = slots ++ added.
Proof.
  induction events0 as [|e rest IH]; intros slots cursor slots' cursor' H.
  - cbn in H. injection H as <- <-. split; [apply le_refl|].
    exists []. now rewrite app_nil_r.
  - cbn [free_slot_loop free_slot_step] in H.
    destruct (if gt (start_time e) cursor then _ else _) as [slots1|ex] eqn:E1;
      cbn [bind] in H; [|discriminate].
    apply IH in H. destruct H as (Hle & added & ->).
    split.
    + eapply le_trans; [apply max_ge_left|exact Hle].
    + assert (exists a1, slots1 = slots ++ a1) as [a1 ->].
      { destruct (gt (start_time e) cursor).
        - destruct (datetime_sub (start_time e) cursor) as [td|ex];
            cbn [bind] in E1; [|discriminate].
          destruct (m <=? seconds td / 60); injection E1 as <-;
            [eexists; reflexivity|exists []; now rewrite app_nil_r].
        - injection E1 as <-. exists []. now rewrite app_nil_r. }
      exists (a1 ++ added). now rewrite app_assoc.
Qed.

Lemma later_monotone_walk m : forall day_events cursor,
  to_us cursor <= to_us (snd (walk m cursor day_events)).
Proof.
  induction day_events as [|e rest IH]; intros cursor; cbn; [lia|].
  specialize (IH (later cursor (end_time e))).
  destruct (walk m (later cursor (end_time e)) rest) as [ws wf].
  cbn [snd] in *. pose proof (later_ge cursor (end_time e)). lia.
Qed.

(** The events of the day in the order of the sort are the events that
    start on the date, each as often as stored, in ascending order of
    their start on the time line. *)
Lemma day_events_sorted_perm evs target_date :
  valid_events evs ->
  let on_day :=
    filter (fun e => date_eqb (date_of (start_time e)) target_date) evs in
  Permutation (sort_by_start on_day) on_day
  /\ starts_ascending (sort_by_start on_day).
Proof.
  intros Hv on_day. split; [apply sort_by_start_perm|].
  assert (Hin : forall e, In e (sort_by_start on_day) ->
                          valid_datetime (start_time e)).
  { intros e He.
    apply (Permutation_in _ (sort_by_start_perm _)) in He.
    apply filter_In in He. now apply Hv. }
  pose proof (sort_by_start_strongly_sorted on_day) as Hs.
  unfold starts_ascending.
  induction Hs as [|x l Hl IH Hhd]; constructor.
  - apply IH. intros e He. apply Hin. now right.
  - rewrite Forall_forall in *. intros y Hy.
    apply (le_us _ _ (Hin x (or_introl eq_refl)) (Hin y (or_intror Hy))).
    now apply Hhd.
Qed.

(** C3: [get_free_time_slots] always returns, and returns the slots of the
    walk the specification describes: over the day's events, each as often
    as stored and in ascending order of start, a cursor that starts at
    09:00, before each event the gap from the cursor to the event's start
    emitted when it lasts at least [duration_minutes], the cursor advanced
    to [max(cursor, event.end)], and a last gap up to 18:00 emitted when
    long enough.  In the loop the cursor never moves backward, whatever
    the order and the overlaps of the events.  With one event 10:00-11:00
    the slots for 30 minutes are 09:00-10:00 and 11:00-18:00, and for 90
    minutes only 11:00-18:00. *)
Theorem get_free_time_slots_spec :
  (forall evs target_date duration_minutes,
      valid_date target_date -> valid_events evs ->
      exists day_events,
        Permutation day_events
          (filter (fun e => date_eqb (date_of (start_time e)) target_date)
                  evs)
        /\ starts_ascending day_events
        /\ get_free_time_slots evs target_date duration_minutes
           = Ok (slots_of_walk day_events target_date duration_minutes))
  /\ (forall duration_minutes events0 slots cursor slots' cursor',
        free_slot_loop duration_minutes (slots, cursor) events0
        = Ok (slots', cursor') ->
        le cursor cursor' = true /\ exists added, slots' = slots ++ added)
  /\ (let day := mkdate 2024 3 4 in
      let evs := [sample_event "A" (at_ 2024 3 4 10 0) (at_ 2024 3 4 11 0)] in
      get_free_time_slots evs day 30
      = Ok [mkSlot (at_ 2024 3 4 9 0) (at_ 2024 3 4 10 0);
            mkSlot (at_ 2024 3 4 11 0) (at_ 2024 3 4 18 0)]
      /\ get_free_time_slots evs day 90
         = Ok [mkSlot (at_ 2024 3 4 11 0) (at_ 2024 3 4 18 0)]).
Proof.
  split; [|split].
  - intros evs target_date m Hd Hv.
    destruct (day_events_sorted_perm evs target_date Hv) as [Hp Hs].
    eexists. split; [exact Hp|]. split; [exact Hs|].
    now apply free_slots_refine.
  - intros m. apply free_slot_loop_monotone.
  - cbv zeta. split; vm_compute; reflexivity.
Qed.

Lemma sample_events_valid :
  valid_date (mkdate 2024 3 4)
  /\ valid_events [sample_event "A" (at_ 2024 3 4 10 0) (at_ 2024 3 4 11 0);
                   sample_event "B" (at_ 2024 3 4 10 30) (at_ 2024 3 4 12 0)].
Proof.
  split; [reflexivity|].
  intros e [<-|[<-|[]]]; repeat split.
Qed.

Lemma sample_events_valid_rev :
  valid_events [sample_event "B" (at_ 2024 3 4 10 30) (at_ 2024 3 4 12 0);
                sample_event "A" (at_ 2024 3 4 10 0) (at_ 2024 3 4 11 0)].
Proof. intros e [<-|[<-|[]]]; repeat split. Qed.

Lemma get_free_time_slots_spec_witness :
  exists day_events,
    starts_ascending day_events
    /\ get_free_time_slots
         [sample_event "B" (at_ 2024 3 4 10 30) (at_ 2024 3 4 12 0);
          sample_event "A" (at_ 2024 3 4 10 0) (at_ 2024 3 4 11 0)]
         (mkdate 2024 3 4) 60
       = Ok (slots_of_walk day_events (mkdate 2024 3 4) 60)
    /\ slots_of_walk day_events (mkdate 2024 3 4) 60
       = [mkSlot (at_ 2024 3 4 9 0) (at_ 2024 3 4 10 0);
          mkSlot (at_ 2024 3 4 12 0) (at_ 2024 3 4 18 0)].
Proof.
  destruct (proj1 get_free_time_slots_spec
              [sample_event "B" (at_ 2024 3 4 10 30) (at_ 2024 3 4 12 0);
               sample_event "A" (at_ 2024 3 4 10 0) (at_ 2024 3 4 11 0)]
              (mkdate 2024 3 4) 60
              (proj1 sample_events_valid) sample_events_valid_rev)
    as (day_events & _ & Hs & Heq).
  exists day_events. split; [exact Hs|]. split; [exact Heq|].
  assert (H : Ok (slots_of_walk day_events (mkdate 2024 3 4) 60)
              = Ok [mkSlot (at_ 2024 3 4 9 0) (at_ 2024 3 4 10 0);
                    mkSlot (at_ 2024 3 4 12 0) (at_ 2024 3 4 18 0)])
    by (rewrite <- Heq; reflexivity).
  now injection H.
Defined.

End QueryFacts.

Module SerialFacts.
Import PyDatetime PyStr PyIso Calendar Timeline Fields.
Import OrdinalFacts OrderFacts ArithFacts.

(** ** ISO 8601 text *)

Lemma digit_char_roundtrip d :
  0 <= d <= 9 -> digit_of_char (char_of_digit d) = Some d.
Proof.
  intros H.
  assert (Hc : d = 0 \/ d = 1 \/ d = 2 \/ d = 3 \/ d = 4 \/ d = 5 \/ d = 6
               \/ d = 7 \/ d = 8 \/ d = 9) by lia.
  repeat (destruct Hc as [->|Hc]; [reflexivity|]). subst. reflexivity.
Qed.

Lemma int_digits2 a b :
  0 <= a <= 9 -> 0 <= b <= 9 ->
  int (String (char_of_digit a) (String (char_of_digit b) ""))
  = Ok (a * 10 + b).
Proof.
  intros Ha Hb. unfold int, int_acc.
  rewrite !digit_char_roundtrip by assumption. reflexivity.
Qed.

Lemma int_digits4 a b c d :
  0 <= a <= 9 -> 0 <= b <= 9 -> 0 <= c <= 9 -> 0 <= d <= 9 ->
  int (String (char_of_digit a) (String (char_of_digit b)
        (String (char_of_digit c) (String (char_of_digit d) ""))))
  = Ok (((a * 10 + b) * 10 + c) * 10 + d).
Proof.
  intros Ha Hb Hc Hd. unfold int, int_acc.
  rewrite !digit_char_roundtrip by assumption. reflexivity.
Qed.

Lemma int_digits6 a b c d e f :
  0 <= a <= 9 -> 0 <= b <= 9 -> 0 <= c <= 9 -> 0 <= d <= 9 ->
  0 <= e <= 9 -> 0 <= f <= 9 ->
  int (String (char_of_digit a) (String (char_of_digit b)
        (String (char_of_digit c) (String (char_of_digit d)
           (String (char_of_digit e) (String (char_of_digit f) ""))))))
  = Ok (((((a * 10 + b) * 10 + c) * 10 + d) * 10 + e) * 10 + f).
Proof.
  intros Ha Hb Hc Hd He Hf. unfold int, int_acc.
  rewrite !digit_char_roundtrip by assumption. reflexivity.
Qed.

Lemma format_2d n :
  0 <= n < 100 ->
  format_0d 2 n
  = String (char_of_digit (n / 10)) (String (char_of_digit (n mod 10)) "")
  /\ 0 <= n / 10 <= 9 /\ 0 <= n mod 10 <= 9
  /\ n / 10 * 10 + n mod 10 = n.
Proof.
  intros Hn. unfold format_0d.
  replace (n <? 10 ^ Z.of_nat 2) with true
    by (symmetry; apply Z.ltb_lt; cbn; lia).
  cbn [fixed_digits append].
  replace (n / 10 mod 10) with (n / 10) by zdiv.
  repeat split; zdiv.
Qed.

Lemma format_4d n :
  0 <= n < 10000 ->
  format_0d 4 n
  = String (char_of_digit (n / 1000))
      (String (char_of_digit (n / 100 mod 10))
         (String (char_of_digit (n / 10 mod 10))
            (String (char_of_digit (n mod 10)) "")))
  /\ (0 <= n / 1000 <= 9 /\ 0 <= n / 100 mod 10 <= 9
      /\ 0 <= n / 10 mod 10 <= 9 /\ 0 <= n mod 10 <= 9)
  /\ ((n / 1000 * 10 + n / 100 mod 10) * 10 + n / 10 mod 10) * 10 + n mod 10
     = n.
Proof.
  intros Hn. unfold format_0d.
  replace (n <? 10 ^ Z.of_nat 4) with true
    by (symmetry; apply Z.ltb_lt; cbn; lia).
  cbn [fixed_digits append].
  replace (n / 10 / 10 / 10 mod 10) with (n / 1000) by zdiv.
  replace (n / 10 / 10 mod 10) with (n / 100 mod 10) by zdiv.
  repeat split; zdiv.
Qed.

Lemma format_6d n :
  0 <= n < 1000000 ->
  format_0d 6 n
  = String (char_of_digit (n / 100000))
      (String (char_of_digit (n / 10000 mod 10))
         (String (char_of_digit (n / 1000 mod 10))
            (String (char_of_digit (n / 100 mod 10))
               (String (char_of_digit (n / 10 mod 10))
                  (String (char_of_digit (n mod 10)) "")))))
  /\ (0 <= n / 100000 <= 9 /\ 0 <= n / 10000 mod 10 <= 9
      /\ 0 <= n / 1000 mod 10 <= 9 /\ 0 <= n / 100 mod 10 <= 9
      /\ 0 <= n / 10 mod 10 <= 9 /\ 0 <= n mod 10 <= 9)
  /\ ((((n / 100000 * 10 + n / 10000 mod 10) * 10 + n / 1000 mod 10) * 10
       + n / 100 mod 10) * 10 + n / 10 mod 10) * 10 + n mod 10
     = n.
Proof.
  intros Hn. unfold format_0d.
  replace (n <? 10 ^ Z.of_nat 6) with true
    by (symmetry; apply Z.ltb_lt; cbn; lia).
  cbn [fixed_digits append].
  replace (n / 10 / 10 / 10 / 10 / 10 mod 10) with (n / 100000) by zdiv.
  replace (n / 10 / 10 / 10 / 10 mod 10) with (n / 10000 mod 10) by zdiv.
  replace (n / 10 / 10 / 10 mod 10) with (n / 1000 mod 10) by zdiv.
  replace (n / 10 / 10 mod 10) with (n / 100 mod 10) by zdiv.
  repeat split; zdiv.
Qed.

Lemma days_in_month_le y m : 1 <= m <= 12 -> days_in_month y m <= 31.
Proof.
  intros Hm. unfold days_in_month.
  month_cases m; eval_tables; destruct (is_leap y); cbn; lia.
Qed.

Ltac iso_compute :=
  cbv [fromisoformat parse_isoformat_date parse_hh_mm_ss_ff parse_hh_mm_ss
       expect_char slice slice_from slice_to substring String.length get
       truthy append bind Nat.sub Nat.add Nat.ltb Nat.leb Nat.eqb negb orb
       andb String.eqb Ascii.eqb Bool.eqb rev app].

Lemma fromisoformat_isoformat dt :
  valid_datetime dt -> fromisoformat (isoformat dt) = Ok dt.
Proof.
  destruct dt as [[y m d] [hh mm ss us]]. intros [Hd Ht].
  apply check_date_fields_inv in Hd. apply check_time_fields_inv in Ht.
  cbn [year month day hour minute second microsecond date_of time_of] in *.
  destruct Hd as (Hy & Hm & Hdd). destruct Ht as (Hh & Hmi & Hs & Hu).
  pose proof (days_in_month_le y m Hm) as Hdim.
  unfold MINYEAR, MAXYEAR in Hy.
  unfold isoformat, format_time.
  cbn [year month day hour minute second microsecond date_of time_of].
  destruct (format_4d y ltac:(lia)) as (-> & (Hy1 & Hy2 & Hy3 & Hy4) & Ey).
  destruct (format_2d m ltac:(lia)) as (-> & Hm1 & Hm2 & Em).
  destruct (format_2d d ltac:(lia)) as (-> & Hd1 & Hd2 & Ed).
  destruct (format_2d hh ltac:(lia)) as (-> & Hh1 & Hh2 & Eh).
  destruct (format_2d mm ltac:(lia)) as (-> & Hmi1 & Hmi2 & Emi).
  destruct (format_2d ss ltac:(lia)) as (-> & Hs1 & Hs2 & Es).
  assert (Hnew : new_datetime y m d hh mm ss us
                 = Ok (combine (mkdate y m d) (mktime hh mm ss us))).
  { unfold new_datetime, new_date, new_time.
    rewrite check_date_fields_intro by (unfold MINYEAR, MAXYEAR; lia).
    rewrite check_time_fields_intro by lia. reflexivity. }
  destruct (us =? 0) eqn:E0.
  - apply Z.eqb_eq in E0. subst us.
    iso_compute.
    rewrite int_digits4, !int_digits2 by assumption.
    rewrite Ey, Em, Ed, Eh, Emi, Es. exact Hnew.
  - apply Z.eqb_neq in E0.
    destruct (format_6d us ltac:(lia)) as (-> & (? & ? & ? & ? & ? & ?) & Eu).
    iso_compute.
    rewrite int_digits4, !int_digits2, int_digits6 by assumption.
    rewrite Ey, Em, Ed, Eh, Emi, Es, Eu. exact Hnew.
Qed.

(** ** Serialising events *)

Lemma from_dict_to_dict now e :
  valid_datetime (start_time e) -> valid_datetime (end_time e) ->
  valid_datetime (created_at e) ->
  from_dict now (to_dict e) = Ok e.
Proof.
  intros Hs He Hc. destruct e as [i t d st en loc att rem allday rec cr].
  cbn [start_time end_time created_at] in *.
  unfold from_dict, to_dict, asdict.
  cbn [id title description start_time end_time location attendees
       reminder_minutes is_all_day recurrence created_at].
  cbn [dict_set dict_item dict_get String.eqb Ascii.eqb Bool.eqb bind
       fromisoformat_val].
  rewrite (fromisoformat_isoformat st Hs).
  cbn [dict_set dict_item dict_get String.eqb Ascii.eqb Bool.eqb bind
       fromisoformat_val].
  rewrite (fromisoformat_isoformat en He).
  cbn [dict_set dict_item dict_get String.eqb Ascii.eqb Bool.eqb bind
       fromisoformat_val].
  rewrite (fromisoformat_isoformat cr Hc).
  reflexivity.
Qed.


Lemma map_from_dict_to_dict now evs :
  (forall e, In e evs -> wf_event e) ->
  map_result (from_dict now) (map to_dict evs) = Ok evs.
Proof.
  induction evs as [|e evs IH]; intros H; cbn [map map_result];
    [reflexivity|].
  destruct (H e (or_introl eq_refl)) as (Hs & He & Hc).
  rewrite (from_dict_to_dict now e Hs He Hc). cbn [bind].
  rewrite IH by (intros x Hx; apply H; now right). reflexivity.
Qed.

Lemma isoformat_length dt :
  valid_datetime dt ->
  String.length (isoformat dt)
  = if microsecond (time_of dt) =? 0 then 19%nat else 26%nat.
Proof.
  destruct dt as [[y m d] [hh mm ss us]]. intros [Hd Ht].
  apply check_date_fields_inv in Hd. apply check_time_fields_inv in Ht.
  cbn [year month day hour minute second microsecond date_of time_of] in *.
  destruct Hd as (Hy & Hm & Hdd). destruct Ht as (Hh & Hmi & Hs & Hu).
  pose proof (days_in_month_le y m Hm) as Hdim.
  unfold MINYEAR, MAXYEAR in Hy.
  unfold isoformat, format_time.
  cbn [year month day hour minute second microsecond date_of time_of].
  destruct (format_4d y ltac:(lia)) as (-> & _).
  destruct (format_2d m ltac:(lia)) as (-> & _).
  destruct (format_2d d ltac:(lia)) as (-> & _).
  destruct (format_2d hh ltac:(lia)) as (-> & _).
  destruct (format_2d mm ltac:(lia)) as (-> & _).
  destruct (format_2d ss ltac:(lia)) as (-> & _).
  destruct (us =? 0); [reflexivity|].
  destruct (format_6d us ltac:(lia)) as (-> & _). reflexivity.
Qed.

(** C7: an event is written with its three timestamps as ISO 8601 strings
    without offset ([YYYY-MM-DDTHH:MM:SS], followed by [.ffffff] when the
    microseconds are not zero), and reading back what was written gives
    the same records, field for field: for one timestamp, for the list of
    dictionaries of a collection, and for a save followed by a load. *)
Theorem serialisation_roundtrip :
  forall now evs,
    (forall e, In e evs -> wf_event e) ->
    (forall e, In e evs ->
       dict_get "start_time" (to_dict e)
       = Some (PStr (isoformat (start_time e)))
       /\ dict_get "end_time" (to_dict e)
          = Some (PStr (isoformat (end_time e)))
       /\ dict_get "created_at" (to_dict e)
          = Some (PStr (isoformat (created_at e)))
       /\ String.length (isoformat (start_time e))
          = (if microsecond (time_of (start_time e)) =? 0
             then 19%nat else 26%nat)
       /\ fromisoformat (isoformat (start_time e)) = Ok (start_time e)
       /\ fromisoformat (isoformat (end_time e)) = Ok (end_time e)
       /\ fromisoformat (isoformat (created_at e)) = Ok (created_at e))
    /\ map_result (from_dict now) (map to_dict evs) = Ok evs
    /\ (forall file0 log0,
          events (_load_events now
                    (_save_events WriteOk (mkState evs file0 log0)))
          = evs).
Proof.
  intros now evs Hwf. split; [|split].
  - intros e He. destruct (Hwf e He) as (Hs & Hen & Hc).
    repeat split; try reflexivity.
    + now apply isoformat_length.
    + now apply fromisoformat_isoformat.
    + now apply fromisoformat_isoformat.
    + now apply fromisoformat_isoformat.
  - now apply map_from_dict_to_dict.
  - intros file0 log0. unfold _load_events, _save_events.
    cbn [disk events log].
    now rewrite (map_from_dict_to_dict now evs Hwf).
Qed.

Lemma sample_events_wf :
  forall e,
    In e [sample_event "A" (at_ 2024 3 4 10 0) (at_ 2024 3 4 11 0);
          mkEvent "B" "Lunch" "with Ann" 
            (combine (mkdate 2024 2 29) (mktime 12 30 15 250000))
            (combine (mkdate 2024 2 29) (mktime 13 0 0 0))
            "Cafe" ["ann@example.org"] 0 true "weekly"
            (combine (mkdate 2023 12 31) (mktime 23 59 59 999999))] ->
    wf_event e.
Proof. intros e [<-|[<-|[]]]; repeat split. Qed.

Lemma serialisation_roundtrip_witness :
  map_result (from_dict (at_ 2024 3 1 8 0))
    (map to_dict
       [sample_event "A" (at_ 2024 3 4 10 0) (at_ 2024 3 4 11 0);
        mkEvent "B" "Lunch" "with Ann" 
          (combine (mkdate 2024 2 29) (mktime 12 30 15 250000))
          (combine (mkdate 2024 2 29) (mktime 13 0 0 0))
          "Cafe" ["ann@example.org"] 0 true "weekly"
          (combine (mkdate 2023 12 31) (mktime 23 59 59 999999))])
  = Ok [sample_event "A" (at_ 2024 3 4 10 0) (at_ 2024 3 4 11 0);
        mkEvent "B" "Lunch" "with Ann" 
          (combine (mkdate 2024 2 29) (mktime 12 30 15 250000))
          (combine (mkdate 2024 2 29) (mktime 13 0 0 0))
          "Cafe" ["ann@example.org"] 0 true "weekly"
          (combine (mkdate 2023 12 31) (mktime 23 59 59 999999))].
Proof.
  exact (proj1 (proj2 (serialisation_roundtrip (at_ 2024 3 1 8 0) _
                         sample_events_wf))).
Defined.

End SerialFacts.

Module GridFacts.
Import PyDatetime PyStr PyIso Calendar Timeline Fields.
Import OrdinalFacts OrderFacts ArithFacts QueryFacts.

(** ** Dates and days *)

Lemma timedelta_days_ok n :
  Z.abs n <= 999999999 -> timedelta_days n = Ok (mkdelta n 0 0).
Proof.
  intros Hn. unfold timedelta_days. rewrite new_timedelta_canon. cbv zeta.
  replace ((n * 86400 + 0) * 1000000 + 0) with (n * 86400000000) by ring.
  rewrite Z.div_mul by lia.
  replace (999999999 <? Z.abs n) with false by (symmetry; apply Z.ltb_ge; lia).
  f_equal. f_equal; zdiv.
Qed.

Lemma date_add_days d n :
  valid_date d ->
  1 <= toordinal d + n <= MAXORDINAL ->
  date_add d (mkdelta n 0 0) = Ok (fromordinal (toordinal d + n)).
Proof.
  intros Hd Ho. unfold date_add. cbn [days].
  replace ((0 <? toordinal d + n) && (toordinal d + n <=? MAXORDINAL))
    with true; [reflexivity|].
  symmetry. apply andb_true_iff. rewrite Z.ltb_lt, Z.leb_le. lia.
Qed.

Lemma date_sub_days d n :
  valid_date d -> 0 <= n <= 999999999 ->
  1 <= toordinal d - n ->
  date_sub d (mkdelta n 0 0) = Ok (fromordinal (toordinal d - n)).
Proof.
  intros Hd Hn Ho. unfold date_sub. cbn [days].
  fold (timedelta_days (- n)). rewrite timedelta_days_ok by lia.
  cbn [bind]. pose proof (toordinal_range d Hd).
  rewrite date_add_days by (assumption || lia).
  f_equal.
Qed.

Lemma date_sub_underflow d n :
  0 <= n <= 999999999 -> toordinal d - n < 1 ->
  date_sub d (mkdelta n 0 0) = Raise OverflowError.
Proof.
  intros Hn Ho. unfold date_sub. cbn [days].
  fold (timedelta_days (- n)). rewrite timedelta_days_ok by lia.
  cbn [bind]. unfold date_add. cbn [days].
  replace (0 <? toordinal d + - n) with false
    by (symmetry; apply Z.ltb_ge; lia).
  reflexivity.
Qed.

Lemma first_of_month_valid y m :
  MINYEAR <= y <= MAXYEAR -> 1 <= m <= 12 -> valid_date (mkdate y m 1).
Proof.
  intros Hy Hm. unfold valid_date. cbn.
  destruct (month_span y m Hm) as (_ & H28 & _).
  apply check_date_fields_intro; lia.
Qed.

(** The first of a month is not before 1 February of year 1, unless it
    is 1 January of year 1, and not after 1 November 9999, unless it is
    1 December 9999. *)
Lemma first_of_month_lower y m :
  MINYEAR <= y <= MAXYEAR -> 1 <= m <= 12 ->
  (y, m) <> (1, 1) -> 32 <= ymd2ord y m 1.
Proof.
  unfold MINYEAR, MAXYEAR. intros Hy Hm H1.
  assert (Hlo : ymd2ord 1 2 1 = 32) by reflexivity.
  rewrite <- Hlo.
  destruct (Z.eq_dec y 1) as [->|Hy1].
  - destruct (Z.eq_dec m 2) as [->|Hm2]; [lia|].
    assert (m <> 1) by congruence.
    apply Z.lt_le_incl. apply ymd2ord_lt_month; try lia.
    vm_compute. discriminate.
  - apply Z.lt_le_incl. apply ymd2ord_lt_year; try lia.
    vm_compute. discriminate.
Qed.

Lemma first_of_month_upper y m :
  MINYEAR <= y <= MAXYEAR -> 1 <= m <= 12 ->
  (y, m) <> (9999, 12) -> ymd2ord y m 1 <= MAXORDINAL - 60.
Proof.
  unfold MINYEAR, MAXYEAR. intros Hy Hm H2.
  assert (Hhi : ymd2ord 9999 11 1 = MAXORDINAL - 60) by reflexivity.
  rewrite <- Hhi.
  destruct (Z.eq_dec y 9999) as [->|Hy9].
  - destruct (Z.eq_dec m 11) as [->|Hm11]; [lia|].
    assert (m <> 12) by congruence.
    apply Z.lt_le_incl. apply ymd2ord_lt_month; try lia.
    destruct (month_span 9999 m Hm) as (_ & H28 & _). lia.
  - apply Z.lt_le_incl. apply ymd2ord_lt_year; try lia.
    destruct (month_span y m Hm) as (_ & H28 & _). lia.
Qed.

(** ** The dictionary of events by date *)

Lemma by_date_get_in k d v :
  by_date_get k d = Some v -> In (k, v) d.
Proof.
  induction d as [|[k' v'] d IH]; cbn; [discriminate|].
  destruct (date_eqb k' k) eqn:E.
  - apply date_eqb_eq in E. subst. intros [= ->]. now left.
  - intros H. right. now apply IH.
Qed.

Lemma by_date_append_grouped evs e d :
  In e evs -> grouped evs d ->
  grouped evs (by_date_append (date_of (start_time e)) e d).
Proof.
  intros He. induction d as [|[k' v'] d IH]; intros Hg k v Hin x Hx.
  - cbn in Hin. destruct Hin as [[= <- <-]|[]].
    destruct Hx as [<-|[]]. auto.
  - cbn in Hin. destruct (date_eqb k' (date_of (start_time e))) eqn:E.
    + destruct Hin as [[= <- <-]|Hin].
      * apply in_app_or in Hx. destruct Hx as [Hx|[<-|[]]].
        -- apply (Hg k' v'); [now left|exact Hx].
        -- apply date_eqb_eq in E. auto.
      * apply (Hg k v); [now right|exact Hx].
    + destruct Hin as [[= <- <-]|Hin].
      * apply (Hg k' v'); [now left|exact Hx].
      * apply (IH (fun k0 v0 H0 => Hg k0 v0 (or_intror H0)) k v Hin x Hx).
Qed.

Lemma group_by_date_grouped evs all_events :
  (forall e, In e all_events -> In e evs) ->
  grouped evs (group_by_date all_events).
Proof.
  unfold group_by_date.
  assert (H : forall l d,
             (forall e, In e l -> In e evs) -> grouped evs d ->
             grouped evs
               (fold_left
                  (fun d0 event =>
                     by_date_append (date_of (start_time event)) event d0)
                  l d)).
  { induction l as [|e l IH]; intros d Hl Hd; cbn; [exact Hd|].
    apply IH; [intros x Hx; apply Hl; now right|].
    apply by_date_append_grouped; [apply Hl; now left|exact Hd]. }
  intros Hall. apply H; [exact Hall|]. intros k v [].
Qed.

Lemma get_events_for_month_in evs y m e :
  In e (get_events_for_month evs y m) -> In e evs.
Proof.
  unfold get_events_for_month. intros H.
  apply (Permutation_in _ (sort_by_start_perm _)) in H.
  now apply filter_In in H.
Qed.

(** ** The loops over days and weeks *)

Section Grid.

Variables (year0 month0 : Z) (today : date) (events_by_date : by_date).

Lemma map_seq_offset {A : Type} (f : nat -> A) a : forall b s,
  map f (seq (s + a) b) = map (fun k => f (k + a)%nat) (seq s b).
Proof.
  induction b as [|b IH]; intros s; cbn; [reflexivity|].
  f_equal. apply (IH (S s)).
Qed.

Lemma cells_from_app o a b :
  cells_from year0 month0 today events_by_date o (a + b)
  = cells_from year0 month0 today events_by_date o a
    ++ cells_from year0 month0 today events_by_date (o + Z.of_nat a) b.
Proof.
  unfold cells_from. rewrite seq_app, map_app. f_equal.
  rewrite (map_seq_offset _ a b 0). apply map_ext. intros k.
  do 2 f_equal. lia.
Qed.

Lemma cells_from_length o n :
  List.length (cells_from year0 month0 today events_by_date o n) = n.
Proof. unfold cells_from. now rewrite length_map, length_seq. Qed.

Lemma cells_from_nth o n i c :
  nth_error (cells_from year0 month0 today events_by_date o n) i = Some c ->
  (i < n)%nat
  /\ c = make_cell year0 month0 today events_by_date
           (fromordinal (o + Z.of_nat i)).
Proof.
  intros H.
  assert (Hi : (i < n)%nat).
  { rewrite <- (cells_from_length o n). apply nth_error_Some. congruence. }
  split; [exact Hi|].
  unfold cells_from in H. rewrite nth_error_map in H.
  rewrite nth_error_seq in H.
  destruct (Nat.ltb_spec i n); [|lia].
  cbn in H. now injection H as <-.
Qed.

Lemma week_loop_spec : forall day_nums week_data o,
  1 <= o -> o + Z.of_nat (List.length day_nums) <= MAXORDINAL ->
  week_loop year0 month0 today events_by_date day_nums week_data
    (fromordinal o)
  = Ok (week_data
        ++ cells_from year0 month0 today events_by_date o
             (List.length day_nums),
        fromordinal (o + Z.of_nat (List.length day_nums))).
Proof.
  induction day_nums as [|x rest IH]; intros week_data o Hlo Hhi.
  - cbn. now rewrite app_nil_r, Z.add_0_r.
  - cbn [week_loop List.length].
    rewrite timedelta_days_ok by lia. cbn [bind].
    cbn [List.length] in Hhi.
    rewrite date_add_days;
      [|apply fromordinal_valid; lia|rewrite toordinal_fromordinal; lia].
    cbn [bind]. rewrite toordinal_fromordinal by lia.
    rewrite IH by lia.
    f_equal. f_equal.
    + change (S (List.length rest)) with (1 + List.length rest)%nat.
      rewrite cells_from_app, <- app_assoc. f_equal.
      change (Z.of_nat 1) with 1. unfold cells_from. cbn [seq map app].
      change (Z.of_nat 0) with 0. now rewrite Z.add_0_r.
    + f_equal. lia.
Qed.

Lemma month_loop_spec : forall week_nums calendar_data o,
  1 <= o -> o + 7 * Z.of_nat (List.length week_nums) <= MAXORDINAL ->
  month_loop year0 month0 today events_by_date week_nums calendar_data
    (fromordinal o)
  = Ok (calendar_data
        ++ weeks_from year0 month0 today events_by_date o
             (List.length week_nums),
        fromordinal (o + 7 * Z.of_nat (List.length week_nums))).
Proof.
  induction week_nums as [|x rest IH]; intros calendar_data o Hlo Hhi.
  - cbn. now rewrite app_nil_r, Z.add_0_r.
  - cbn [month_loop List.length]. cbn [List.length] in Hhi.
    rewrite (week_loop_spec (seq 0 7) [] o Hlo)
      by (rewrite length_seq; lia).
    rewrite length_seq. cbn [bind app].
    rewrite IH by lia.
    f_equal. f_equal.
    + cbn [weeks_from]. now rewrite <- app_assoc.
    + f_equal. lia.
Qed.

Lemma weeks_from_length o w :
  List.length (weeks_from year0 month0 today events_by_date o w) = w.
Proof.
  revert o. induction w as [|w IH]; intros o; cbn [weeks_from List.length];
    [reflexivity|].
  now rewrite IH.
Qed.

Lemma weeks_from_rows o w :
  Forall (fun week => List.length week = 7%nat)
         (weeks_from year0 month0 today events_by_date o w).
Proof.
  revert o. induction w as [|w IH]; intros o; cbn [weeks_from]; constructor.
  - apply cells_from_length.
  - apply IH.
Qed.

Lemma weeks_from_concat o w :
  List.concat (weeks_from year0 month0 today events_by_date o w)
  = cells_from year0 month0 today events_by_date o (7 * w).
Proof.
  revert o. induction w as [|w IH]; intros o; [reflexivity|].
  cbn [weeks_from List.concat]. rewrite IH.
  replace (7 * S w)%nat with (7 + 7 * w)%nat by lia.
  now rewrite cells_from_app.
Qed.

End Grid.

Lemma make_cell_facts evs year0 month0 today events_by_date current_date :
  grouped evs events_by_date ->
  let c := make_cell year0 month0 today events_by_date current_date in
  cell_date c = current_date
  /\ cell_day c = day current_date
  /\ (is_today c = true <-> current_date = today)
  /\ (forall e, In e (cell_events c) ->
        In e evs /\ date_of (start_time e) = current_date).
Proof.
  intros Hg. cbv zeta. unfold make_cell.
  cbn [cell_date cell_day is_today cell_events].
  split; [reflexivity|]. split; [reflexivity|].
  split; [apply date_eqb_eq|].
  intros e He.
  destruct (by_date_get current_date events_by_date) as [v|] eqn:E;
    [|destruct He].
  apply by_date_get_in in E. now apply (Hg _ _ E).
Qed.

(** ** The month grid *)

Lemma new_date_first y m :
  MINYEAR <= y <= MAXYEAR -> 1 <= m <= 12 ->
  new_date y m 1 = Ok (mkdate y m 1).
Proof.
  intros Hy Hm. unfold new_date.
  pose proof (first_of_month_valid y m Hy Hm) as Hv.
  unfold valid_date in Hv. cbn in Hv. now rewrite Hv.
Qed.

(** The day before the first of the next month exists. *)
Lemma last_day_ok y m :
  MINYEAR <= y <= MAXYEAR -> 1 <= m <= 12 -> (y, m) <> (9999, 12) ->
  exists last_day,
    (if m =? 12 then d <- new_date (y + 1) 1 1 ;; date_sub d (mkdelta 1 0 0)
     else d <- new_date y (m + 1) 1 ;; date_sub d (mkdelta 1 0 0))
    = Ok last_day.
Proof.
  unfold MINYEAR, MAXYEAR. intros Hy Hm Hne.
  destruct (m =? 12) eqn:E.
  - apply Z.eqb_eq in E. subst m.
    assert (y <> 9999) by congruence.
    rewrite new_date_first by (unfold MINYEAR, MAXYEAR; lia). cbn [bind].
    pose proof (first_of_month_lower (y + 1) 1
                  ltac:(unfold MINYEAR, MAXYEAR; lia) ltac:(lia)
                  ltac:(intros [= ? ]; lia)) as Hlo.
    rewrite date_sub_days; [eauto| |lia|unfold toordinal; cbn; lia].
    apply first_of_month_valid; unfold MINYEAR, MAXYEAR; lia.
  - apply Z.eqb_neq in E.
    rewrite new_date_first by (unfold MINYEAR, MAXYEAR; lia). cbn [bind].
    pose proof (first_of_month_lower y (m + 1)
                  ltac:(unfold MINYEAR, MAXYEAR; lia) ltac:(lia)
                  ltac:(intros [= ? ?]; lia)) as Hlo.
    rewrite date_sub_days; [eauto| |lia|unfold toordinal; cbn; lia].
    apply first_of_month_valid; unfold MINYEAR, MAXYEAR; lia.
Qed.

(** The value of [get_calendar_matrix]: six weeks of seven cells from the
    ordinal [o] of the grid's first day. *)
Lemma get_calendar_matrix_value now today evs oy om :
  let y := or_default oy (year (date_of now)) in
  let m := or_default om (month (date_of now)) in
  MINYEAR <= y <= MAXYEAR -> 1 <= m <= 12 ->
  (y, m) <> (1, 1) -> (y, m) <> (9999, 12) ->
  exists mx events_by_date,
    get_calendar_matrix now today evs oy om = Ok mx
    /\ grouped evs events_by_date
    /\ calendar_matrix mx
       = weeks_from y m today events_by_date
           (toordinal (mkdate y m 1)
            - (weekday (mkdate y m 1) + 1) mod 7) 6.
Proof.
  intros y m Hy Hm Hne1 Hne2.
  unfold get_calendar_matrix.
  change (match oy with None => year (date_of now) | Some y0 => y0 end)
    with y.
  change (match om with None => month (date_of now) | Some m0 => m0 end)
    with m.
  rewrite (new_date_first y m Hy Hm). cbn [bind].
  rewrite timedelta_days_ok by lia. cbn [bind].
  destruct (last_day_ok y m Hy Hm Hne2) as [last_day ->]. cbn [bind].
  pose proof (first_of_month_valid y m Hy Hm) as Hv.
  pose proof (first_of_month_lower y m Hy Hm Hne1) as Hlo.
  pose proof (first_of_month_upper y m Hy Hm Hne2) as Hhi.
  set (first_day := mkdate y m 1) in *.
  change (ymd2ord y m 1) with (toordinal first_day) in Hlo, Hhi.
  set (wd := (weekday first_day + 1) mod 7).
  assert (Hwd : 0 <= wd <= 6) by (unfold wd; zdiv).
  rewrite timedelta_days_ok by lia. cbn [bind].
  rewrite date_sub_days by (assumption || lia). cbn [bind]. cbv zeta.
  set (o := toordinal first_day - wd).
  set (start_date := fromordinal o).
  assert (Hsd : start_date = fromordinal o) by reflexivity.
  clearbody start_date.
  set (all_events :=
         if negb (month start_date =? m) || negb (year start_date =? y)
         then get_events_for_month evs y m
              ++ get_events_for_month evs (year start_date)
                   (month start_date)
         else get_events_for_month evs y m).
  rewrite Hsd.
  rewrite (month_loop_spec y m today (group_by_date all_events)
             (seq 0 6) [] o)
    by (rewrite ?length_seq; unfold MAXORDINAL in *; lia).
  rewrite length_seq. cbn [bind app].
  eexists. exists (group_by_date all_events).
  split; [reflexivity|]. split; [|reflexivity].
  apply group_by_date_grouped. intros e He. unfold all_events in He.
  destruct (negb (month start_date =? m) || negb (year start_date =? y)).
  - apply in_app_or in He.
    destruct He as [He|He]; eapply get_events_for_month_in; eassumption.
  - eapply get_events_for_month_in; eassumption.
Qed.

(** C8 (as the code has it): for every year from 1 to 9999 and month from
    1 to 12, except January of year 1 and December 9999, the grid has six
    rows of seven cells, 42 cells in all, that hold consecutive dates from
    the Sunday on or before the first of the month; a cell is marked
    [is_today] exactly when its date is the current date; and every event
    listed in a cell is a stored event whose [start_time] has the date of
    the cell. *)
Theorem get_calendar_matrix_grid :
  forall now today evs oy om,
    let y := or_default oy (year (date_of now)) in
    let m := or_default om (month (date_of now)) in
    MINYEAR <= y <= MAXYEAR -> 1 <= m <= 12 ->
    (y, m) <> (1, 1) -> (y, m) <> (9999, 12) ->
    exists mx o,
      get_calendar_matrix now today evs oy om = Ok mx
      /\ List.length (calendar_matrix mx) = 6%nat
      /\ Forall (fun week => List.length week = 7%nat) (calendar_matrix mx)
      /\ List.length (List.concat (calendar_matrix mx)) = 42%nat
      /\ (o + 6) mod 7 = 6
      /\ toordinal (mkdate y m 1) - 6 <= o <= toordinal (mkdate y m 1)
      /\ forall i c,
           nth_error (List.concat (calendar_matrix mx)) i = Some c ->
           valid_date (cell_date c)
           /\ toordinal (cell_date c) = o + Z.of_nat i
           /\ weekday (cell_date c) = (6 + Z.of_nat i) mod 7
           /\ cell_day c = day (cell_date c)
           /\ (is_today c = true <-> cell_date c = today)
           /\ (forall e, In e (cell_events c) ->
                 In e evs /\ date_of (start_time e) = cell_date c).
Proof.
  intros now today evs oy om y m Hy Hm Hne1 Hne2.
  destruct (get_calendar_matrix_value now today evs oy om Hy Hm Hne1 Hne2)
    as (mx & ebd & Hmx & Hg & Hcells).
  fold y m in Hcells.
  pose proof (first_of_month_lower y m Hy Hm Hne1) as Hlo.
  pose proof (first_of_month_upper y m Hy Hm Hne2) as Hhi.
  set (first_day := mkdate y m 1) in *.
  change (ymd2ord y m 1) with (toordinal first_day) in Hlo, Hhi.
  set (o := toordinal first_day - (weekday first_day + 1) mod 7) in *.
  assert (Ho : (o + 6) mod 7 = 6 /\ toordinal first_day - 6 <= o
               /\ o <= toordinal first_day)
    by (unfold o, weekday; zdiv).
  exists mx, o. split; [exact Hmx|]. rewrite Hcells.
  split; [apply weeks_from_length|].
  split; [apply weeks_from_rows|].
  rewrite weeks_from_concat.
  split; [apply cells_from_length|].
  split; [tauto|]. split; [lia|].
  intros i c Hc. apply cells_from_nth in Hc. destruct Hc as [Hi ->].
  assert (Hr : 1 <= o + Z.of_nat i <= MAXORDINAL)
    by (unfold MAXORDINAL in *; lia).
  destruct (make_cell_facts evs y m today ebd
              (fromordinal (o + Z.of_nat i)) Hg) as (-> & Hday & Htoday & Hev).
  split; [now apply fromordinal_valid|].
  split; [now apply toordinal_fromordinal|].
  split.
  { unfold weekday. rewrite toordinal_fromordinal by assumption.
    destruct Ho as (Ho & _). revert Ho. zdiv. }
  split; [exact Hday|]. split; [exact Htoday|]. exact Hev.
Qed.

Lemma get_calendar_matrix_grid_witness :
  exists mx o,
    get_calendar_matrix (at_ 2024 3 1 8 0) (mkdate 2024 3 4)
      [sample_event "A" (at_ 2024 3 4 10 0) (at_ 2024 3 4 11 0)]
      (Some 2024) (Some 3) = Ok mx
    /\ List.length (List.concat (calendar_matrix mx)) = 42%nat
    /\ toordinal (mkdate 2024 3 1) - 6 <= o <= toordinal (mkdate 2024 3 1).
Proof.
  destruct (get_calendar_matrix_grid (at_ 2024 3 1 8 0) (mkdate 2024 3 4)
              [sample_event "A" (at_ 2024 3 4 10 0) (at_ 2024 3 4 11 0)]
              (Some 2024) (Some 3))
    as (mx & o & H1 & _ & _ & H42 & _ & Ho & _).
  - unfold MINYEAR, MAXYEAR. cbn. lia.
  - cbn. lia.
  - cbn. intros [= ]. 
  - cbn. intros [= ].
  - exists mx, o. auto.
Defined.

(** The two months at the ends of the range of dates.  In January of
    year 1 the Sunday before the first is no date; in December 9999 the
    first day of the next month is no date. *)
Lemma calendar_matrix_january_1 now today evs :
  get_calendar_matrix now today evs (Some 1) (Some 1) = Raise OverflowError.
Proof. reflexivity. Qed.

Lemma calendar_matrix_december_9999 now today evs :
  get_calendar_matrix now today evs (Some 9999) (Some 12) = Raise ValueError.
Proof. reflexivity. Qed.

(** For January of year 1 there is no grid: the call raises. *)
Lemma calendar_matrix_year_1_raises :
  get_calendar_matrix (at_ 2024 3 1 8 0) (mkdate 2024 3 4)
    [sample_event "A" (at_ 2024 3 4 10 0) (at_ 2024 3 4 11 0)]
    (Some 1) (Some 1) = Raise OverflowError
  /\ ~ exists mx,
        get_calendar_matrix (at_ 2024 3 1 8 0) (mkdate 2024 3 4)
          [sample_event "A" (at_ 2024 3 4 10 0) (at_ 2024 3 4 11 0)]
          (Some 1) (Some 1) = Ok mx.
Proof.
  split; [reflexivity|]. intros [mx H]. discriminate H.
Qed.

End GridFacts.

(** * More of the calendar module *)

Module RepositoryMore.
Import PyDatetime PyStr PyIso Calendar Timeline Fields MoreDefs.
Import OrdinalFacts OrderFacts ArithFacts RepositoryFacts QueryFacts.
Import SerialFacts GridFacts.

(** ** Looking up, creating and deleting *)

Lemma find_event_none event_id l :
  find_event event_id l = None <-> ~ In event_id (map id l).
Proof.
  induction l as [|x l IH]; cbn; [tauto|].
  destruct (String.eqb (id x) event_id) eqn:E.
  - apply String.eqb_eq in E. split; [discriminate|tauto].
  - apply String.eqb_neq in E. rewrite IH. tauto.
Qed.

Lemma find_event_first event_id l e :
  find_event event_id l = Some e ->
  exists pre post,
    l = pre ++ e :: post /\ id e = event_id
    /\ ~ In event_id (map id pre).
Proof.
  induction l as [|x l IH]; cbn; [discriminate|].
  destruct (String.eqb (id x) event_id) eqn:E.
  - intros [= ->]. apply String.eqb_eq in E. exists [], l. cbn. tauto.
  - intros H. destruct (IH H) as (pre & post & -> & Hid & Hpre).
    apply String.eqb_neq in E.
    exists (x :: pre), post. cbn. repeat split; auto. tauto.
Qed.

Lemma find_event_app event_id l1 l2 :
  find_event event_id (l1 ++ l2)
  = match find_event event_id l1 with
    | Some e => Some e
    | None => find_event event_id l2
    end.
Proof.
  induction l1 as [|x l1 IH]; cbn; [reflexivity|].
  now destruct (String.eqb (id x) event_id).
Qed.

Lemma pop_first_none event_id l :
  ~ In event_id (map id l) -> pop_first event_id l = None.
Proof.
  induction l as [|x l IH]; cbn; [reflexivity|]. intros H.
  destruct (String.eqb (id x) event_id) eqn:E.
  - apply String.eqb_eq in E. tauto.
  - rewrite IH by tauto. reflexivity.
Qed.

Lemma pop_first_split event_id pre e post :
  id e = event_id -> ~ In event_id (map id pre) ->
  pop_first event_id (pre ++ e :: post) = Some (e, pre ++ post).
Proof.
  intros He. induction pre as [|x pre IH]; cbn; intros Hpre.
  - apply String.eqb_eq in He. now rewrite He.
  - destruct (String.eqb (id x) event_id) eqn:E.
    + apply String.eqb_eq in E. tauto.
    + rewrite IH by tauto. reflexivity.
Qed.

(** X1: [get_event] returns the first stored event with the id, and [None]
    exactly when no stored event has it. *)
Theorem get_event_first_match :
  forall st event_id,
    (forall e, get_event st event_id = Some e ->
       exists pre post,
         events st = pre ++ e :: post /\ id e = event_id
         /\ ~ In event_id (map id pre))
    /\ (get_event st event_id = None <-> ~ In event_id (map id (events st))).
Proof.
  intros st event_id. split.
  - intros e. apply find_event_first.
  - apply find_event_none.
Qed.

Lemma get_event_first_match_witness :
  get_event witness_state "a1"
  = Some (sample_event "a1" (at_ 2024 3 4 10 0) (at_ 2024 3 4 11 0))
  /\ exists pre post,
       events witness_state
       = pre ++ sample_event "a1" (at_ 2024 3 4 10 0) (at_ 2024 3 4 11 0)
                :: post.
Proof.
  split; [reflexivity|].
  destruct (proj1 (get_event_first_match witness_state "a1") _ eq_refl)
    as (pre & post & E & _).
  exists pre, post. exact E.
Defined.

Section CreateArgs.

Variables (uuid4 : string) (now : datetime) (io : write_outcome)
  (st : state) (title0 : string) (start_time0 end_time0 : datetime)
  (description0 location0 : string) (attendees0 : option (list string))
  (reminder_minutes0 : Z) (is_all_day0 : bool) (recurrence0 : string).

Local Abbreviation created :=
  (create_event uuid4 now io st title0 start_time0 end_time0 description0
     location0 attendees0 reminder_minutes0 is_all_day0 recurrence0).

Lemma create_event_events :
  exists e,
    events (snd created) = events st ++ [e]
    /\ id e = fst created /\ title e = title0
    /\ start_time e = start_time0 /\ end_time e = end_time0
    /\ created_at e = now.
Proof.
  unfold create_event, add_log. cbn [fst snd events].
  rewrite save_events_keeps_events. cbn [events].
  eexists. split; [reflexivity|]. cbn. auto.
Qed.

(** X2: Looking up the id that [create_event] returned gives the new event
    when the id was not in use, and the older event of that id when it
    was: a new event whose id repeats a stored one cannot be reached by
    its id. *)
Theorem get_event_after_create :
  exists e,
    events (snd created) = events st ++ [e]
    /\ get_event (snd created) (fst created)
       = match get_event st (fst created) with
         | Some old => Some old
         | None => Some e
         end.
Proof.
  destruct create_event_events as (e & He & Hid & _).
  exists e. split; [exact He|].
  unfold get_event. rewrite He, find_event_app.
  destruct (find_event (fst created) (events st)); [reflexivity|].
  cbn [find_event]. apply String.eqb_eq in Hid. now rewrite Hid.
Qed.

(** X3: Deleting by the id that [create_event] returned undoes the creation
    when the id was not in use.  When the id was in use, the older event
    of that id is removed and the new one stays. *)
Theorem delete_after_create :
  forall io2,
    let deleted := delete_event io2 (snd created) (fst created) in
    fst deleted = true
    /\ (~ In (fst created) (map id (events st)) ->
        events (snd deleted) = events st)
    /\ (forall pre old post,
          events st = pre ++ old :: post ->
          id old = fst created ->
          ~ In (fst created) (map id pre) ->
          exists e,
            events (snd created) = events st ++ [e]
            /\ events (snd deleted) = pre ++ post ++ [e]).
Proof.
  intros io2 deleted.
  destruct create_event_events as (e & He & Hid & _).
  assert (Hdel : forall pre x post,
             events (snd created) = pre ++ x :: post ->
             id x = fst created -> ~ In (fst created) (map id pre) ->
             fst deleted = true /\ events (snd deleted) = pre ++ post).
  { intros pre x post E Hx Hpre. unfold deleted, delete_event.
    rewrite E, (pop_first_split _ _ _ _ Hx Hpre).
    unfold add_log. cbn [fst snd events].
    now rewrite save_events_keeps_events. }
  destruct (in_dec string_dec (fst created) (map id (events st)))
    as [Hin|Hnot].
  - destruct (find_event (fst created) (events st)) as [old|] eqn:Ef;
      [|apply find_event_none in Ef; tauto].
    destruct (find_event_first _ _ _ Ef) as (pre & post & E & Hold & Hpre).
    destruct (Hdel pre old (post ++ [e])) as [H1 H2]; auto.
    { rewrite He, E, <- app_assoc. reflexivity. }
    split; [exact H1|]. split; [tauto|].
    intros pre' old' post' E' Hold' Hpre'. exists e. split; [exact He|].
    destruct (Hdel pre' old' (post' ++ [e])) as [_ H3]; auto.
    rewrite He, E', <- app_assoc. reflexivity.
  - destruct (Hdel (events st) e []) as [H1 H2]; auto.
    split; [exact H1|]. split.
    + intros _. now rewrite H2, app_nil_r.
    + intros pre old post E Hold _. exfalso. apply Hnot.
      rewrite E, map_app. apply in_or_app. right. cbn. auto.
Qed.

End CreateArgs.

(** X4: [update_event] and [delete_event] on an id that no stored event has
    return [False] and leave the events, the file and the log as they
    are: nothing is written. *)
Theorem unknown_id_changes_nothing :
  forall io st event_id kwargs,
    ~ In event_id (map id (events st)) ->
    update_event io st event_id kwargs = (false, st)
    /\ delete_event io st event_id = (false, st).
Proof.
  intros io st event_id kwargs Hnot. split.
  - unfold update_event, get_event.
    now apply find_event_none in Hnot as ->.
  - unfold delete_event. now rewrite pop_first_none.
Qed.

Lemma unknown_id_changes_nothing_witness :
  update_event WriteOk witness_state "zz" [kw_title "x"]
  = (false, witness_state)
  /\ delete_event WriteOk witness_state "zz" = (false, witness_state).
Proof.
  apply unknown_id_changes_nothing. cbn. intros [H|[]]. discriminate H.
Defined.

(** X5: [delete_event] on an id in use returns [True], removes the first
    stored event of that id and nothing else, keeps the order of the
    others, and logs the title of the removed event after the save. *)
Theorem delete_event_removes_first :
  forall io st event_id pre e post,
    events st = pre ++ e :: post ->
    id e = event_id ->
    ~ In event_id (map id pre) ->
    let r := delete_event io st event_id in
    fst r = true
    /\ events (snd r) = pre ++ post
    /\ List.length (events (snd r)) = pred (List.length (events st))
    /\ log (snd r)
       = log (_save_events io (mkState (pre ++ post) (disk st) (log st)))
         ++ [LogDeleted (title e) event_id].
Proof.
  intros io st event_id pre e post E He Hpre r. subst r.
  unfold delete_event. rewrite E, (pop_first_split _ _ _ _ He Hpre).
  unfold add_log. cbn [fst snd events log].
  rewrite save_events_keeps_events. cbn [events].
  repeat split. rewrite !length_app. cbn. lia.
Qed.

Lemma delete_event_removes_first_witness :
  let r := delete_event WriteOk witness_state "a1" in
  fst r = true /\ events (snd r) = [].
Proof.
  destruct (delete_event_removes_first WriteOk witness_state "a1" []
              (sample_event "a1" (at_ 2024 3 4 10 0) (at_ 2024 3 4 11 0)) []
              eq_refl eq_refl (fun H => H))
    as (H1 & H2 & _).
  split; [exact H1|exact H2].
Defined.

Lemma pop_first_some event_id l e rest :
  pop_first event_id l = Some (e, rest) ->
  exists pre post,
    l = pre ++ e :: post /\ rest = pre ++ post /\ id e = event_id
    /\ ~ In event_id (map id pre).
Proof.
  revert rest. induction l as [|x l IH]; intros rest; cbn; [discriminate|].
  destruct (String.eqb (id x) event_id) eqn:E.
  - intros [= -> <-]. apply String.eqb_eq in E. exists [], l. cbn. tauto.
  - destruct (pop_first event_id l) as [[d r]|]; [|discriminate].
    intros [= -> <-].
    destruct (IH r eq_refl) as (pre & post & -> & -> & Hid & Hpre).
    apply String.eqb_neq in E.
    exists (x :: pre), post. cbn. repeat split; auto. tauto.
Qed.

(** X6: When the ids of the store are distinct they stay distinct after
    [delete_event], and the deleted id is no longer found. *)
Theorem delete_event_keeps_unique_ids :
  forall io st event_id,
    unique_ids (events st) ->
    let st' := snd (delete_event io st event_id) in
    unique_ids (events st') /\ get_event st' event_id = None.
Proof.
  intros io st event_id Hu st'. subst st'. unfold delete_event.
  destruct (pop_first event_id (events st)) as [[e rest]|] eqn:E.
  - destruct (pop_first_some _ _ _ _ E) as (pre & post & El & -> & He & Hpre).
    unfold add_log. cbn [snd events]. rewrite save_events_keeps_events.
    cbn [events]. unfold unique_ids in *. rewrite El in Hu.
    rewrite map_app in Hu. cbn [map] in Hu.
    pose proof (NoDup_remove_1 _ _ _ Hu) as Hnd.
    pose proof (NoDup_remove_2 _ _ _ Hu) as Hni.
    rewrite <- map_app in Hnd, Hni. split; [exact Hnd|].
    unfold get_event. cbn [events]. apply find_event_none.
    now rewrite <- He.
  - cbn [snd]. split; [exact Hu|].
    unfold get_event. apply find_event_none. intros Hin.
    assert (Hf : find_event event_id (events st) <> None)
      by (rewrite find_event_none; tauto).
    destruct (find_event event_id (events st)) as [e|] eqn:Ef; [|tauto].
    destruct (find_event_first _ _ _ Ef) as (pre & post & El & He & Hpre).
    rewrite El, (pop_first_split _ _ _ _ He Hpre) in E. discriminate.
Qed.

Lemma delete_event_keeps_unique_ids_witness :
  unique_ids (events witness_state)
  /\ get_event (snd (delete_event WriteOk witness_state "a1")) "a1" = None.
Proof.
  assert (Hu : unique_ids (events witness_state)).
  { unfold unique_ids. cbn. constructor; [intros []|constructor]. }
  split; [exact Hu|].
  exact (proj2 (delete_event_keeps_unique_ids WriteOk witness_state "a1" Hu)).
Defined.

(** ** Updating *)

Lemma setattr_keeps_id e kw :
  kw_field kw <> Some f_id -> id (setattr e kw) = id e.
Proof. destruct e, kw; cbn; congruence. Qed.

Lemma fold_setattr_keeps_id kwargs : forall e,
  (forall kw, In kw kwargs -> kw_field kw <> Some f_id) ->
  id (fold_left setattr kwargs e) = id e.
Proof.
  induction kwargs as [|k ks IH]; intros e H; cbn; [reflexivity|].
  rewrite IH by (intros kw Hk; apply H; now right).
  apply setattr_keeps_id, H. now left.
Qed.

Lemma update_first_length event_id kwargs l :
  List.length (update_first event_id kwargs l) = List.length l.
Proof.
  induction l as [|x l IH]; cbn; [reflexivity|].
  destruct (String.eqb (id x) event_id); cbn; congruence.
Qed.

Lemma update_first_ids event_id kwargs l :
  (forall kw, In kw kwargs -> kw_field kw <> Some f_id) ->
  map id (update_first event_id kwargs l) = map id l.
Proof.
  intros H. induction l as [|x l IH]; cbn; [reflexivity|].
  destruct (String.eqb (id x) event_id); cbn.
  - now rewrite fold_setattr_keeps_id.
  - now rewrite IH.
Qed.

(** X7: With keywords that name fields or names without attribute,
    [update_event] never adds or removes an event; when the keywords do
    not name [id], the ids of the store, in order, are as before, so
    distinct ids stay distinct. *)
Theorem update_event_keeps_ids :
  forall io st event_id kwargs,
    plain_kwargs kwargs ->
    let st' := snd (update_event io st event_id kwargs) in
    List.length (events st') = List.length (events st)
    /\ ((forall kw, In kw kwargs -> kw_field kw <> Some f_id) ->
        map id (events st') = map id (events st)
        /\ (unique_ids (events st) -> unique_ids (events st'))).
Proof.
  intros io st event_id kwargs _ st'. subst st'. unfold update_event.
  destruct (get_event st event_id); cbn [snd].
  - unfold add_log. cbn [events]. rewrite save_events_keeps_events.
    cbn [events]. split; [apply update_first_length|].
    intros H. unfold unique_ids. rewrite (update_first_ids _ _ _ H). auto.
  - auto.
Qed.

Lemma update_event_keeps_ids_witness :
  map id (events (snd (update_event WriteOk witness_state "a1"
                         [kw_title "Retro"; kw_start_time (at_ 2024 3 5 9 0)])))
  = map id (events witness_state).
Proof.
  apply (proj2 (update_event_keeps_ids WriteOk witness_state "a1"
                  [kw_title "Retro"; kw_start_time (at_ 2024 3 5 9 0)]
                  eq_refl)).
  intros kw [<-|[<-|[]]]; discriminate.
Defined.

(** ** Saving and loading *)




(** X9: After a write that failed, a restart does not see the mutation: when
    the file could not be opened the previous content is loaded again, and
    when the dump failed the calendar starts empty. *)
Theorem restart_after_failed_write :
  forall now st,
    events (_load_events now (_save_events OpenFails st))
    = events (_load_events now st)
    /\ events (_load_events now (_save_events DumpFails st)) = [].
Proof.
  intros now st. split.
  - unfold _load_events, _save_events. cbn [disk events log].
    destruct (disk st) as [|data|]; try reflexivity.
    now destruct (map_result (from_dict now) data).
  - reflexivity.
Qed.

Lemma map_result_raise {A B : Type} (f : A -> result B) l :
  (exists x, In x l /\ exists ex, f x = Raise ex) ->
  exists ex, map_result f l = Raise ex.
Proof.
  induction l as [|x l IH]; intros (y & Hy & ex & Hex); [destruct Hy|].
  cbn [map_result]. destruct (f x) as [b|ex'] eqn:E; cbn [bind]; [|eauto].
  destruct Hy as [->|Hy]; [congruence|].
  destruct IH as [ex2 ->].
  - exists y. split; [exact Hy|]. exists ex. exact Hex.
  - cbn [bind]. eauto.
Qed.

(** ** Reading one record *)

Lemma dict_get_set_other k k' v d :
  k <> k' -> dict_get k (dict_set k' v d) = dict_get k d.
Proof.
  intros Hne. induction d as [|[k0 v0] d IH]; cbn.
  - destruct (String.eqb k' k) eqn:E; [|reflexivity].
    apply String.eqb_eq in E. congruence.
  - destruct (String.eqb k0 k') eqn:E; cbn.
    + apply String.eqb_eq in E. subst k0.
      destruct (String.eqb k' k) eqn:E2; [|reflexivity].
      apply String.eqb_eq in E2. congruence.
    + now rewrite IH.
Qed.

(** X11: [from_dict] reads no record that lacks one of the three timestamps
    (although the class has a default for [created_at]), raises
    [KeyError] when [start_time] is missing and [TypeError] when it is not
    a string. *)
Theorem from_dict_needs_timestamps :
  forall now data,
    (dict_get "start_time" data = None -> from_dict now data = Raise KeyError)
    /\ (forall v, dict_get "start_time" data = Some v ->
                  (forall s, v <> PStr s) ->
                  from_dict now data = Raise TypeError)
    /\ (dict_get "end_time" data = None \/ dict_get "created_at" data = None ->
        exists ex, from_dict now data = Raise ex).
Proof.
  intros now data. split; [|split].
  - intros H. unfold from_dict, dict_item. now rewrite H.
  - intros v H Hv. unfold from_dict, dict_item. rewrite H. cbn [bind].
    destruct v; cbn [fromisoformat_val bind]; try reflexivity.
    exfalso. now apply (Hv s).
  - intros H. unfold from_dict.
    destruct (dict_item "start_time" data) as [v|ex]; cbn [bind]; [|eauto].
    destruct (fromisoformat_val v) as [st|ex]; cbn [bind]; [|eauto].
    unfold dict_item at 1.
    rewrite dict_get_set_other by discriminate.
    destruct (dict_get "end_time" data) as [v2|] eqn:E2; cbn [bind]; [|eauto].
    destruct (fromisoformat_val v2) as [en|ex]; cbn [bind]; [|eauto].
    unfold dict_item at 1.
    rewrite !dict_get_set_other by discriminate.
    destruct H as [H|H]; [discriminate|]. rewrite H. cbn [bind]. eauto.
Qed.

Lemma from_dict_needs_timestamps_witness :
  from_dict (at_ 2024 3 1 8 0) [("id", PStr "a"); ("title", PStr "t")]
  = Raise KeyError.
Proof.
  apply (proj1 (from_dict_needs_timestamps (at_ 2024 3 1 8 0) _)).
  reflexivity.
Defined.

(** X12: A record with only the required keys and the three timestamps is read
    with the defaults of the class: no location, no attendees, a reminder
    of 15 minutes, not all day, no recurrence.  [null] for the attendees is
    read as the empty list. *)
Theorem from_dict_defaults :
  forall now i t d st en cr,
    valid_datetime st -> valid_datetime en -> valid_datetime cr ->
    from_dict now
      [("id", PStr i); ("title", PStr t); ("description", PStr d);
       ("start_time", PStr (isoformat st));
       ("end_time", PStr (isoformat en));
       ("created_at", PStr (isoformat cr))]
    = Ok (mkEvent i t d st en "" [] 15 false "none" cr)
    /\ from_dict now
         [("id", PStr i); ("title", PStr t); ("description", PStr d);
          ("start_time", PStr (isoformat st));
          ("end_time", PStr (isoformat en));
          ("attendees", PNone);
          ("created_at", PStr (isoformat cr))]
       = Ok (mkEvent i t d st en "" [] 15 false "none" cr).
Proof.
  intros now i t d st en cr Hs He Hc.
  split; unfold from_dict;
    cbn [dict_set dict_item dict_get String.eqb Ascii.eqb Bool.eqb bind
         fromisoformat_val];
    rewrite (fromisoformat_isoformat st Hs);
    cbn [dict_set dict_item dict_get String.eqb Ascii.eqb Bool.eqb bind
         fromisoformat_val];
    rewrite (fromisoformat_isoformat en He);
    cbn [dict_set dict_item dict_get String.eqb Ascii.eqb Bool.eqb bind
         fromisoformat_val];
    rewrite (fromisoformat_isoformat cr Hc);
    reflexivity.
Qed.

Lemma from_dict_defaults_witness :
  from_dict (at_ 2024 3 1 8 0)
    [("id", PStr "a"); ("title", PStr "t"); ("description", PStr "");
     ("start_time", PStr (isoformat (at_ 2024 3 4 10 0)));
     ("end_time", PStr (isoformat (at_ 2024 3 4 11 0)));
     ("created_at", PStr (isoformat (at_ 2024 3 1 8 0)))]
  = Ok (mkEvent "a" "t" "" (at_ 2024 3 4 10 0) (at_ 2024 3 4 11 0)
          "" [] 15 false "none" (at_ 2024 3 1 8 0)).
Proof.
  apply (proj1 (from_dict_defaults (at_ 2024 3 1 8 0) "a" "t" ""
                  (at_ 2024 3 4 10 0) (at_ 2024 3 4 11 0) (at_ 2024 3 1 8 0)
                  ltac:(split; reflexivity) ltac:(split; reflexivity)
                  ltac:(split; reflexivity))).
Defined.

Lemma forallb_app_false {A : Type} (f : A -> bool) l x :
  f x = false -> forallb f (l ++ [x]) = false.
Proof.
  intros H. rewrite forallb_app. cbn. rewrite H.
  now rewrite andb_false_r.
Qed.

Lemma dict_get_app_other k k' (v : pyval) d :
  k <> k' -> dict_get k (d ++ [(k', v)]) = dict_get k d.
Proof.
  intros Hne. induction d as [|[k0 v0] d IH]; cbn.
  - destruct (String.eqb k' k) eqn:E; [|reflexivity].
    apply String.eqb_eq in E. congruence.
  - now rewrite IH.
Qed.

Lemma dict_set_app k v d (kv : string * pyval) :
  dict_get k d <> None -> dict_set k v (d ++ [kv]) = dict_set k v d ++ [kv].
Proof.
  induction d as [|[k0 v0] d IH]; cbn; [congruence|].
  destruct (String.eqb k0 k); [reflexivity|].
  intros H. now rewrite IH.
Qed.

(** X13: A record written by [to_dict] to which one unknown key was added is
    not read: the constructor refuses the key with [TypeError]. *)
Theorem from_dict_refuses_unknown_key :
  forall now e k v,
    wf_event e -> is_field k = false ->
    from_dict now (to_dict e ++ [(k, v)]) = Raise TypeError.
Proof.
  intros now e k v (Hs & He & Hc) Hk.
  destruct e as [i t d st en loc att rem allday rec cr].
  cbn [start_time end_time created_at] in *.
  assert (Hne : forall f, is_field f = true -> f <> k)
    by (intros f Hf ->; congruence).
  unfold from_dict, to_dict, asdict.
  cbn [id title description start_time end_time location attendees
       reminder_minutes is_all_day recurrence created_at].
  cbn [dict_set String.eqb Ascii.eqb Bool.eqb].
  unfold dict_item.
  rewrite dict_get_app_other by (apply Hne; reflexivity).
  cbn [dict_get String.eqb Ascii.eqb Bool.eqb bind fromisoformat_val].
  rewrite (fromisoformat_isoformat st Hs). cbn [bind].
  rewrite dict_set_app by (cbn; discriminate).
  rewrite dict_get_app_other by (apply Hne; reflexivity).
  cbn [dict_set dict_get String.eqb Ascii.eqb Bool.eqb bind fromisoformat_val].
  rewrite (fromisoformat_isoformat en He). cbn [bind].
  rewrite dict_set_app by (cbn; discriminate).
  rewrite dict_get_app_other by (apply Hne; reflexivity).
  cbn [dict_set dict_get String.eqb Ascii.eqb Bool.eqb bind fromisoformat_val].
  rewrite (fromisoformat_isoformat cr Hc). cbn [bind].
  rewrite dict_set_app by (cbn; discriminate).
  unfold construct. rewrite forallb_app_false by (cbn [fst]; exact Hk).
  reflexivity.
Qed.

Lemma from_dict_refuses_unknown_key_witness :
  from_dict (at_ 2024 3 1 8 0)
    (to_dict (sample_event "a" (at_ 2024 3 4 10 0) (at_ 2024 3 4 11 0))
     ++ [("color", PStr "red")])
  = Raise TypeError.
Proof.
  apply from_dict_refuses_unknown_key; [|reflexivity].
  repeat split.
Defined.

(** ** Records that cannot be read *)

Lemma forallb_dict_set (f : string -> bool) k v d :
  forallb (fun kv => f (fst kv)) (dict_set k v d) = true ->
  forallb (fun kv : string * pyval => f (fst kv)) d = true.
Proof.
  induction d as [|[k0 v0] d IH]; cbn; [reflexivity|].
  destruct (String.eqb k0 k); cbn; rewrite !andb_true_iff; tauto.
Qed.

Lemma required_ok {A : Type} (rd : pyval -> result A) k data x :
  required rd k data = Ok x -> dict_get k data <> None.
Proof.
  unfold required. destruct (dict_get k data); discriminate.
Qed.

(** What a record that [from_dict] reads must hold. *)
Lemma from_dict_ok now data e :
  from_dict now data = Ok e ->
  (forall k, In k ["start_time"; "end_time"; "created_at"] ->
             exists s, dict_get k data = Some (PStr s))
  /\ (forall k, In k ["id"; "title"; "description"] ->
                dict_get k data <> None)
  /\ forallb (fun kv => is_field (fst kv)) data = true.
Proof.
  unfold from_dict, dict_item. intros H.
  destruct (dict_get "start_time" data) as [v1|] eqn:E1;
    cbn [bind] in H; [|discriminate].
  destruct v1 as [| | |s1| |]; cbn [fromisoformat_val bind] in H;
    try discriminate.
  destruct (fromisoformat s1) as [st|]; cbn [bind] in H; [|discriminate].
  rewrite dict_get_set_other in H by discriminate.
  destruct (dict_get "end_time" data) as [v2|] eqn:E2;
    cbn [bind] in H; [|discriminate].
  destruct v2 as [| | |s2| |]; cbn [fromisoformat_val bind] in H;
    try discriminate.
  destruct (fromisoformat s2) as [en|]; cbn [bind] in H; [|discriminate].
  rewrite !dict_get_set_other in H by discriminate.
  destruct (dict_get "created_at" data) as [v3|] eqn:E3;
    cbn [bind] in H; [|discriminate].
  destruct v3 as [| | |s3| |]; cbn [fromisoformat_val bind] in H;
    try discriminate.
  destruct (fromisoformat s3) as [cr|]; cbn [bind] in H; [|discriminate].
  unfold construct in H.
  match type of H with
  | (if negb (forallb ?f ?d) then _ else _) = _ =>
      destruct (forallb f d) eqn:Ef; cbn [negb] in H; [|discriminate]
  end.
  do 3 apply forallb_dict_set in Ef.
  match type of H with
  | bind (required ?rd "id" ?d) _ = _ =>
      destruct (required rd "id" d) as [i|] eqn:Ei;
        cbn [bind] in H; [|discriminate]
  end.
  match type of H with
  | bind (required ?rd "title" ?d) _ = _ =>
      destruct (required rd "title" d) as [t|] eqn:Et;
        cbn [bind] in H; [|discriminate]
  end.
  match type of H with
  | bind (required ?rd "description" ?d) _ = _ =>
      destruct (required rd "description" d) as [ds|] eqn:Eds;
        cbn [bind] in H; [|discriminate]
  end.
  apply required_ok in Ei, Et, Eds.
  rewrite !dict_get_set_other in Ei, Et, Eds by discriminate.
  split; [|split; [|exact Ef]].
  - intros k [<-|[<-|[<-|[]]]]; eauto.
  - intros k [<-|[<-|[<-|[]]]]; assumption.
Qed.

Lemma unreadable_raises now data :
  unreadable data -> exists ex, from_dict now data = Raise ex.
Proof.
  intros H. destruct (from_dict now data) as [e|ex] eqn:E; [|eauto].
  exfalso. destruct (from_dict_ok now data e E) as (Ht & Hr & Hf).
  destruct H as [(k & Hk & Hno)|[(k & Hk & Hno)|(k & v & Hin & Hno)]].
  - destruct (Ht k Hk) as [s Hs]. now apply (Hno s).
  - now apply (Hr k Hk).
  - rewrite forallb_forall in Hf. specialize (Hf (k, v) Hin).
    cbn [fst] in Hf. congruence.
Qed.

(** X10: Loading is all or nothing: without a file, with a file that is no
    JSON, or with a file in which one record lacks a timestamp or a field
    without default, holds a timestamp that is no string, or has a key
    that is no field, the calendar starts empty and the file is left as
    it is.  The next successful save then replaces the file by the events
    created since: the records that could be read are lost as well. *)
Theorem load_events_all_or_nothing :
  forall now st,
    (disk st = NoFile \/ disk st = Garbage
     \/ exists data bad,
          disk st = Json data /\ In bad data /\ unreadable bad) ->
    let st' := _load_events now st in
    events st' = [] /\ disk st' = disk st
    /\ forall uuid4 now0 title0 start_time0 end_time0 description0 location0
              attendees0 reminder_minutes0 is_all_day0 recurrence0,
         disk (snd (create_event uuid4 now0 WriteOk st' title0 start_time0
                      end_time0 description0 location0 attendees0
                      reminder_minutes0 is_all_day0 recurrence0))
         = Json [to_dict
                   (mkEvent (_generate_event_id uuid4) title0 description0
                      start_time0 end_time0 location0 (or_empty attendees0)
                      reminder_minutes0 is_all_day0 recurrence0 now0)].
Proof.
  intros now st H st'.
  assert (H0 : events st' = [] /\ disk st' = disk st).
  { subst st'. unfold _load_events.
    destruct H as [->|[->|(data & bad & -> & Hin & Hbad)]]; auto.
    destruct (map_result_raise (from_dict now) data) as [ex ->]; auto.
    exists bad. split; [exact Hin|]. now apply unreadable_raises. }
  destruct H0 as [He Hd]. split; [exact He|]. split; [exact Hd|].
  intros. unfold create_event, add_log, _save_events.
  cbn [snd disk events]. rewrite He. cbn [app map].
  do 3 f_equal. unfold new_event.
  now destruct attendees0 as [[|a l]|].
Qed.

Lemma load_events_all_or_nothing_witness :
  events (_load_events (at_ 2024 3 1 8 0)
            (mkState [] (Json [to_dict (sample_event "a" (at_ 2024 3 4 10 0)
                                          (at_ 2024 3 4 11 0));
                               [("id", PStr "b")]]) []))
  = [].
Proof.
  apply (load_events_all_or_nothing (at_ 2024 3 1 8 0)).
  right. right. exists [to_dict (sample_event "a" (at_ 2024 3 4 10 0)
                                    (at_ 2024 3 4 11 0));
                        [("id", PStr "b")]], [("id", PStr "b")].
  split; [reflexivity|]. split; [cbn; auto|].
  left. exists "start_time". split; [cbn; auto|]. discriminate.
Defined.

End RepositoryMore.

(** * More on the queries: week, horizon, search, conflicts, free slots *)

Module QueryMore.

Import PyDatetime PyStr PyIso Calendar Timeline Fields MoreDefs.
Import OrdinalFacts OrderFacts ArithFacts RepositoryFacts QueryFacts.
Import SerialFacts GridFacts RepositoryMore.

(** ** Events of a day, a month, a week *)

Lemma sort_by_start_in l e : In e (sort_by_start l) <-> In e l.
Proof.
  split; intros H.
  - now apply (Permutation_in _ (sort_by_start_perm l)).
  - now apply (Permutation_in _ (Permutation_sym (sort_by_start_perm l))).
Qed.

Lemma filter_none {A : Type} (f : A -> bool) l :
  (forall x, In x l -> f x = false) -> filter f l = [].
Proof.
  induction l as [|x l IH]; intros H; cbn; [reflexivity|].
  rewrite (H x) by now left. apply IH. intros y Hy. apply H. now right.
Qed.

(** ** Filtering and the stable sort *)

Lemma insert_by_start_front x l :
  (forall z, In z l -> lt (start_time z) (start_time x) = false) ->
  insert_by_start x l = x :: l.
Proof.
  destruct l as [|y l]; intros H; cbn; [reflexivity|].
  now rewrite (H y (or_introl eq_refl)).
Qed.

Lemma filter_insert_by_start (f : CalendarEvent -> bool) x : forall l,
  StronglySorted start_le l ->
  filter f (insert_by_start x l)
  = if f x then insert_by_start x (filter f l) else filter f l.
Proof.
  induction l as [|y l IH]; intros Hs.
  - cbn. now destruct (f x).
  - inversion Hs as [|? ? Hl Hy]; subst.
    cbn [insert_by_start].
    destruct (lt (start_time y) (start_time x)) eqn:E.
    + cbn [filter]. rewrite (IH Hl).
      destruct (f x), (f y); cbn [insert_by_start]; rewrite ?E; reflexivity.
    + change (filter f (x :: y :: l))
        with (if f x then x :: filter f (y :: l) else filter f (y :: l)).
      destruct (f x); [|reflexivity].
      symmetry. apply insert_by_start_front.
      intros z Hz. apply filter_In in Hz. destruct Hz as [Hz _].
      assert (Hxy : le (start_time x) (start_time y) = true)
        by (rewrite le_not_lt, E; reflexivity).
      assert (Hyz : le (start_time y) (start_time z) = true).
      { destruct Hz as [<-|Hz]; [apply le_refl|].
        rewrite Forall_forall in Hy. now apply Hy. }
      pose proof (le_trans _ _ _ Hxy Hyz) as Hxz.
      rewrite le_not_lt in Hxz. now destruct (lt (start_time z) (start_time x)).
Qed.

(** The events a filter keeps come out of the sort in the order in which
    the sort of the kept events alone puts them. *)
Lemma filter_sort_by_start (f : CalendarEvent -> bool) l :
  filter f (sort_by_start l) = sort_by_start (filter f l).
Proof.
  induction l as [|x l IH]; [reflexivity|].
  change (sort_by_start (x :: l)) with (insert_by_start x (sort_by_start l)).
  rewrite filter_insert_by_start by apply sort_by_start_strongly_sorted.
  rewrite IH. cbn [filter]. now destruct (f x).
Qed.

Lemma filter_filter {A : Type} (f g : A -> bool) l :
  filter f (filter g l) = filter (fun x => f x && g x) l.
Proof.
  induction l as [|x l IH]; [reflexivity|].
  cbn [filter]. destruct (g x); cbn [filter]; rewrite IH;
    [now rewrite andb_true_r|now rewrite andb_false_r].
Qed.

(** The events of a month that start on a date are the events of that
    date when the date is in the month, and none otherwise. *)
Lemma on_date_month evs y m d :
  on_date d (get_events_for_month evs y m)
  = if (year d =? y) && (month d =? m) then get_events_for_date evs d
    else [].
Proof.
  unfold on_date, get_events_for_month, get_events_for_date.
  rewrite filter_sort_by_start, filter_filter.
  destruct ((year d =? y) && (month d =? m)) eqn:E.
  - f_equal. apply filter_ext. intros e.
    destruct (date_eqb (date_of (start_time e)) d) eqn:Ed;
      [|reflexivity].
    apply date_eqb_eq in Ed. rewrite Ed. now rewrite E.
  - rewrite filter_none; [reflexivity|]. intros e _.
    destruct (date_eqb (date_of (start_time e)) d) eqn:Ed;
      [|reflexivity].
    apply date_eqb_eq in Ed. rewrite Ed. now rewrite E.
Qed.

(** X14: [get_events_for_date] returns the stored events that start on the
    date, and [get_events_for_month] those that start in the month (the
    year and the month of the clock stand in for the ones not given),
    each as often as stored and in ascending order of [start_time]; the
    events of a date are the events of its month that start on the date,
    in the same order. *)
Theorem events_of_date_and_month :
  forall now evs,
    (forall d,
        Permutation (get_events_for_date evs d) (on_date d evs)
        /\ (forall e, In e (get_events_for_date evs d)
                      <-> In e evs /\ date_of (start_time e) = d)
        /\ StronglySorted start_le (get_events_for_date evs d)
        /\ get_events_for_date evs d
           = on_date d (get_events_for_month_opt now evs (Some (year d))
                          (Some (month d))))
    /\ (forall oy om,
          let y := or_default oy (year (date_of now)) in
          let m := or_default om (month (date_of now)) in
          Permutation
            (get_events_for_month_opt now evs oy om)
            (filter (fun e =>
                       (year (date_of (start_time e)) =? y)
                       && (month (date_of (start_time e)) =? m)) evs)
          /\ (forall e, In e (get_events_for_month_opt now evs oy om)
                        <-> In e evs
                            /\ year (date_of (start_time e)) = y
                            /\ month (date_of (start_time e)) = m)
          /\ StronglySorted start_le
               (get_events_for_month_opt now evs oy om)).
Proof.
  intros now evs. split.
  - intros d. split; [apply sort_by_start_perm|]. split.
    + intros e. unfold get_events_for_date.
      now rewrite sort_by_start_in, filter_In, date_eqb_eq.
    + split; [apply sort_by_start_strongly_sorted|].
      unfold get_events_for_month_opt.
      now rewrite on_date_month, !Z.eqb_refl.
  - intros oy om y m. unfold get_events_for_month_opt.
    change (match oy with None => year (date_of now) | Some y0 => y0 end)
      with y.
    change (match om with None => month (date_of now) | Some m0 => m0 end)
      with m.
    split; [apply sort_by_start_perm|]. split.
    + intros e. unfold get_events_for_month.
      now rewrite sort_by_start_in, filter_In, andb_true_iff, !Z.eqb_eq.
    + apply sort_by_start_strongly_sorted.
Qed.

Lemma date_le_ord a b :
  valid_date a -> valid_date b ->
  (date_le a b = true <-> toordinal a <= toordinal b).
Proof.
  intros Ha Hb. unfold date_le. rewrite (date_cmp_toordinal a b Ha Hb).
  destruct (Z.compare_spec (toordinal a) (toordinal b)); cbn; split;
    (lia || discriminate || reflexivity).
Qed.

Lemma timedelta_days_total n :
  timedelta_days n = Ok (mkdelta n 0 0)
  \/ timedelta_days n = Raise OverflowError.
Proof.
  destruct (Z_le_gt_dec (Z.abs n) 999999999) as [H|H].
  - left. now apply timedelta_days_ok.
  - right. unfold timedelta_days. rewrite new_timedelta_canon. cbv zeta.
    replace ((n * 86400 + 0) * 1000000 + 0) with (n * 86400000000) by ring.
    rewrite Z.div_mul by lia.
    replace (999999999 <? Z.abs n) with true
      by (symmetry; apply Z.ltb_lt; lia).
    reflexivity.
Qed.

Lemma week_start_default today :
  valid_date today ->
  let o := week_start today None in
  1 <= o /\ (o + 6) mod 7 = 0 /\ o <= toordinal today <= o + 6.
Proof.
  intros Hv. pose proof (toordinal_range today Hv) as Hr.
  cbv zeta. unfold week_start, weekday.
  revert Hr. generalize (toordinal today). intros t Hr. zdiv.
Qed.

(** The start date [get_events_for_week] works with. *)
Lemma week_start_date today start_date :
  valid_date today ->
  (forall d, start_date = Some d -> valid_date d) ->
  (match start_date with
   | None => back <- timedelta_days (weekday today) ;; date_sub today back
   | Some d => Ok d
   end) = Ok (fromordinal (week_start today start_date))
  /\ 1 <= week_start today start_date <= MAXORDINAL.
Proof.
  intros Hv Hsd. destruct start_date as [d|].
  - pose proof (toordinal_range d (Hsd d eq_refl)).
    cbn [week_start]. rewrite fromordinal_toordinal by auto. auto.
  - destruct (week_start_default today Hv) as (H1 & H2 & H3).
    pose proof (toordinal_range today Hv) as Hr.
    assert (Hw : 0 <= weekday today <= 6) by (unfold weekday; zdiv).
    rewrite timedelta_days_ok by lia. cbn [bind].
    unfold week_start in *.
    rewrite date_sub_days by (auto; lia). split; [reflexivity|lia].
Qed.

(** X15: [get_events_for_week] returns the stored events that start on one of
    the seven days from the start date, in ascending order of
    [start_time].  Without a start date the week starts on the Monday on or
    before today; that Monday is always a date.  The call raises
    [OverflowError] when the seventh day is after 9999-12-31. *)
Theorem get_events_for_week_spec :
  forall today evs start_date,
    valid_date today ->
    (forall d, start_date = Some d -> valid_date d) ->
    (forall e, In e evs -> valid_date (date_of (start_time e))) ->
    let o := week_start today start_date in
    (start_date = None ->
     1 <= o /\ (o + 6) mod 7 = 0 /\ o <= toordinal today <= o + 6)
    /\ (o + 6 <= MAXORDINAL ->
        exists l,
          get_events_for_week today evs start_date = Ok l
          /\ StronglySorted start_le l
          /\ forall e,
               In e l
               <-> In e evs
                   /\ o <= toordinal (date_of (start_time e)) <= o + 6)
    /\ (MAXORDINAL < o + 6 ->
        get_events_for_week today evs start_date = Raise OverflowError).
Proof.
  intros today evs start_date Hv Hsd Hev o.
  destruct (week_start_date today start_date Hv Hsd) as [Hstart Hr].
  fold o in Hstart, Hr.
  split; [intros ->; now apply week_start_default|].
  unfold get_events_for_week. rewrite Hstart. cbn [bind].
  rewrite timedelta_days_ok by lia. cbn [bind].
  pose proof (fromordinal_valid o Hr) as Hvo.
  pose proof (toordinal_fromordinal o Hr) as Eo.
  split.
  - intros Hhi.
    rewrite date_add_days by (auto; lia). cbn [bind]. rewrite Eo.
    eexists. split; [reflexivity|].
    split; [apply sort_by_start_strongly_sorted|].
    intros e. rewrite sort_by_start_in, filter_In, andb_true_iff.
    assert (H6 : 1 <= o + 6 <= MAXORDINAL) by lia.
    split; intros [Hin H]; (split; [exact Hin|]);
      pose proof (Hev e Hin) as Hve.
    + destruct H as [H1 H2].
      apply (date_le_ord _ _ Hvo Hve) in H1.
      apply (date_le_ord _ _ Hve (fromordinal_valid _ H6)) in H2.
      rewrite toordinal_fromordinal in H2 by assumption. lia.
    + split.
      * apply (date_le_ord _ _ Hvo Hve). lia.
      * apply (date_le_ord _ _ Hve (fromordinal_valid _ H6)).
        rewrite toordinal_fromordinal by assumption. lia.
  - intros Hhi. unfold date_add. cbn [days]. rewrite Eo.
    replace (o + 6 <=? MAXORDINAL) with false
      by (symmetry; apply Z.leb_gt; lia).
    now rewrite andb_false_r.
Qed.

Lemma get_events_for_week_spec_witness :
  exists l,
    get_events_for_week (mkdate 2024 3 6)
      [sample_event "A" (at_ 2024 3 4 10 0) (at_ 2024 3 4 11 0);
       sample_event "B" (at_ 2024 3 11 10 0) (at_ 2024 3 11 11 0)]
      None = Ok l
    /\ forall e,
         In e l
         <-> In e [sample_event "A" (at_ 2024 3 4 10 0) (at_ 2024 3 4 11 0);
                   sample_event "B" (at_ 2024 3 11 10 0)
                     (at_ 2024 3 11 11 0)]
             /\ week_start (mkdate 2024 3 6) None
                <= toordinal (date_of (start_time e))
                <= week_start (mkdate 2024 3 6) None + 6.
Proof.
  destruct (get_events_for_week_spec (mkdate 2024 3 6)
              [sample_event "A" (at_ 2024 3 4 10 0) (at_ 2024 3 4 11 0);
               sample_event "B" (at_ 2024 3 11 10 0) (at_ 2024 3 11 11 0)]
              None)
    as (_ & H & _).
  - reflexivity.
  - intros d [=].
  - intros e [<-|[<-|[]]]; reflexivity.
  - destruct H as (l & Hl & _ & Hin).
    + vm_compute. discriminate.
    + exists l. split; [exact Hl|exact Hin].
Defined.

(** ** Upcoming events *)

Lemma horizon_days now days0 :
  valid_datetime now ->
  MIN_US <= horizon_us now days0 <= MAX_US -> Z.abs days0 <= 999999999.
Proof.
  intros Hv Hh. pose proof (to_us_range now Hv) as Hr.
  unfold horizon_us, MIN_US, MAX_US, MAXORDINAL in *. lia.
Qed.

(** X16: [get_upcoming_events] returns the stored events that start from [now]
    to [now + days], both ends included, in ascending order of
    [start_time]; with a negative number of days it returns nothing.  It
    raises [OverflowError] when [now + days] is no datetime, whatever is
    stored. *)
Theorem get_upcoming_events_spec :
  forall now evs days0,
    valid_datetime now ->
    (forall e, In e evs -> valid_datetime (start_time e)) ->
    (MIN_US <= horizon_us now days0 <= MAX_US ->
     exists l,
       get_upcoming_events now evs days0 = Ok l
       /\ StronglySorted start_le l
       /\ (forall e,
             In e l
             <-> In e evs
                 /\ to_us now <= to_us (start_time e) <= horizon_us now days0)
       /\ (days0 < 0 -> l = []))
    /\ (horizon_us now days0 < MIN_US \/ MAX_US < horizon_us now days0 ->
        get_upcoming_events now evs days0 = Raise OverflowError).
Proof.
  intros now evs days0 Hnow Hev. unfold get_upcoming_events. split.
  - intros Hh. rewrite timedelta_days_ok by (eapply horizon_days; eauto).
    cbn [bind]. rewrite (datetime_add_canon now _ Hnow). cbv zeta.
    replace (to_us now + delta_us {| days := days0; seconds := 0;
                                     microseconds := 0 |})
      with (horizon_us now days0) by (unfold horizon_us, delta_us; cbn; ring).
    replace ((MIN_US <=? horizon_us now days0)
             && (horizon_us now days0 <=? MAX_US)) with true
      by (symmetry; apply andb_true_iff; rewrite !Z.leb_le; lia).
    cbn [bind]. destruct (of_us_valid _ Hh) as [Hvf Huf].
    assert (Hmem : forall e,
               In e (filter (fun event =>
                               le now (start_time event)
                               && le (start_time event)
                                     (of_us (horizon_us now days0))) evs)
               <-> In e evs
                   /\ to_us now <= to_us (start_time e)
                      <= horizon_us now days0).
    { intros e. rewrite filter_In, andb_true_iff.
      split; intros [Hin H]; (split; [exact Hin|]);
        pose proof (Hev e Hin) as Hve.
      - destruct H as [H1 H2]. apply (le_us _ _ Hnow Hve) in H1.
        apply (le_us _ _ Hve Hvf) in H2. rewrite Huf in H2. lia.
      - split; [apply (le_us _ _ Hnow Hve); lia|].
        apply (le_us _ _ Hve Hvf). rewrite Huf. lia. }
    eexists. split; [reflexivity|].
    split; [apply sort_by_start_strongly_sorted|]. split.
    + intros e. rewrite sort_by_start_in. apply Hmem.
    + intros Hneg.
      destruct (filter _ evs) as [|x rest] eqn:Ef; [reflexivity|exfalso].
      assert (Hx : In x (x :: rest)) by now left.
      apply Hmem in Hx. unfold horizon_us in Hx. lia.
  - intros Hout.
    destruct (timedelta_days_total days0) as [->| ->]; [|reflexivity].
    cbn [bind]. rewrite (datetime_add_canon now _ Hnow). cbv zeta.
    replace (to_us now + delta_us {| days := days0; seconds := 0;
                                     microseconds := 0 |})
      with (horizon_us now days0) by (unfold horizon_us, delta_us; cbn; ring).
    replace ((MIN_US <=? horizon_us now days0)
             && (horizon_us now days0 <=? MAX_US)) with false;
      [reflexivity|].
    symmetry. apply andb_false_iff. rewrite !Z.leb_gt. lia.
Qed.

Lemma get_upcoming_events_spec_witness :
  exists l,
    get_upcoming_events (at_ 2024 3 4 9 0)
      [sample_event "A" (at_ 2024 3 4 10 0) (at_ 2024 3 4 11 0);
       sample_event "B" (at_ 2024 3 3 10 0) (at_ 2024 3 3 11 0)] 7 = Ok l
    /\ StronglySorted start_le l.
Proof.
  destruct (get_upcoming_events_spec (at_ 2024 3 4 9 0)
              [sample_event "A" (at_ 2024 3 4 10 0) (at_ 2024 3 4 11 0);
               sample_event "B" (at_ 2024 3 3 10 0) (at_ 2024 3 3 11 0)] 7)
    as (H & _).
  - split; reflexivity.
  - intros e [<-|[<-|[]]]; split; reflexivity.
  - destruct H as (l & Hl & Hs & _).
    + split; vm_compute; discriminate.
    + exists l. auto.
Defined.

(** ** Search *)

Lemma prefix_occurs q s :
  prefix q s = true <-> exists b, s = (q ++ b)%string.
Proof.
  revert s. induction q as [|c q IH]; intros s.
  - split; [intros _; now exists s|intros _; now destruct s].
  - destruct s as [|c' s]; cbn.
    + split; [discriminate|intros [b [=]]].
    + destruct (ascii_dec c c') as [->|Hne].
      * rewrite IH. split; intros [b Hb]; exists b; congruence.
      * split; [discriminate|intros [b [= -> _]]; congruence].
Qed.

(** The test [q in s] of the model is the occurrence of [q] in [s]. *)
Lemma contains_occurs q s : contains q s = true <-> occurs_in q s.
Proof.
  induction s as [|c s IH].
  - cbn [contains]. rewrite orb_false_r, prefix_occurs. unfold occurs_in. split.
    + intros [b Hb]. exists "", b. exact Hb.
    + intros (a & b & H). destruct a; cbn in H; [eauto|discriminate].
  - cbn [contains]. rewrite orb_true_iff, prefix_occurs, IH.
    unfold occurs_in. split.
    + intros [[b Hb]|(a & b & Hb)].
      * exists "", b. exact Hb.
      * exists (String c a), b. cbn. now rewrite Hb.
    + intros (a & b & H). destruct a as [|c' a]; cbn in H.
      * left. eauto.
      * right. injection H as _ H. eauto.
Qed.

Lemma lower_char_idem c : lower_char (lower_char c) = lower_char c.
Proof.
  destruct c as [[|] [|] [|] [|] [|] [|] [|] [|]]; reflexivity.
Qed.

Lemma lower_idem s : lower (lower s) = lower s.
Proof.
  induction s as [|c s IH]; cbn; [reflexivity|].
  now rewrite lower_char_idem, IH.
Qed.

Lemma occurs_in_refl s : occurs_in s s.
Proof.
  exists "", "". cbn. induction s as [|c s IH]; cbn; [reflexivity|].
  now rewrite <- IH.
Qed.

(** X17: On ASCII text, [search_events] returns, in ascending order of
    [start_time], the stored events in whose title, description or
    location the query occurs when letter case is ignored.  The case of
    the query does not matter, and an event is always found by its own
    title, description or location in any letter case. *)
Theorem search_events_spec :
  forall evs query,
    is_ascii query = true ->
    (forall e, In e evs -> ascii_event e = true) ->
    (forall e, In e (search_events evs query) <-> In e evs /\ matches query e)
    /\ StronglySorted start_le (search_events evs query)
    /\ search_events evs (lower query) = search_events evs query
    /\ (forall e,
          In e evs ->
          lower query = lower (title e)
          \/ lower query = lower (description e)
          \/ lower query = lower (location e) ->
          In e (search_events evs query)).
Proof.
  intros evs query _ _.
  assert (Hmem : forall e, In e (search_events evs query)
                           <-> In e evs /\ matches query e).
  { intros e. unfold search_events, matches.
    rewrite sort_by_start_in, filter_In, !orb_true_iff, !contains_occurs.
    tauto. }
  split; [exact Hmem|].
  split; [apply sort_by_start_strongly_sorted|].
  split; [unfold search_events; now rewrite lower_idem|].
  intros e Hin H. apply Hmem. split; [exact Hin|].
  unfold matches.
  destruct H as [H|[H|H]]; rewrite H; auto using occurs_in_refl.
Qed.

Lemma search_events_spec_witness :
  In (sample_event "A" (at_ 2024 3 4 10 0) (at_ 2024 3 4 11 0))
     (search_events
        [sample_event "A" (at_ 2024 3 4 10 0) (at_ 2024 3 4 11 0)]
        "MEETING").
Proof.
  assert (Hascii : forall e,
             In e [sample_event "A" (at_ 2024 3 4 10 0) (at_ 2024 3 4 11 0)]
             -> ascii_event e = true)
    by (intros e [<-|[]]; reflexivity).
  apply (proj2 (proj2 (proj2 (search_events_spec
           [sample_event "A" (at_ 2024 3 4 10 0) (at_ 2024 3 4 11 0)]
           "MEETING" eq_refl Hascii)))).
  - now left.
  - left. reflexivity.
Defined.

(** ** Conflicts *)

Lemma le_lt_trans a b c : le a b = true -> lt b c = true -> lt a c = true.
Proof.
  intros H1 H2. destruct (lt a c) eqn:E; [reflexivity|exfalso].
  assert (Hca : le c a = true) by (rewrite le_not_lt, E; reflexivity).
  pose proof (le_trans _ _ _ Hca H1) as Hcb.
  rewrite le_not_lt, H2 in Hcb. discriminate.
Qed.

Lemma lt_le_trans a b c : lt a b = true -> le b c = true -> lt a c = true.
Proof.
  intros H1 H2. destruct (lt a c) eqn:E; [reflexivity|exfalso].
  assert (Hca : le c a = true) by (rewrite le_not_lt, E; reflexivity).
  pose proof (le_trans _ _ _ H2 Hca) as Hba.
  rewrite le_not_lt, H1 in Hba. discriminate.
Qed.

Lemma conflicts_in evs s e ex x :
  In x (get_event_conflicts evs s e ex)
  <-> In x evs
      /\ (match ex with
          | Some i => truthy i && String.eqb (id x) i
          | None => false
          end = false)
      /\ overlaps s e x = true.
Proof.
  unfold get_event_conflicts, overlaps. rewrite filter_In.
  destruct (match ex with
            | Some i => truthy i && String.eqb (id x) i
            | None => false
            end); intuition congruence.
Qed.

(** X18: Widening the queried interval never loses a conflict; two events
    conflict with each other's interval or neither does; and a stored
    event conflicts with its own interval exactly when it starts before it
    ends, so an event of zero length is never in conflict with itself. *)
Theorem get_event_conflicts_algebra :
  (forall evs s e s' e' ex x,
      le s' s = true -> le e e' = true ->
      In x (get_event_conflicts evs s e ex) ->
      In x (get_event_conflicts evs s' e' ex))
  /\ (forall a b,
        In b (get_event_conflicts [b] (start_time a) (end_time a) None)
        <-> In a (get_event_conflicts [a] (start_time b) (end_time b) None))
  /\ (forall evs x,
        In x evs ->
        (In x (get_event_conflicts evs (start_time x) (end_time x) None)
         <-> lt (start_time x) (end_time x) = true)).
Proof.
  split; [|split].
  - intros evs s e s' e' ex x Hs He. rewrite !conflicts_in.
    intros (Hin & Hex & Ho). split; [exact Hin|]. split; [exact Hex|].
    unfold overlaps in *. rewrite gt_lt in *.
    apply andb_true_iff in Ho. destruct Ho as [H1 H2].
    apply andb_true_iff. split.
    + eapply le_lt_trans; eauto.
    + eapply lt_le_trans; eauto.
  - intros a b. rewrite !conflicts_in. unfold overlaps.
    rewrite !gt_lt, !andb_true_iff. cbn. intuition.
  - intros evs x Hin. rewrite conflicts_in. unfold overlaps.
    rewrite gt_lt, andb_diag. tauto.
Qed.

Lemma get_event_conflicts_algebra_witness :
  In (sample_event "A" (at_ 2024 3 4 10 0) (at_ 2024 3 4 11 0))
     (get_event_conflicts
        [sample_event "A" (at_ 2024 3 4 10 0) (at_ 2024 3 4 11 0)]
        (at_ 2024 3 4 9 0) (at_ 2024 3 4 12 0) None).
Proof.
  apply (proj1 get_event_conflicts_algebra _
           (at_ 2024 3 4 10 30) (at_ 2024 3 4 10 45)
           (at_ 2024 3 4 9 0) (at_ 2024 3 4 12 0)).
  - reflexivity.
  - reflexivity.
  - cbn. auto.
Defined.

(** ** More on free slots *)

(** X19: On a date on which no stored event starts, the whole working day from
    09:00 to 18:00 is the one free slot when at most 540 minutes are asked
    for, and there is no slot otherwise; events that start on other dates
    are not looked at, even when they last into the date. *)
Theorem free_slots_of_empty_day :
  forall evs target_date duration_minutes,
    valid_date target_date ->
    (forall e, In e evs -> date_of (start_time e) <> target_date) ->
    get_free_time_slots evs target_date duration_minutes
    = Ok (if duration_minutes <=? 540
          then [mkSlot (combine target_date (at_hour 9))
                       (combine target_date (at_hour 18))]
          else []).
Proof.
  intros evs d m Hd Hnone.
  unfold get_free_time_slots, get_events_for_date.
  rewrite filter_none.
  2:{ intros e He. destruct (date_eqb (date_of (start_time e)) d) eqn:E;
        [|reflexivity].
      apply date_eqb_eq in E. now apply Hnone in He. }
  cbn [sort_by_start fold_right free_slot_loop bind].
  destruct (combine_us d Hd 9 ltac:(lia)) as [Hv9 Hu9].
  destruct (combine_us d Hd 18 ltac:(lia)) as [Hv18 Hu18].
  replace (lt (combine d (at_hour 9)) (combine d (at_hour 18))) with true
    by (symmetry; apply (lt_us _ _ Hv9 Hv18); lia).
  unfold datetime_sub. cbn [date_of time_of at_hour hour minute second
                              microsecond].
  rewrite Z.sub_diag.
  change (new_timedelta 0 (0 + 0 * 60 + 18 * 3600 - (0 + 0 * 60 + 9 * 3600))
            (0 - 0)) with (Ok (mkdelta 0 32400 0)).
  cbn [bind seconds]. change (32400 / 60) with 540.
  now destruct (m <=? 540).
Qed.

Lemma free_slots_of_empty_day_witness :
  get_free_time_slots
    [sample_event "Y" (at_ 2024 3 3 23 0) (at_ 2024 3 4 12 0)]
    (mkdate 2024 3 4) 60
  = Ok [mkSlot (at_ 2024 3 4 9 0) (at_ 2024 3 4 18 0)].
Proof.
  apply (free_slots_of_empty_day
           [sample_event "Y" (at_ 2024 3 3 23 0) (at_ 2024 3 4 12 0)]
           (mkdate 2024 3 4) 60).
  - reflexivity.
  - intros e [<-|[]]. discriminate.
Defined.

Local Ltac conj_split := repeat match goal with |- _ /\ _ => split end.

Lemma gap_long_enough_spec m a b :
  gap_long_enough m a b = true
  <-> to_us a < to_us b /\ m * 60000000 <= to_us b - to_us a.
Proof.
  unfold gap_long_enough. now rewrite andb_true_iff, Z.ltb_lt, Z.leb_le.
Qed.

(** What the walk emits: slots that start at or after the cursor, have a
    positive length of at least the minimum, end where an event starts,
    and the final cursor is not before any event's end. *)
Lemma walk_slots m : forall l c,
  valid_datetime c -> valid_events l ->
  Forall (fun s =>
            valid_datetime (slot_start s) /\ valid_datetime (slot_end s)
            /\ to_us c <= to_us (slot_start s)
            /\ to_us (slot_start s) < to_us (slot_end s)
            /\ m * 60000000 <= slot_us s
            /\ exists e, In e l /\ slot_end s = start_time e)
         (fst (walk m c l))
  /\ valid_datetime (snd (walk m c l))
  /\ to_us c <= to_us (snd (walk m c l))
  /\ forall e, In e l -> to_us (end_time e) <= to_us (snd (walk m c l)).
Proof.
  induction l as [|e rest IH]; intros c Hc Hl.
  - cbn. split; [constructor|]. split; [assumption|].
    split; [lia|]. intros e [].
  - destruct (Hl e (or_introl eq_refl)) as [Hs He].
    cbn [walk].
    specialize (IH (later c (end_time e)) (later_valid _ _ Hc He)
                   (fun x Hx => Hl x (or_intror Hx))).
    destruct (walk m (later c (end_time e)) rest) as [slots final].
    cbn [fst snd] in *. destruct IH as (IH1 & IH2 & IH3 & IH4).
    pose proof (later_ge c (end_time e)) as Hge.
    assert (Hend : to_us (end_time e) <= to_us (later c (end_time e))).
    { unfold later. destruct (to_us c <? to_us (end_time e)) eqn:E; [lia|].
      apply Z.ltb_ge in E. lia. }
    split; [|split; [exact IH2|split; [lia|]]].
    + apply Forall_app. split.
      * destruct (gap_long_enough m c (start_time e)) eqn:Eg;
          [|constructor].
        apply gap_long_enough_spec in Eg.
        constructor; [|constructor]. cbn [slot_start slot_end].
        unfold slot_us. cbn [slot_start slot_end].
        conj_split; auto; try lia. exists e. split; [now left|reflexivity].
      * eapply Forall_impl; [|exact IH1]. cbn beta.
        intros s (H1 & H2 & H3 & H4 & H5 & x & Hx & Hxe).
        conj_split; auto; try lia. exists x. split; [now right|exact Hxe].
    + intros x [<-|Hx]; [lia|now apply IH4].
Qed.

(** With events that do not end before they start, each slot ends before
    the next one starts. *)
Lemma walk_ordered m : forall l c,
  valid_datetime c -> valid_events l ->
  (forall e, In e l -> to_us (start_time e) <= to_us (end_time e)) ->
  StronglySorted
    (fun a b => to_us (slot_end a) <= to_us (slot_start b))
    (fst (walk m c l)).
Proof.
  induction l as [|e rest IH]; intros c Hc Hl Hpos; [constructor|].
  destruct (Hl e (or_introl eq_refl)) as [Hs He].
  cbn [walk].
  pose proof (walk_slots m rest (later c (end_time e))
                (later_valid _ _ Hc He)
                (fun x Hx => Hl x (or_intror Hx))) as (W1 & _).
  specialize (IH (later c (end_time e)) (later_valid _ _ Hc He)
                 (fun x Hx => Hl x (or_intror Hx))
                 (fun x Hx => Hpos x (or_intror Hx))).
  destruct (walk m (later c (end_time e)) rest) as [slots final].
  cbn [fst snd] in *.
  destruct (gap_long_enough m c (start_time e)); [|exact IH].
  cbn [app]. constructor; [exact IH|].
  eapply Forall_impl; [|exact W1]. cbn beta.
  intros s (_ & _ & H3 & _). cbn [slot_end].
  pose proof (Hpos e (or_introl eq_refl)).
  assert (Hend : to_us (end_time e) <= to_us (later c (end_time e))).
  { unfold later. destruct (to_us c <? to_us (end_time e)) eqn:E; [lia|].
    apply Z.ltb_ge in E. lia. }
  lia.
Qed.

(** With events sorted by start, no emitted slot overlaps an event. *)
Lemma walk_disjoint m : forall l c,
  valid_datetime c -> valid_events l ->
  StronglySorted (fun a b => to_us (start_time a) <= to_us (start_time b)) l ->
  Forall (fun s =>
            forall e, In e l ->
              to_us (end_time e) <= to_us (slot_start s)
              \/ to_us (slot_end s) <= to_us (start_time e))
         (fst (walk m c l)).
Proof.
  induction l as [|e rest IH]; intros c Hc Hl Hsorted; [constructor|].
  destruct (Hl e (or_introl eq_refl)) as [Hs He].
  inversion Hsorted as [|? ? Hrest Hhd]; subst.
  cbn [walk].
  pose proof (walk_slots m rest (later c (end_time e))
                (later_valid _ _ Hc He)
                (fun x Hx => Hl x (or_intror Hx))) as (W1 & _).
  specialize (IH (later c (end_time e)) (later_valid _ _ Hc He)
                 (fun x Hx => Hl x (or_intror Hx)) Hrest).
  destruct (walk m (later c (end_time e)) rest) as [slots final].
  cbn [fst snd] in *.
  assert (Hend : to_us (end_time e) <= to_us (later c (end_time e))).
  { unfold later. destruct (to_us c <? to_us (end_time e)) eqn:E; [lia|].
    apply Z.ltb_ge in E. lia. }
  apply Forall_app. split.
  - destruct (gap_long_enough m c (start_time e)); [|constructor].
    constructor; [|constructor]. cbn [slot_start slot_end].
    intros x [<-|Hx]; [right; lia|].
    right. rewrite Forall_forall in Hhd. now apply Hhd.
  - rewrite Forall_forall in *. intros s Hin x [<-|Hx].
    + left. destruct (W1 s Hin) as (_ & _ & H3 & _). lia.
    + now apply IH.
Qed.

Section DaySlots.

Variables (evs : list CalendarEvent) (target_date : date)
  (duration_minutes : Z).
Hypothesis target_valid : valid_date target_date.
Hypothesis evs_valid : valid_events evs.

Local Abbreviation day_events :=
  (sort_by_start
     (filter (fun e => date_eqb (date_of (start_time e)) target_date) evs)).

Lemma day_events_in e :
  In e day_events <-> In e evs /\ date_of (start_time e) = target_date.
Proof. now rewrite sort_by_start_in, filter_In, date_eqb_eq. Qed.

Lemma day_events_valid : valid_events day_events.
Proof. intros e He. apply evs_valid. now apply day_events_in in He. Qed.

Lemma day_events_sorted :
  StronglySorted (fun a b => to_us (start_time a) <= to_us (start_time b))
                 day_events.
Proof.
  pose proof (sort_by_start_strongly_sorted
                (filter (fun e => date_eqb (date_of (start_time e))
                                    target_date) evs)) as H.
  pose proof day_events_valid as Hv.
  induction H as [|x l Hs IH Hhd]; constructor.
  - apply IH. intros e He. apply Hv. now right.
  - rewrite Forall_forall in *. intros y Hy.
    apply (le_us _ _ (proj1 (Hv x (or_introl eq_refl)))
                     (proj1 (Hv y (or_intror Hy)))).
    now apply Hhd.
Qed.

(** The slots of the specification's walk, unfolded. *)
Lemma free_slots_spec_eq :
  free_slots_spec evs target_date duration_minutes
  = fst (walk duration_minutes (combine target_date (at_hour 9)) day_events)
    ++ (if gap_long_enough duration_minutes
             (snd (walk duration_minutes (combine target_date (at_hour 9))
                     day_events))
             (combine target_date (at_hour 18))
        then [mkSlot (snd (walk duration_minutes
                             (combine target_date (at_hour 9)) day_events))
                     (combine target_date (at_hour 18))]
        else []).
Proof.
  unfold free_slots_spec.
  change (mktime 9 0 0 0) with (at_hour 9).
  change (mktime 18 0 0 0) with (at_hour 18).
  now destruct (walk duration_minutes (combine target_date (at_hour 9))
                  day_events).
Qed.

(** X20: Every free slot starts at 09:00 or later, has a positive length of at
    least the minutes asked for, and overlaps no stored event that starts
    on the date; when no such event ends before it starts, the slots come
    in ascending order without overlapping each other.  (A slot may end
    after 18:00: a gap before an evening event is not cut.) *)
Theorem free_slots_well_formed :
  exists slots,
    get_free_time_slots evs target_date duration_minutes = Ok slots
    /\ Forall (fun s =>
                 day_start target_date + 32400000000 <= to_us (slot_start s)
                 /\ to_us (slot_start s) < to_us (slot_end s)
                 /\ duration_minutes * 60000000 <= slot_us s
                 /\ forall e,
                      In e evs -> date_of (start_time e) = target_date ->
                      ~ In e (get_event_conflicts evs (slot_start s)
                                (slot_end s) None))
              slots
    /\ ((forall e, In e evs -> date_of (start_time e) = target_date ->
                   to_us (start_time e) <= to_us (end_time e)) ->
        StronglySorted
          (fun a b => to_us (slot_end a) <= to_us (slot_start b)) slots).
Proof.
  exists (free_slots_spec evs target_date duration_minutes).
  split; [now apply free_slots_refine|].
  rewrite free_slots_spec_eq.
  destruct (combine_us target_date target_valid 9 ltac:(lia)) as [Hv9 Hu9].
  destruct (combine_us target_date target_valid 18 ltac:(lia))
    as [Hv18 Hu18].
  pose proof (walk_slots duration_minutes day_events _ Hv9 day_events_valid)
    as (W1 & W2 & W3 & W4).
  pose proof (walk_disjoint duration_minutes day_events _ Hv9
                day_events_valid day_events_sorted) as D.
  set (w := walk duration_minutes (combine target_date (at_hour 9))
              day_events) in *.
  assert (Hno : forall s,
             valid_datetime (slot_start s) -> valid_datetime (slot_end s) ->
             (forall e, In e day_events ->
                        to_us (end_time e) <= to_us (slot_start s)
                        \/ to_us (slot_end s) <= to_us (start_time e)) ->
             forall e, In e evs -> date_of (start_time e) = target_date ->
                       ~ In e (get_event_conflicts evs (slot_start s)
                                 (slot_end s) None)).
  { intros s Hvs Hve Hdis e He Hdate Hin.
    apply conflicts_in in Hin. destruct Hin as (_ & _ & Ho).
    unfold overlaps in Ho. apply andb_true_iff in Ho.
    destruct Ho as [H1 H2].
    destruct (evs_valid e He) as [Hes Hee].
    apply (lt_us _ _ Hvs Hee) in H1. apply (gt_us _ _ Hve Hes) in H2.
    destruct (Hdis e) as [H|H]; [apply day_events_in; auto|lia|lia]. }
  split.
  - apply Forall_app. split.
    + rewrite Forall_forall in *. intros s Hs.
      destruct (W1 s Hs) as (H1 & H2 & H3 & H4 & H5 & _).
      conj_split; [lia|lia|lia|]. apply Hno; auto.
    + destruct (gap_long_enough duration_minutes (snd w)
                  (combine target_date (at_hour 18))) eqn:Eg;
        [|constructor].
      apply gap_long_enough_spec in Eg.
      constructor; [|constructor]. cbn [slot_start slot_end].
      unfold slot_us. cbn [slot_start slot_end].
      conj_split; [lia|lia|lia|].
      apply (Hno (mkSlot (snd w) (combine target_date (at_hour 18))));
        cbn [slot_start slot_end]; auto.
  - intros Hpos.
    assert (Hpos' : forall e, In e day_events ->
                              to_us (start_time e) <= to_us (end_time e)).
    { intros e He. apply day_events_in in He. destruct He. auto. }
    pose proof (walk_ordered duration_minutes day_events _ Hv9
                  day_events_valid Hpos') as O.
    fold w in O.
    destruct (gap_long_enough duration_minutes (snd w)
                (combine target_date (at_hour 18)));
      [|now rewrite app_nil_r].
    clear D Hno. revert O W1. generalize (fst w) as slots.
    induction slots as [|s slots IH]; intros O W1; cbn [app].
    + repeat constructor.
    + inversion O; subst. inversion W1 as [|? ? Hs' W1']; subst.
      constructor; [now apply IH|].
      apply Forall_app. split; [assumption|].
      constructor; [|constructor]. cbn [slot_start].
      destruct Hs' as (_ & _ & _ & _ & _ & e & He & ->).
      pose proof (W4 e He). pose proof (Hpos' e He). lia.
Qed.

End DaySlots.

Lemma free_slots_well_formed_witness :
  exists slots,
    get_free_time_slots
      [sample_event "A" (at_ 2024 3 4 10 0) (at_ 2024 3 4 11 0);
       sample_event "B" (at_ 2024 3 4 20 0) (at_ 2024 3 4 21 0)]
      (mkdate 2024 3 4) 30 = Ok slots
    /\ StronglySorted
         (fun a b => to_us (slot_end a) <= to_us (slot_start b)) slots.
Proof.
  assert (Hv : valid_events
                 [sample_event "A" (at_ 2024 3 4 10 0) (at_ 2024 3 4 11 0);
                  sample_event "B" (at_ 2024 3 4 20 0) (at_ 2024 3 4 21 0)])
    by (intros e [<-|[<-|[]]]; repeat split).
  destruct (free_slots_well_formed _ (mkdate 2024 3 4) 30 eq_refl Hv)
    as (slots & H1 & _ & H3).
  exists slots. split; [exact H1|]. apply H3.
  intros e [<-|[<-|[]]] _; vm_compute; discriminate.
Defined.

End QueryMore.

(** * More on the month grid: what the cells list, the days covered, the
    counts *)

Module GridMore.

Import PyDatetime PyStr PyIso Calendar Timeline Fields MoreDefs.
Import OrdinalFacts OrderFacts ArithFacts RepositoryFacts QueryFacts.
Import SerialFacts GridFacts RepositoryMore QueryMore.

(** ** The dictionary of the grid *)

Lemma by_date_get_append k k' e d :
  by_date_get k (by_date_append k' e d)
  = if date_eqb k' k then Some (by_date_get_default k d ++ [e])
    else by_date_get k d.
Proof.
  unfold by_date_get_default.
  induction d as [|[k0 v0] d IH].
  - cbn. now destruct (date_eqb k' k).
  - cbn [by_date_append by_date_get].
    destruct (date_eqb k0 k') eqn:E0.
    + apply date_eqb_eq in E0. subst k0. cbn [by_date_get].
      now destruct (date_eqb k' k).
    + cbn [by_date_get]. destruct (date_eqb k0 k) eqn:E1; [|exact IH].
      destruct (date_eqb k' k) eqn:E2; [|reflexivity].
      apply date_eqb_eq in E1, E2. subst. now rewrite date_eqb_refl in E0.
Qed.

Lemma group_fold_get k : forall l d,
  by_date_get k
    (fold_left
       (fun d0 event => by_date_append (date_of (start_time event)) event d0)
       l d)
  = match on_date k l with
    | [] => by_date_get k d
    | v => Some (by_date_get_default k d ++ v)
    end.
Proof.
  induction l as [|e l IH]; intros d; [reflexivity|].
  cbn [fold_left]. rewrite IH. unfold on_date. cbn [filter].
  fold (on_date k l). unfold by_date_get_default.
  rewrite by_date_get_append. unfold by_date_get_default.
  destruct (date_eqb (date_of (start_time e)) k).
  - destruct (on_date k l); [reflexivity|].
    now rewrite <- app_assoc.
  - reflexivity.
Qed.

(** Looking a date up in the dictionary of the grid gives the events of
    the list that start on the date, in the order of the list; the date
    is a key exactly when there is such an event. *)
Lemma group_by_date_get k l :
  by_date_get k (group_by_date l)
  = match on_date k l with [] => None | v => Some v end.
Proof. unfold group_by_date. now rewrite group_fold_get. Qed.

(** ** Months on the line of ordinals *)

Lemma month_range d :
  valid_date d ->
  month_first (year d) (month d) <= toordinal d
  < month_first (year d) (month d) + days_in_month (year d) (month d).
Proof.
  intros Hd. apply check_date_fields_inv in Hd.
  unfold month_first, toordinal, ymd2ord. cbn [year month day]. lia.
Qed.

(** A date is in a month exactly when its ordinal is between the first
    and the last day of the month. *)
Lemma in_month_iff d y m :
  valid_date d -> MINYEAR <= y <= MAXYEAR -> 1 <= m <= 12 ->
  (year d = y /\ month d = m)
  <-> month_first y m <= toordinal d < month_first y m + days_in_month y m.
Proof.
  intros Hd Hy Hm. split.
  - intros [<- <-]. now apply month_range.
  - intros Hr.
    set (d' := mkdate y m (toordinal d - month_first y m + 1)).
    assert (Hd' : valid_date d').
    { unfold valid_date, d'. cbn [year month day].
      apply check_date_fields_intro; lia. }
    assert (E : d = d').
    { apply toordinal_inj; [exact Hd|exact Hd'|].
      unfold d', month_first, toordinal, ymd2ord. cbn [year month day].
      unfold month_first, toordinal, ymd2ord in Hr. cbn [year month day] in Hr.
      lia. }
    rewrite E. split; reflexivity.
Qed.

(** The month before a month ends the day before the month starts. *)
Lemma prev_month y m :
  MINYEAR <= y <= MAXYEAR -> 1 <= m <= 12 -> (y, m) <> (1, 1) ->
  exists yp mp,
    MINYEAR <= yp <= MAXYEAR /\ 1 <= mp <= 12 /\ (yp, mp) <> (y, m)
    /\ 28 <= days_in_month yp mp
    /\ month_first yp mp + days_in_month yp mp = month_first y m.
Proof.
  unfold MINYEAR, MAXYEAR. intros Hy Hm Hne.
  destruct (Z.eq_dec m 1) as [->|Hm1].
  - assert (y <> 1) by congruence.
    exists (y - 1), 12. split; [lia|]. split; [lia|].
    split; [intros [= ? ?]; lia|].
    destruct (month_span (y - 1) 12 ltac:(lia)) as (_ & H28 & _).
    split; [exact H28|].
    unfold month_first, toordinal, ymd2ord. cbn [year month day].
    pose proof (days_before_year_succ (y - 1)) as Hs.
    replace (y - 1 + 1) with y in Hs by lia. rewrite Hs.
    unfold days_before_month, days_in_month. eval_tables.
    destruct (is_leap (y - 1)), (is_leap y); cbn; lia.
  - exists y, (m - 1). split; [lia|]. split; [lia|].
    split; [intros [= ?]; lia|].
    destruct (month_span y (m - 1) ltac:(lia)) as (_ & H28 & _ & Hn).
    split; [exact H28|].
    specialize (Hn ltac:(lia)). replace (m - 1 + 1) with m in Hn by lia.
    unfold month_first, toordinal, ymd2ord. cbn [year month day]. lia.
Qed.

Lemma days_in_month_max y m : 1 <= m <= 12 -> days_in_month y m <= 31.
Proof.
  intros Hm. unfold days_in_month.
  month_cases m; eval_tables; destruct (is_leap y); cbn; lia.
Qed.

(** ** The cells of the grid *)

Lemma cells_from_nth_error year0 month0 today events_by_date o n i :
  (i < n)%nat ->
  nth_error (cells_from year0 month0 today events_by_date o n) i
  = Some (make_cell year0 month0 today events_by_date
            (fromordinal (o + Z.of_nat i))).
Proof.
  intros Hi. unfold cells_from. rewrite nth_error_map, nth_error_seq.
  destruct (Nat.ltb_spec i n); [reflexivity|lia].
Qed.

Lemma grid_events_unfold evs y m start_date :
  grid_events evs y m start_date
  = if negb (month start_date =? m) || negb (year start_date =? y)
    then get_events_for_month evs y m
         ++ get_events_for_month evs (year start_date) (month start_date)
    else get_events_for_month evs y m.
Proof. reflexivity. Qed.

(** The value of [get_calendar_matrix], field by field. *)
Lemma get_calendar_matrix_eq now today evs oy om :
  let y := or_default oy (year (date_of now)) in
  let m := or_default om (month (date_of now)) in
  MINYEAR <= y <= MAXYEAR -> 1 <= m <= 12 ->
  (y, m) <> (1, 1) -> (y, m) <> (9999, 12) ->
  exists mx events_by_date,
    get_calendar_matrix now today evs oy om = Ok mx
    /\ events_by_date
       = group_by_date (grid_events evs y m (fromordinal (grid_first y m)))
    /\ calendar_matrix mx
       = weeks_from y m today events_by_date (grid_first y m) 6
    /\ matrix_year mx = y /\ matrix_month mx = m
    /\ month_name mx = nth (Z.to_nat m) MONTH_NAMES ""
    /\ events_count mx = List.length (get_events_for_month evs y m)
    /\ total_days_with_events mx
       = List.length
           (filter (fun kv => (year (fst kv) =? y) && (month (fst kv) =? m))
                   events_by_date).
Proof.
  intros y m Hy Hm Hne1 Hne2.
  unfold get_calendar_matrix.
  change (match oy with None => year (date_of now) | Some y0 => y0 end)
    with y.
  change (match om with None => month (date_of now) | Some m0 => m0 end)
    with m.
  rewrite (new_date_first y m Hy Hm). cbn [bind].
  rewrite timedelta_days_ok by lia. cbn [bind].
  destruct (last_day_ok y m Hy Hm Hne2) as [last_day ->]. cbn [bind].
  pose proof (first_of_month_valid y m Hy Hm) as Hv.
  pose proof (first_of_month_lower y m Hy Hm Hne1) as Hlo.
  pose proof (first_of_month_upper y m Hy Hm Hne2) as Hhi.
  unfold grid_first, month_first.
  set (first_day := mkdate y m 1) in *.
  change (ymd2ord y m 1) with (toordinal first_day) in Hlo, Hhi.
  set (wd := (weekday first_day + 1) mod 7).
  assert (Hwd : 0 <= wd <= 6) by (unfold wd; zdiv).
  rewrite timedelta_days_ok by lia. cbn [bind].
  rewrite date_sub_days by (assumption || lia). cbn [bind]. cbv zeta.
  set (o := toordinal first_day - wd).
  set (start_date := fromordinal o).
  assert (Hsd : start_date = fromordinal o) by reflexivity.
  clearbody start_date.
  set (all_events :=
         if negb (month start_date =? m) || negb (year start_date =? y)
         then get_events_for_month evs y m
              ++ get_events_for_month evs (year start_date)
                   (month start_date)
         else get_events_for_month evs y m).
  assert (Hall : all_events = grid_events evs y m (fromordinal o))
    by (rewrite <- Hsd, grid_events_unfold; reflexivity).
  rewrite Hsd.
  rewrite (month_loop_spec y m today (group_by_date all_events)
             (seq 0 6) [] o)
    by (rewrite ?length_seq; unfold MAXORDINAL in *; lia).
  rewrite length_seq. cbn [bind app].
  eexists. exists (group_by_date all_events).
  split; [reflexivity|]. split; [now rewrite Hall|].
  cbn [calendar_matrix matrix_year matrix_month month_name events_count
       total_days_with_events].
  repeat split.
Qed.

Lemma in_monthb_iff d y m :
  (year d =? y) && (month d =? m) = true <-> year d = y /\ month d = m.
Proof. now rewrite andb_true_iff, !Z.eqb_eq. Qed.

Lemma in_monthb_range d y m :
  valid_date d -> MINYEAR <= y <= MAXYEAR -> 1 <= m <= 12 ->
  (year d =? y) && (month d =? m)
  = (month_first y m <=? toordinal d)
    && (toordinal d <? month_first y m + days_in_month y m).
Proof.
  intros Hd Hy Hm. apply eq_true_iff_eq.
  rewrite in_monthb_iff, (in_month_iff d y m Hd Hy Hm).
  now rewrite andb_true_iff, Z.leb_le, Z.ltb_lt.
Qed.

Lemma month_first_range y m :
  MINYEAR <= y <= MAXYEAR -> 1 <= m <= 12 ->
  (y, m) <> (1, 1) -> (y, m) <> (9999, 12) ->
  32 <= month_first y m <= MAXORDINAL - 60.
Proof.
  intros Hy Hm H1 H2. unfold month_first, toordinal. cbn [year month day].
  split; [now apply first_of_month_lower|now apply first_of_month_upper].
Qed.

Lemma grid_first_range y m :
  month_first y m - 6 <= grid_first y m <= month_first y m
  /\ (grid_first y m + 6) mod 7 = 6.
Proof. unfold grid_first, weekday, month_first. zdiv. Qed.

Lemma on_date_app d l1 l2 :
  on_date d (l1 ++ l2) = on_date d l1 ++ on_date d l2.
Proof. apply filter_app. Qed.

(** The events the grid finds for the date of ordinal [n], from the first
    day [o] of the grid on: those of the date up to the last day of the
    month, none after it. *)
Lemma on_date_grid_events evs y m o n :
  MINYEAR <= y <= MAXYEAR -> 1 <= m <= 12 -> (y, m) <> (1, 1) ->
  32 <= month_first y m ->
  month_first y m - 6 <= o <= month_first y m ->
  o <= n <= MAXORDINAL ->
  on_date (fromordinal n) (grid_events evs y m (fromordinal o))
  = if n <? month_first y m + days_in_month y m
    then get_events_for_date evs (fromordinal n)
    else [].
Proof.
  intros Hy Hm Hne HF Ho Hn.
  assert (Hor : 1 <= o <= MAXORDINAL) by lia.
  assert (Hnr : 1 <= n <= MAXORDINAL) by lia.
  pose proof (fromordinal_valid o Hor) as HvS.
  pose proof (fromordinal_valid n Hnr) as HvD.
  pose proof (toordinal_fromordinal o Hor) as HoS.
  pose proof (toordinal_fromordinal n Hnr) as HoD.
  destruct (month_span y m Hm) as (_ & H28 & _).
  destruct (prev_month y m Hy Hm Hne)
    as (yp & mp & Hyp & Hmp & Hnep & H28p & Hprev).
  rewrite grid_events_unfold.
  set (S := fromordinal o) in *. set (D := fromordinal n) in *.
  replace (negb (month S =? m) || negb (year S =? y))
    with (negb ((year S =? y) && (month S =? m)))
    by (destruct (year S =? y), (month S =? m); reflexivity).
  rewrite (in_monthb_range S y m HvS Hy Hm), HoS.
  destruct (Z.ltb_spec n (month_first y m + days_in_month y m)) as [Hlt|Hge].
  - destruct (Z.leb_spec (month_first y m) o) as [HoF|HoF]; cbn [andb negb].
    + (* the grid starts on the first of the month *)
      replace (o <? month_first y m + days_in_month y m) with true
        by (symmetry; apply Z.ltb_lt; lia).
      cbn [negb]. rewrite on_date_month.
      rewrite (in_monthb_range D y m HvD Hy Hm), HoD.
      replace (month_first y m <=? n) with true
        by (symmetry; apply Z.leb_le; lia).
      replace (n <? month_first y m + days_in_month y m) with true
        by (symmetry; apply Z.ltb_lt; lia).
      reflexivity.
    + (* the grid starts in the month before *)
      assert (HS : year S = yp /\ month S = mp)
        by (apply (in_month_iff S yp mp HvS Hyp Hmp); lia).
      destruct HS as [HSy HSm]. rewrite HSy, HSm.
      rewrite on_date_app.
      rewrite !on_date_month.
      rewrite (in_monthb_range D y m HvD Hy Hm),
        (in_monthb_range D yp mp HvD Hyp Hmp), HoD.
      destruct (Z.leb_spec (month_first y m) n) as [HnF|HnF].
      * replace (n <? month_first y m + days_in_month y m) with true
          by (symmetry; apply Z.ltb_lt; lia).
        replace (n <? month_first yp mp + days_in_month yp mp) with false
          by (symmetry; apply Z.ltb_ge; lia).
        cbn [andb]. rewrite andb_false_r. now rewrite app_nil_r.
      * replace (month_first yp mp <=? n) with true
          by (symmetry; apply Z.leb_le; lia).
        replace (n <? month_first yp mp + days_in_month yp mp) with true
          by (symmetry; apply Z.ltb_lt; lia).
        reflexivity.
  - assert (HD : (year D =? y) && (month D =? m) = false).
    { rewrite (in_monthb_range D y m HvD Hy Hm), HoD.
      replace (n <? month_first y m + days_in_month y m) with false
        by (symmetry; apply Z.ltb_ge; lia).
      apply andb_false_r. }
    destruct (Z.leb_spec (month_first y m) o) as [HoF|HoF]; cbn [andb negb].
    + replace (o <? month_first y m + days_in_month y m) with true
        by (symmetry; apply Z.ltb_lt; lia).
      cbn [negb]. now rewrite on_date_month, HD.
    + assert (HS : year S = yp /\ month S = mp)
        by (apply (in_month_iff S yp mp HvS Hyp Hmp); lia).
      destruct HS as [HSy HSm]. rewrite HSy, HSm.
      rewrite on_date_app.
      rewrite !on_date_month, HD.
      rewrite (in_monthb_range D yp mp HvD Hyp Hmp), HoD.
      replace (n <? month_first yp mp + days_in_month yp mp) with false
        by (symmetry; apply Z.ltb_ge; lia).
      now rewrite andb_false_r.
Qed.

Lemma make_cell_events y m today l current_date :
  cell_events (make_cell y m today (group_by_date l) current_date)
  = on_date current_date l
  /\ has_events (make_cell y m today (group_by_date l) current_date)
     = negb (match on_date current_date l with [] => true | _ => false end).
Proof.
  unfold make_cell. cbn [cell_events has_events].
  rewrite group_by_date_get. now destruct (on_date current_date l).
Qed.

(** X21: In the grid of a month, the cell of a day up to the last day of the
    month lists the stored events of that day, in the order of
    [get_events_for_date]: the days of the month and the days of the month
    before that fill the first week.  The cells after the last day of the
    month list no events, whatever is stored.  A cell is marked
    [is_current_month] exactly when its day is a day of the month, and
    [has_events] exactly when it lists an event. *)
Theorem calendar_matrix_cell_events :
  forall now today evs oy om,
    let y := or_default oy (year (date_of now)) in
    let m := or_default om (month (date_of now)) in
    MINYEAR <= y <= MAXYEAR -> 1 <= m <= 12 ->
    (y, m) <> (1, 1) -> (y, m) <> (9999, 12) ->
    exists mx,
      get_calendar_matrix now today evs oy om = Ok mx
      /\ forall i c,
           nth_error (List.concat (calendar_matrix mx)) i = Some c ->
           let n := toordinal (cell_date c) in
           n = grid_first y m + Z.of_nat i
           /\ (is_current_month c = true
               <-> month_first y m <= n < month_first y m + days_in_month y m)
           /\ (n < month_first y m + days_in_month y m ->
               cell_events c = get_events_for_date evs (cell_date c))
           /\ (month_first y m + days_in_month y m <= n ->
               cell_events c = [])
           /\ (has_events c = true <-> cell_events c <> []).
Proof.
  intros now today evs oy om y m Hy Hm Hne1 Hne2.
  destruct (get_calendar_matrix_eq now today evs oy om Hy Hm Hne1 Hne2)
    as (mx & ebd & Hmx & Hebd & Hcells & _).
  fold y m in Hebd, Hcells.
  exists mx. split; [exact Hmx|].
  intros i c Hc. rewrite Hcells, weeks_from_concat in Hc.
  apply cells_from_nth in Hc. destruct Hc as [Hi Hc].
  pose proof (month_first_range y m Hy Hm Hne1 Hne2) as HF.
  destruct (grid_first_range y m) as [Ho _].
  set (o := grid_first y m) in *. set (F := month_first y m) in *.
  assert (Hnr : 1 <= o + Z.of_nat i <= MAXORDINAL)
    by (unfold MAXORDINAL in *; lia).
  pose proof (fromordinal_valid _ Hnr) as HvD.
  pose proof (toordinal_fromordinal _ Hnr) as HoD.
  rewrite Hebd in Hc.
  destruct (make_cell_events y m today
              (grid_events evs y m (fromordinal o))
              (fromordinal (o + Z.of_nat i))) as [Hev Hhas].
  rewrite <- Hc in Hev, Hhas.
  assert (Hdate : cell_date c = fromordinal (o + Z.of_nat i))
    by (rewrite Hc; reflexivity).
  assert (Hicm : is_current_month c
                 = (year (cell_date c) =? y) && (month (cell_date c) =? m)).
  { rewrite Hc. unfold make_cell. cbn [is_current_month cell_date].
    apply andb_comm. }
  cbv zeta. rewrite Hdate, HoD. rewrite Hdate in Hicm.
  rewrite (on_date_grid_events evs y m o (o + Z.of_nat i) Hy Hm Hne1)
    in Hev, Hhas by (unfold F in *; lia).
  fold F in Hev, Hhas.
  split; [reflexivity|]. split.
  { rewrite Hicm, (in_monthb_range _ y m HvD Hy Hm), HoD.
    fold F. now rewrite andb_true_iff, Z.leb_le, Z.ltb_lt. }
  split.
  { intros Hlt. rewrite Hev.
    destruct (Z.ltb_spec (o + Z.of_nat i) (F + days_in_month y m));
      [reflexivity|lia]. }
  split.
  { intros Hge. rewrite Hev.
    destruct (Z.ltb_spec (o + Z.of_nat i) (F + days_in_month y m));
      [lia|reflexivity]. }
  rewrite Hhas, Hev.
  destruct (if o + Z.of_nat i <? F + days_in_month y m
            then get_events_for_date evs (fromordinal (o + Z.of_nat i))
            else []); cbn; split; congruence.
Qed.

Lemma calendar_matrix_cell_events_witness :
  exists mx,
    get_calendar_matrix (at_ 2024 3 1 8 0) (mkdate 2024 3 4)
      [sample_event "A" (at_ 2024 4 2 10 0) (at_ 2024 4 2 11 0)]
      (Some 2024) (Some 3) = Ok mx
    /\ forall i c,
         nth_error (List.concat (calendar_matrix mx)) i = Some c ->
         month_first 2024 3 + days_in_month 2024 3 <= toordinal (cell_date c)
         -> cell_events c = [].
Proof.
  destruct (calendar_matrix_cell_events (at_ 2024 3 1 8 0) (mkdate 2024 3 4)
              [sample_event "A" (at_ 2024 4 2 10 0) (at_ 2024 4 2 11 0)]
              (Some 2024) (Some 3))
    as (mx & Hmx & H).
  - unfold MINYEAR, MAXYEAR. cbn. lia.
  - cbn. lia.
  - cbn. intros [= ].
  - cbn. intros [= ].
  - exists mx. split; [exact Hmx|]. intros i c Hc.
    destruct (H i c Hc) as (_ & _ & _ & Hafter & _). exact Hafter.
Defined.

Lemma cells_from_cover y m today ebd o d :
  1 <= m <= 12 ->
  32 <= month_first y m <= MAXORDINAL - 60 ->
  month_first y m - 6 <= o <= month_first y m ->
  valid_date d -> year d = y -> month d = m ->
  exists i c,
    nth_error (cells_from y m today ebd o (7 * 6)) i = Some c
    /\ cell_date c = d
    /\ is_current_month c = true
    /\ forall j c',
         nth_error (cells_from y m today ebd o (7 * 6)) j = Some c' ->
         cell_date c' = d -> j = i.
Proof.
  intros Hm HF Ho Hd Hdy Hdm.
  pose proof (days_in_month_max y m Hm) as H31.
  pose proof (month_range d Hd) as Hr. rewrite Hdy, Hdm in Hr.
  exists (Z.to_nat (toordinal d - o)).
  exists (make_cell y m today ebd d).
  assert (Hod : o + Z.of_nat (Z.to_nat (toordinal d - o)) = toordinal d)
    by lia.
  split.
  { rewrite cells_from_nth_error by lia.
    now rewrite Hod, fromordinal_toordinal. }
  split; [reflexivity|]. split.
  { unfold make_cell. cbn [is_current_month]. rewrite Hdy, Hdm.
    now rewrite !Z.eqb_refl. }
  intros j c' Hc' Hdate. apply cells_from_nth in Hc'.
  destruct Hc' as [Hj Hc']. rewrite Hc' in Hdate.
  unfold make_cell in Hdate. cbn [cell_date] in Hdate.
  assert (Hjr : 1 <= o + Z.of_nat j <= MAXORDINAL)
    by (unfold MAXORDINAL in *; lia).
  pose proof (toordinal_fromordinal _ Hjr) as Hoj.
  rewrite Hdate in Hoj. lia.
Qed.

(** X22: Every day of the month is the date of exactly one cell of the
    grid, and that cell is marked [is_current_month]. *)
Theorem calendar_matrix_covers_month :
  forall now today evs oy om,
    let y := or_default oy (year (date_of now)) in
    let m := or_default om (month (date_of now)) in
    MINYEAR <= y <= MAXYEAR -> 1 <= m <= 12 ->
    (y, m) <> (1, 1) -> (y, m) <> (9999, 12) ->
    exists mx,
      get_calendar_matrix now today evs oy om = Ok mx
      /\ forall d,
           valid_date d -> year d = y -> month d = m ->
           exists i c,
             nth_error (List.concat (calendar_matrix mx)) i = Some c
             /\ cell_date c = d
             /\ is_current_month c = true
             /\ forall j c',
                  nth_error (List.concat (calendar_matrix mx)) j = Some c' ->
                  cell_date c' = d -> j = i.
Proof.
  intros now today evs oy om y m Hy Hm Hne1 Hne2.
  destruct (get_calendar_matrix_eq now today evs oy om Hy Hm Hne1 Hne2)
    as (mx & ebd & Hmx & Hebd & Hcells & _).
  exists mx. split; [exact Hmx|].
  intros d Hd Hdy Hdm.
  rewrite Hcells, weeks_from_concat.
  apply cells_from_cover; auto.
  - now apply month_first_range.
  - apply grid_first_range.
Qed.

Lemma calendar_matrix_covers_month_witness :
  exists mx,
    get_calendar_matrix (at_ 2024 3 1 8 0) (mkdate 2024 3 4) []
      (Some 2024) (Some 2) = Ok mx
    /\ exists i c,
         nth_error (List.concat (calendar_matrix mx)) i = Some c
         /\ cell_date c = mkdate 2024 2 29.
Proof.
  destruct (calendar_matrix_covers_month (at_ 2024 3 1 8 0)
              (mkdate 2024 3 4) [] (Some 2024) (Some 2))
    as (mx & Hmx & H).
  - unfold MINYEAR, MAXYEAR. cbn. lia.
  - cbn. lia.
  - cbn. intros [= ].
  - cbn. intros [= ].
  - exists mx. split; [exact Hmx|].
    destruct (H (mkdate 2024 2 29) eq_refl eq_refl eq_refl)
      as (i & c & Hc & Hd & _).
    exists i, c. auto.
Defined.

(** ** The counts of the grid *)

Lemma by_date_get_key k d :
  In k (map fst d) <-> by_date_get k d <> None.
Proof.
  induction d as [|[k0 v0] d IH]; cbn.
  - split; [intros []|congruence].
  - destruct (date_eqb k0 k) eqn:E.
    + apply date_eqb_eq in E. split; [discriminate|auto].
    + rewrite <- IH. split; [|auto].
      intros [H|H]; [|exact H].
      apply date_eqb_eq in H. congruence.
Qed.

Lemma by_date_append_keys k e d :
  NoDup (map fst d) -> NoDup (map fst (by_date_append k e d)).
Proof.
  induction d as [|[k0 v0] d IH]; intros Hd.
  - cbn. constructor; [intros []|constructor].
  - cbn [by_date_append]. inversion Hd as [|? ? Hnin Hd']; subst.
    destruct (date_eqb k0 k) eqn:E; cbn [map fst]; [exact Hd|].
    constructor; [|now apply IH].
    intros Hin. apply by_date_get_key in Hin.
    rewrite by_date_get_append in Hin.
    destruct (date_eqb k k0) eqn:E2.
    + apply date_eqb_eq in E2. subst. now rewrite date_eqb_refl in E.
    + apply Hnin. now apply by_date_get_key.
Qed.

Lemma group_by_date_keys l : NoDup (map fst (group_by_date l)).
Proof.
  unfold group_by_date.
  assert (H : forall l d, NoDup (map fst d) ->
               NoDup (map fst
                 (fold_left
                    (fun d0 event =>
                       by_date_append (date_of (start_time event)) event d0)
                    l d))).
  { clear l. induction l as [|e l IH]; intros d Hd; cbn; [exact Hd|].
    apply IH. now apply by_date_append_keys. }
  apply H. constructor.
Qed.

Lemma map_fst_filter {A B : Type} (p : A -> bool) (d : list (A * B)) :
  map fst (filter (fun kv => p (fst kv)) d) = filter p (map fst d).
Proof.
  induction d as [|[k v] d IH]; [reflexivity|].
  cbn. destruct (p k); cbn; now rewrite IH.
Qed.

Lemma NoDup_map_filter {A B : Type} (f : A -> B) (p : A -> bool) l :
  NoDup (map f l) -> NoDup (map f (filter p l)).
Proof.
  induction l as [|x l IH]; intros H; [constructor|].
  cbn in H. inversion H as [|? ? Hnin Hl]; subst.
  cbn. destruct (p x); [|now apply IH].
  cbn. constructor; [|now apply IH].
  intros Hin. apply Hnin. apply in_map_iff in Hin.
  destruct Hin as (z & Hz & Hin). apply filter_In in Hin.
  apply in_map_iff. exists z. tauto.
Qed.

Lemma cells_from_dates y m today ebd o n :
  1 <= o -> o + Z.of_nat n <= MAXORDINAL + 1 ->
  NoDup (map cell_date (cells_from y m today ebd o n)).
Proof.
  intros Hlo Hhi. unfold cells_from. rewrite map_map.
  cbn [make_cell cell_date].
  apply Finite.Injective_map_NoDup_in; [|apply seq_NoDup].
  intros a b Ha Hb E. apply in_seq in Ha, Hb.
  assert (Hra : 1 <= o + Z.of_nat a <= MAXORDINAL) by lia.
  assert (Hrb : 1 <= o + Z.of_nat b <= MAXORDINAL) by lia.
  pose proof (toordinal_fromordinal _ Hra) as Ea.
  pose proof (toordinal_fromordinal _ Hrb) as Eb.
  rewrite E in Ea. lia.
Qed.

Lemma grid_events_in evs y m start_date e :
  In e (grid_events evs y m start_date) -> In e evs.
Proof.
  rewrite grid_events_unfold. intros He.
  destruct (negb _ || negb _);
    [apply in_app_or in He; destruct He as [He|He]|];
    eapply get_events_for_month_in; eassumption.
Qed.

(** The keys of the month in the dictionary of the grid are the dates of
    the marked cells, and there are no more of them than events of the
    month. *)
Lemma grid_day_count evs y m today o ebd :
  1 <= m <= 12 ->
  32 <= month_first y m <= MAXORDINAL - 60 ->
  month_first y m - 6 <= o <= month_first y m ->
  (forall e, In e evs -> valid_date (date_of (start_time e))) ->
  ebd = group_by_date (grid_events evs y m (fromordinal o)) ->
  List.length
    (filter (fun kv => (year (fst kv) =? y) && (month (fst kv) =? m)) ebd)
  = List.length
      (filter (fun c => is_current_month c && has_events c)
              (cells_from y m today ebd o (7 * 6)))
  /\ Nat.le
       (List.length
          (filter (fun kv => (year (fst kv) =? y) && (month (fst kv) =? m))
                  ebd))
       (List.length (get_events_for_month evs y m)).
Proof.
  intros Hm HF Ho Hvalid Hebd.
  pose proof (days_in_month_max y m Hm) as H31.
  remember (grid_events evs y m (fromordinal o)) as l eqn:El.
  assert (Hkeys : NoDup (filter (fun k => (year k =? y) && (month k =? m))
                                (map fst ebd))).
  { apply NoDup_filter. rewrite Hebd. apply group_by_date_keys. }
  assert (Hev : forall k,
             by_date_get k ebd <> None ->
             exists e, In e evs /\ date_of (start_time e) = k).
  { intros k Hkey. rewrite Hebd, group_by_date_get in Hkey.
    destruct (on_date k l) as [|e rest] eqn:E; [congruence|].
    assert (He : In e (on_date k l)) by (rewrite E; now left).
    apply filter_In in He. destruct He as [He Hd].
    apply date_eqb_eq in Hd. exists e. split; [|exact Hd].
    rewrite El in He. now apply grid_events_in in He. }
  split.
  - rewrite <- (length_map fst (filter _ ebd)).
    rewrite <- (length_map cell_date (filter _ (cells_from _ _ _ _ _ _))).
    apply Permutation_length, NoDup_Permutation.
    + rewrite (map_fst_filter
                 (fun k => (year k =? y) && (month k =? m)) ebd).
      exact Hkeys.
    + apply NoDup_map_filter.
      apply cells_from_dates; unfold MAXORDINAL in *; lia.
    + intros k.
      rewrite (map_fst_filter
                 (fun k => (year k =? y) && (month k =? m)) ebd).
      rewrite filter_In, by_date_get_key, in_map_iff. split.
      * intros [Hkey Hin]. apply in_monthb_iff in Hin.
        destruct Hin as [Hky Hkm].
        assert (Hk : valid_date k).
        { destruct (Hev k Hkey) as (e & He & <-). now apply Hvalid. }
        pose proof (month_range k Hk) as Hr. rewrite Hky, Hkm in Hr.
        exists (make_cell y m today ebd k).
        split; [reflexivity|]. apply filter_In. split.
        -- apply (nth_error_In _ (Z.to_nat (toordinal k - o))).
           rewrite cells_from_nth_error by lia.
           replace (o + Z.of_nat (Z.to_nat (toordinal k - o)))
             with (toordinal k) by lia.
           now rewrite fromordinal_toordinal.
        -- unfold make_cell. cbn [is_current_month has_events].
           rewrite Hky, Hkm, !Z.eqb_refl.
           destruct (by_date_get k ebd); [reflexivity|congruence].
      * intros (c & Hdate & Hin). apply filter_In in Hin.
        destruct Hin as [Hin Hflags].
        apply In_nth_error in Hin. destruct Hin as [i Hi].
        apply cells_from_nth in Hi. destruct Hi as [_ Hc].
        rewrite Hc in Hdate, Hflags. unfold make_cell in Hdate, Hflags.
        cbn [cell_date is_current_month has_events] in Hdate, Hflags.
        rewrite Hdate in Hflags.
        apply andb_true_iff in Hflags. destruct Hflags as [Hicm Hhas].
        split.
        -- destruct (by_date_get k ebd); [congruence|discriminate].
        -- now rewrite andb_comm.
  - rewrite <- (length_map fst (filter _ ebd)).
    rewrite (map_fst_filter (fun k => (year k =? y) && (month k =? m)) ebd).
    rewrite <- (length_map (fun e => date_of (start_time e))
                  (get_events_for_month evs y m)).
    apply NoDup_incl_length; [exact Hkeys|].
    intros k Hk. apply filter_In in Hk. destruct Hk as [Hkey Hin].
    apply by_date_get_key in Hkey.
    destruct (Hev k Hkey) as (e & He & Hd).
    apply in_map_iff. exists e. split; [exact Hd|].
    unfold get_events_for_month. apply sort_by_start_in.
    apply filter_In. split; [exact He|]. now rewrite Hd.
Qed.

(** X23: [events_count] is the number of stored events that start in the
    month, and [total_days_with_events] is the number of cells of the grid
    that are marked both [is_current_month] and [has_events]: the days of
    the month on which a stored event starts.  There are no more such
    days than events of the month. *)
Theorem calendar_matrix_counts :
  forall now today evs oy om,
    let y := or_default oy (year (date_of now)) in
    let m := or_default om (month (date_of now)) in
    MINYEAR <= y <= MAXYEAR -> 1 <= m <= 12 ->
    (y, m) <> (1, 1) -> (y, m) <> (9999, 12) ->
    (forall e, In e evs -> valid_date (date_of (start_time e))) ->
    exists mx,
      get_calendar_matrix now today evs oy om = Ok mx
      /\ events_count mx
         = List.length
             (filter (fun e =>
                        (year (date_of (start_time e)) =? y)
                        && (month (date_of (start_time e)) =? m)) evs)
      /\ total_days_with_events mx
         = List.length
             (filter (fun c => is_current_month c && has_events c)
                     (List.concat (calendar_matrix mx)))
      /\ (total_days_with_events mx <= events_count mx)%nat.
Proof.
  intros now today evs oy om y m Hy Hm Hne1 Hne2 Hvalid.
  destruct (get_calendar_matrix_eq now today evs oy om Hy Hm Hne1 Hne2)
    as (mx & ebd & Hmx & Hebd & Hcells & _ & _ & _ & Hcount & Hdays).
  exists mx. split; [exact Hmx|].
  destruct (grid_day_count evs _ _ today _ ebd Hm
              (month_first_range _ _ Hy Hm Hne1 Hne2)
              (proj1 (grid_first_range _ _)) Hvalid Hebd) as [Hmarked Hle].
  rewrite Hcells, weeks_from_concat, Hdays, Hcount.
  split; [|split; [exact Hmarked|exact Hle]].
  unfold get_events_for_month.
  apply Permutation_length, sort_by_start_perm.
Qed.

Lemma calendar_matrix_counts_witness :
  exists mx,
    get_calendar_matrix (at_ 2024 3 1 8 0) (mkdate 2024 3 4)
      [sample_event "A" (at_ 2024 3 4 10 0) (at_ 2024 3 4 11 0);
       sample_event "B" (at_ 2024 3 4 12 0) (at_ 2024 3 4 13 0)]
      None None = Ok mx
    /\ (total_days_with_events mx <= events_count mx)%nat.
Proof.
  destruct (calendar_matrix_counts (at_ 2024 3 1 8 0) (mkdate 2024 3 4)
              [sample_event "A" (at_ 2024 3 4 10 0) (at_ 2024 3 4 11 0);
               sample_event "B" (at_ 2024 3 4 12 0) (at_ 2024 3 4 13 0)]
              None None)
    as (mx & Hmx & _ & _ & Hle).
  - unfold MINYEAR, MAXYEAR. cbn. lia.
  - cbn. lia.
  - cbn. intros [= ].
  - cbn. intros [= ].
  - intros e [<-|[<-|[]]]; reflexivity.
  - exists mx. split; [exact Hmx|exact Hle].
Defined.

End GridMore.

(** * The summary and the status *)

Module SummaryMore.

Import PyDatetime PyStr PyIso Calendar Timeline Fields MoreDefs.
Import OrdinalFacts OrderFacts ArithFacts RepositoryFacts QueryFacts.
Import SerialFacts GridFacts RepositoryMore QueryMore GridMore.

(** ** The value of [get_upcoming_events] *)

Lemma horizon_delta now days0 :
  to_us now + delta_us (mkdelta days0 0 0) = horizon_us now days0.
Proof. unfold horizon_us, delta_us. cbn [days seconds microseconds]. ring. Qed.

Lemma get_upcoming_events_value now evs days0 :
  valid_datetime now ->
  (forall e, In e evs -> valid_datetime (start_time e)) ->
  MIN_US <= horizon_us now days0 <= MAX_US ->
  get_upcoming_events now evs days0
  = Ok (sort_by_start (filter (in_horizon now days0) evs)).
Proof.
  intros Hnow Hev Hh. unfold get_upcoming_events.
  rewrite timedelta_days_ok by (eapply horizon_days; eauto).
  cbn [bind]. rewrite (datetime_add_canon now _ Hnow). cbv zeta.
  rewrite horizon_delta.
  replace ((MIN_US <=? horizon_us now days0)
           && (horizon_us now days0 <=? MAX_US)) with true
    by (symmetry; apply andb_true_iff; rewrite !Z.leb_le; lia).
  cbn [bind]. destruct (of_us_valid _ Hh) as [Hvf Huf].
  do 2 f_equal. apply filter_ext_in. intros e He.
  pose proof (Hev e He) as Hve. unfold in_horizon.
  apply eq_true_iff_eq.
  rewrite !andb_true_iff, (le_us _ _ Hnow Hve), (le_us _ _ Hve Hvf), Huf.
  now rewrite !Z.leb_le.
Qed.

Lemma get_upcoming_events_overflow now evs days0 :
  valid_datetime now ->
  horizon_us now days0 < MIN_US \/ MAX_US < horizon_us now days0 ->
  get_upcoming_events now evs days0 = Raise OverflowError.
Proof.
  intros Hnow Hout. unfold get_upcoming_events.
  destruct (timedelta_days_total days0) as [->| ->]; [|reflexivity].
  cbn [bind]. rewrite (datetime_add_canon now _ Hnow). cbv zeta.
  rewrite horizon_delta.
  replace ((MIN_US <=? horizon_us now days0)
           && (horizon_us now days0 <=? MAX_US)) with false;
    [reflexivity|].
  symmetry. apply andb_false_iff. rewrite !Z.leb_gt. lia.
Qed.

(** The first event of the sorted list starts first. *)
Lemma sort_by_start_head l first rest :
  (forall e, In e l -> valid_datetime (start_time e)) ->
  sort_by_start l = first :: rest ->
  In first l
  /\ forall e, In e l -> to_us (start_time first) <= to_us (start_time e).
Proof.
  intros Hv E.
  assert (Hin : forall e, In e l <-> In e (first :: rest))
    by (intros e; rewrite <- E; symmetry; apply sort_by_start_in).
  pose proof (sort_by_start_strongly_sorted l) as Hs. rewrite E in Hs.
  inversion Hs as [|? ? _ Hhd]; subst.
  assert (Hf : In first l) by (apply Hin; now left).
  split; [exact Hf|]. intros e He.
  apply (le_us _ _ (Hv first Hf) (Hv e He)).
  apply Hin in He. destruct He as [<-|He]; [apply le_refl|].
  rewrite Forall_forall in Hhd. now apply Hhd.
Qed.

(** ** The dictionary of the summary *)

Lemma by_day_get_append k k' x d :
  by_day_get k (by_day_append k' x d)
  = if String.eqb k' k then Some (by_day_get_default k d ++ [x])
    else by_day_get k d.
Proof.
  unfold by_day_get_default.
  induction d as [|[k0 v0] d IH].
  - cbn. now destruct (String.eqb k' k).
  - cbn [by_day_append by_day_get].
    destruct (String.eqb k0 k') eqn:E0.
    + apply String.eqb_eq in E0. subst k0. cbn [by_day_get].
      now destruct (String.eqb k' k).
    + cbn [by_day_get]. destruct (String.eqb k0 k) eqn:E1; [|exact IH].
      destruct (String.eqb k' k) eqn:E2; [|reflexivity].
      apply String.eqb_eq in E1, E2. subst.
      now rewrite String.eqb_refl in E0.
Qed.

Lemma by_day_fold_get k : forall l d,
  by_day_get k
    (fold_left
       (fun d0 event =>
          by_day_append (date_isoformat (date_of (start_time event)))
                        (summary_entry_of event) d0)
       l d)
  = match on_day k l with
    | [] => by_day_get k d
    | v => Some (by_day_get_default k d ++ map summary_entry_of v)
    end.
Proof.
  induction l as [|e l IH]; intros d; [reflexivity|].
  cbn [fold_left]. rewrite IH. unfold on_day. cbn [filter].
  fold (on_day k l). unfold by_day_get_default.
  rewrite by_day_get_append. unfold by_day_get_default.
  destruct (String.eqb (date_isoformat (date_of (start_time e))) k).
  - destruct (on_day k l); [reflexivity|].
    cbn [map]. now rewrite <- app_assoc.
  - reflexivity.
Qed.

Lemma by_day_get_key k d :
  In k (map fst d) <-> by_day_get k d <> None.
Proof.
  induction d as [|[k0 v0] d IH]; cbn.
  - split; [intros []|congruence].
  - destruct (String.eqb k0 k) eqn:E.
    + apply String.eqb_eq in E. split; [discriminate|auto].
    + rewrite <- IH. split; [|auto].
      intros [H|H]; [|exact H].
      apply String.eqb_eq in H. congruence.
Qed.

Lemma by_day_append_keys k x d :
  NoDup (map fst d) -> NoDup (map fst (by_day_append k x d)).
Proof.
  induction d as [|[k0 v0] d IH]; intros Hd.
  - cbn. constructor; [intros []|constructor].
  - cbn [by_day_append]. inversion Hd as [|? ? Hnin Hd']; subst.
    destruct (String.eqb k0 k) eqn:E; cbn [map fst]; [exact Hd|].
    constructor; [|now apply IH].
    intros Hin. apply by_day_get_key in Hin.
    rewrite by_day_get_append in Hin.
    destruct (String.eqb k k0) eqn:E2.
    + apply String.eqb_eq in E2. subst. now rewrite String.eqb_refl in E.
    + apply Hnin. now apply by_day_get_key.
Qed.

Lemma by_day_fold_keys : forall l d,
  NoDup (map fst d) ->
  NoDup (map fst
    (fold_left
       (fun d0 event =>
          by_day_append (date_isoformat (date_of (start_time event)))
                        (summary_entry_of event) d0)
       l d)).
Proof.
  induction l as [|e l IH]; intros d Hd; cbn; [exact Hd|].
  apply IH. now apply by_day_append_keys.
Qed.

(** The summary of a list of upcoming events. *)
Lemma summary_of_upcoming now evs days0 upcoming :
  get_upcoming_events now evs days0 = Ok upcoming ->
  exists s,
    get_calendar_summary now evs days0 = Ok s
    /\ total_events s = List.length evs
    /\ upcoming_events s = List.length upcoming
    /\ next_event s = option_map title (hd_error upcoming)
    /\ NoDup (map fst (events_by_date s))
    /\ forall k,
         by_day_get k (events_by_date s)
         = match on_day k upcoming with
           | [] => None
           | v => Some (map summary_entry_of v)
           end.
Proof.
  intros Hup. unfold get_calendar_summary. rewrite Hup. cbn [bind].
  eexists. split; [reflexivity|].
  cbn [total_events upcoming_events next_event events_by_date].
  split; [reflexivity|]. split; [reflexivity|].
  split; [now destruct upcoming|].
  split; [apply by_day_fold_keys; constructor|].
  intros k. now rewrite by_day_fold_get.
Qed.

Lemma by_day_append_total k x d :
  list_sum (map (fun kv => List.length (snd kv)) (by_day_append k x d))
  = S (list_sum (map (fun kv : string * list summary_entry =>
                        List.length (snd kv)) d)).
Proof.
  induction d as [|[k0 v0] d IH]; [reflexivity|].
  cbn [by_day_append]. destruct (String.eqb k0 k).
  - cbn. rewrite length_app. cbn. lia.
  - cbn [map snd]. change (list_sum (?a :: ?l)) with (a + list_sum l)%nat.
    rewrite IH. cbn. lia.
Qed.

Lemma by_day_fold_total : forall l d,
  list_sum (map (fun kv => List.length (snd kv))
    (fold_left
       (fun d0 event =>
          by_day_append (date_isoformat (date_of (start_time event)))
                        (summary_entry_of event) d0)
       l d))
  = (List.length l
     + list_sum (map (fun kv : string * list summary_entry =>
                        List.length (snd kv)) d))%nat.
Proof.
  induction l as [|e l IH]; intros d; [reflexivity|].
  cbn [fold_left List.length]. rewrite IH, by_day_append_total. lia.
Qed.

Lemma in_horizon_in now days0 evs e :
  In e (sort_by_start (filter (in_horizon now days0) evs))
  <-> In e evs /\ in_horizon now days0 e = true.
Proof. now rewrite sort_by_start_in, filter_In. Qed.

(** X24: [get_calendar_summary] counts the stored events and those that start
    from [now] to [now + days]; it lists each of the latter once, under
    the ISO date of its start, the entries of a date in ascending order
    of [start_time]; the dates listed are those on which such an event
    starts; and [next_event] is the title of one that starts first, or
    [None] when there is none.  It raises [OverflowError] when
    [now + days] is no datetime. *)
Theorem get_calendar_summary_spec :
  forall now evs days0,
    valid_datetime now ->
    (forall e, In e evs -> valid_datetime (start_time e)) ->
    (MIN_US <= horizon_us now days0 <= MAX_US ->
     exists s,
       get_calendar_summary now evs days0 = Ok s
       /\ total_events s = List.length evs
       /\ upcoming_events s
          = List.length (filter (in_horizon now days0) evs)
       /\ list_sum (map (fun kv => List.length (snd kv)) (events_by_date s))
          = upcoming_events s
       /\ NoDup (map fst (events_by_date s))
       /\ (forall k,
             In k (map fst (events_by_date s))
             <-> exists e,
                   In e evs /\ in_horizon now days0 e = true
                   /\ date_isoformat (date_of (start_time e)) = k)
       /\ (forall k,
             by_day_get_default k (events_by_date s)
             = map summary_entry_of
                 (sort_by_start
                    (filter
                       (fun e =>
                          String.eqb
                            (date_isoformat (date_of (start_time e))) k
                          && in_horizon now days0 e)
                       evs)))
       /\ (next_event s = None
           <-> forall e, In e evs -> in_horizon now days0 e = false)
       /\ (forall t,
             next_event s = Some t ->
             exists e,
               In e evs /\ in_horizon now days0 e = true /\ title e = t
               /\ forall e',
                    In e' evs -> in_horizon now days0 e' = true ->
                    to_us (start_time e) <= to_us (start_time e')))
    /\ (horizon_us now days0 < MIN_US \/ MAX_US < horizon_us now days0 ->
        get_calendar_summary now evs days0 = Raise OverflowError).
Proof.
  intros now evs days0 Hnow Hev. split.
  - intros Hh.
    pose proof (get_upcoming_events_value now evs days0 Hnow Hev Hh) as Hup.
    remember (sort_by_start (filter (in_horizon now days0) evs))
      as upcoming eqn:Eup.
    assert (Hin : forall e,
               In e upcoming <-> In e evs /\ in_horizon now days0 e = true)
      by (intros e; rewrite Eup; apply in_horizon_in).
    unfold get_calendar_summary. rewrite Hup. cbn [bind].
    eexists. split; [reflexivity|].
    cbn [total_events upcoming_events next_event events_by_date].
    split; [reflexivity|].
    split; [rewrite Eup; apply Permutation_length, sort_by_start_perm|].
    split; [rewrite by_day_fold_total; cbn; lia|].
    split; [apply by_day_fold_keys; constructor|].
    split; [|split; [|split]].
    + intros k. rewrite by_day_get_key, by_day_fold_get.
      cbn [by_day_get]. split.
      * intros Hk. destruct (on_day k upcoming) as [|e rest] eqn:E;
          [congruence|].
        assert (He : In e (on_day k upcoming)) by (rewrite E; now left).
        apply filter_In in He. destruct He as [He Hd].
        apply String.eqb_eq in Hd. apply Hin in He.
        exists e. tauto.
      * intros (e & He & Hh' & Hd).
        assert (Hin' : In e (on_day k upcoming)).
        { apply filter_In. split; [apply Hin; auto|].
          now apply String.eqb_eq. }
        destruct (on_day k upcoming); [destruct Hin'|discriminate].
    + intros k. unfold by_day_get_default. rewrite by_day_fold_get.
      cbn [by_day_get]. unfold by_day_get_default. cbn [by_day_get app].
      replace (sort_by_start
                 (filter
                    (fun e =>
                       String.eqb
                         (date_isoformat (date_of (start_time e))) k
                       && in_horizon now days0 e) evs))
        with (on_day k upcoming)
        by (rewrite Eup; unfold on_day;
            now rewrite filter_sort_by_start, filter_filter).
      now destruct (on_day k upcoming).
    + destruct upcoming as [|first rest].
      * split; [|reflexivity]. intros _ e He.
        destruct (in_horizon now days0 e) eqn:E; [|reflexivity].
        destruct (proj2 (Hin e) (conj He E)).
      * split; [discriminate|]. intros Hnone.
        assert (Hf : In first (first :: rest)) by now left.
        apply Hin in Hf. destruct Hf as [Hf Hh'].
        rewrite (Hnone first Hf) in Hh'. discriminate.
    + intros t Ht. destruct upcoming as [|first rest]; [discriminate|].
      injection Ht as <-. symmetry in Eup.
      destruct (sort_by_start_head _ first rest
                  (fun e He => Hev e (proj1 (proj1 (filter_In _ _ _) He)))
                  Eup) as [Hf Hmin].
      apply filter_In in Hf. destruct Hf as [Hf Hh'].
      exists first. split; [exact Hf|]. split; [exact Hh'|].
      split; [reflexivity|]. intros e' He' Hh2.
      apply Hmin. apply filter_In. auto.
  - intros Hout. unfold get_calendar_summary.
    now rewrite (get_upcoming_events_overflow now evs days0 Hnow Hout).
Qed.

Lemma get_calendar_summary_spec_witness :
  exists s,
    get_calendar_summary (at_ 2024 3 4 9 0)
      [sample_event "A" (at_ 2024 3 5 10 0) (at_ 2024 3 5 11 0);
       sample_event "B" (at_ 2024 3 4 10 0) (at_ 2024 3 4 11 0)] 7 = Ok s
    /\ NoDup (map fst (events_by_date s)).
Proof.
  destruct (get_calendar_summary_spec (at_ 2024 3 4 9 0)
              [sample_event "A" (at_ 2024 3 5 10 0) (at_ 2024 3 5 11 0);
               sample_event "B" (at_ 2024 3 4 10 0) (at_ 2024 3 4 11 0)] 7)
    as (H & _).
  - split; reflexivity.
  - intros e [<-|[<-|[]]]; split; reflexivity.
  - destruct H as (s & Hs & _ & _ & _ & Hnd & _).
    + split; vm_compute; discriminate.
    + exists s. auto.
Defined.

(** X25: [get_status] counts the stored events, those that start on the date
    of [now] (whether or not they have started), and those that start in
    the next seven days from the second reading of the clock; with the
    clock of [get_calendar_summary 7] it reports the same counts and the
    same next event as the summary.  The path of the data file is passed
    through. *)
Theorem get_status_spec :
  forall data_file now now2 evs,
    valid_datetime now2 ->
    (forall e, In e evs -> valid_datetime (start_time e)) ->
    MIN_US <= horizon_us now2 7 <= MAX_US ->
    exists st,
      get_status data_file now now2 evs = Ok st
      /\ status_total_events st = List.length evs
      /\ status_today_events st
         = List.length (on_date (date_of now) evs)
      /\ status_upcoming_events st
         = List.length (filter (in_horizon now2 7) evs)
      /\ status_data_file st = data_file
      /\ (forall s,
            get_calendar_summary now2 evs 7 = Ok s ->
            status_total_events st = total_events s
            /\ status_upcoming_events st = upcoming_events s
            /\ status_next_event st = next_event s).
Proof.
  intros data_file now now2 evs Hnow Hev Hh.
  pose proof (get_upcoming_events_value now2 evs 7 Hnow Hev Hh) as Hup.
  unfold get_status. rewrite Hup. cbn [bind].
  eexists. split; [reflexivity|].
  cbn [status_total_events status_today_events status_upcoming_events
       status_next_event status_data_file].
  split; [reflexivity|].
  split; [apply Permutation_length, sort_by_start_perm|].
  split; [apply Permutation_length, sort_by_start_perm|].
  split; [reflexivity|].
  intros s Hs. unfold get_calendar_summary in Hs. rewrite Hup in Hs.
  cbn [bind] in Hs. injection Hs as <-.
  cbn [total_events upcoming_events next_event]. auto.
Qed.

Lemma get_status_spec_witness :
  exists st,
    get_status "calendar_data.json" (at_ 2024 3 4 12 0) (at_ 2024 3 4 12 0)
      [sample_event "A" (at_ 2024 3 4 10 0) (at_ 2024 3 4 11 0)] = Ok st
    /\ status_today_events st = 1%nat
    /\ status_upcoming_events st = 0%nat.
Proof.
  destruct (get_status_spec "calendar_data.json" (at_ 2024 3 4 12 0)
              (at_ 2024 3 4 12 0)
              [sample_event "A" (at_ 2024 3 4 10 0) (at_ 2024 3 4 11 0)])
    as (st & Hst & _ & Htoday & Hup & _).
  - split; reflexivity.
  - intros e [<-|[]]; split; reflexivity.
  - split; vm_compute; discriminate.
  - exists st. split; [exact Hst|]. rewrite Htoday, Hup. split; reflexivity.
Defined.

End SummaryMore.
